(** * BE-GIS: the location-feature CRUD service

    A shallow embedding of the HTTP handlers of package [api]
    (createLocation, getLocations, updateLocation, deleteLocation,
    corsMiddleware, SetupRouter) and of the older stand-alone server
    program, together with the parts of the libraries they call:
    encoding/json decoding and encoding driven by the struct tags,
    net/http's ResponseWriter and http.Error, primitive.ObjectID, and
    the collection operations of the MongoDB driver.

    Handlers are written as programs over the collection's operations
    (a free monad), so that both "which operation is issued, with which
    arguments" and "what happens when it is run against a collection"
    can be stated.

    initDB is modelled apart, over the operations it asks of its
    environment.  Left out: the matching of a request's path and method
    to a route inside mux (and with it Handler and main), the gorilla
    CORS wrapper of the stand-alone program, and time: a timeout shows
    only as an error returned by the call it bounds. *)

From Stdlib Require Import ZArith NArith String Ascii List.
From Stdlib Require PrimFloat.
From stdpp Require Import base option list gmap strings fin_maps.

Set Warnings "-register-all".

Local Open Scope string_scope.
Local Open Scope N_scope.

(** ** Errors

    Go's [error] values.  Only the origin of an error is kept; the text
    that [err.Error()] returns for it is not modelled. *)

Inductive error : Type :=
| ErrInvalidHex        (* primitive.ErrInvalidHex, encoding/hex errors *)
| ErrSyntax            (* no JSON value can be read: *json.SyntaxError, io.EOF *)
| ErrUnmarshal         (* *json.UnmarshalTypeError, ObjectID.UnmarshalJSON errors *)
| ErrUnsupportedValue  (* *json.UnsupportedValueError: NaN or an infinity *)
| ErrStore (msg : string).  (* any error returned by the driver *)

#[global] Instance result_bind : MBind (sum error) :=
  fun A B f m => match m with inl e => inl e | inr a => f a end.

(** float64 *)
Abbreviation float64 := PrimFloat.float.

(** A Go slice: nil, or a (possibly empty) sequence. *)
Abbreviation slice A := (option (list A)).

(** ** encoding/json *)

Module json.

(** A JSON text after tokenising and unquoting.  A number token is
    represented by the float64 that strconv.ParseFloat gives for it;
    that is an infinity exactly when the token is out of range.

    One decoder looks at the bytes a value is written with and not only
    at the value: ObjectID's unmarshaller copies a text of exactly
    twelve bytes.  [Spelt text v] is the value [v] where the body
    writes it as [text].  Without it, a string whose characters need no
    escape stands for that string written plainly between its quotes,
    and any other value for one written in some other number of bytes
    than twelve. *)
Inductive Value : Type :=
| Null
| Bool (b : bool)
| Number (f : float64)
| Str (s : string)
| Array (elems : list Value)
| Object (members : list (string * Value))
| Spelt (text : string) (v : Value).

(** The value, whatever it is written with. *)
Fixpoint strip (v : Value) : Value :=
  match v with
  | Spelt _ v' => strip v'
  | _ => v
  end.

(** A character that a string token can hold as it is: no control
    character, no quote (34), no backslash (92). *)
Definition plainChar (c : ascii) : bool :=
  let n := N_of_ascii c in
  (32 <=? n) && negb (n =? 34) && negb (n =? 92).

Fixpoint plain (s : string) : bool :=
  match s with
  | EmptyString => true
  | String c s' => plainChar c && plain s'
  end.

Definition quoted (s : string) : string :=
  String (ascii_of_N 34) (s +:+ String (ascii_of_N 34) EmptyString).

(** The bytes the value is written with, where they are known. *)
Definition text (v : Value) : option string :=
  match v with
  | Spelt t _ => Some t
  | Str s => if plain s then Some (quoted s) else None
  | _ => None
  end.

(** Case folding of member names: encoding/json looks a key up by its
    exact name and then by its folded name (bytes.EqualFold).  The
    struct fields here are lower-case ASCII and pairwise distinct after
    folding, so a key selects the field whose name equals its fold.
    Besides the ASCII letters, only U+212A (Kelvin sign, bytes E2 84 AA)
    and U+017F (long s, bytes C5 BF) fold to an ASCII letter. *)
Fixpoint foldName (s : string) : string :=
  match s with
  | EmptyString => EmptyString
  | String c s' =>
      let n := N_of_ascii c in
      if (65 <=? n) && (n <=? 90) then String (ascii_of_N (n + 32)) (foldName s')
      else
        match s' with
        | String c1 s1 =>
            if (n =? 197) && (N_of_ascii c1 =? 191) then String "s" (foldName s1)
            else
              match s1 with
              | String c2 s2 =>
                  if (n =? 226) && (N_of_ascii c1 =? 132) && (N_of_ascii c2 =? 170)
                  then String "k" (foldName s2)
                  else String c (foldName s')
              | EmptyString => String c (foldName s')
              end
        | EmptyString => String c EmptyString
        end
  end.

End json.

(** ** primitive.ObjectID

    A [12]byte array, kept as the 96-bit number its bytes spell in
    big-endian order. *)

Module primitive.

Definition ObjectID : Type := N.

Definition NilObjectID : ObjectID := 0.

Definition IsZero (id : ObjectID) : bool := N.eqb id NilObjectID.

(* encoding/hex: fromHexChar *)
Definition fromHexChar (c : ascii) : option N :=
  let n := N_of_ascii c in
  if (48 <=? n) && (n <=? 57) then Some (n - 48)
  else if (97 <=? n) && (n <=? 102) then Some (n - 97 + 10)
  else if (65 <=? n) && (n <=? 70) then Some (n - 65 + 10)
  else None.

Fixpoint hexDecode (acc : N) (s : string) : option N :=
  match s with
  | EmptyString => Some acc
  | String c s' =>
      match fromHexChar c with
      | Some d => hexDecode (16 * acc + d) s'
      | None => None
      end
  end.

(* hextable = "0123456789abcdef" *)
Definition hexDigit (d : N) : ascii :=
  ascii_of_N (if d <? 10 then 48 + d else 97 + (d - 10)).

Fixpoint hexEncode (digits : nat) (n : N) : string :=
  match digits with
  | O => ""
  | S k => hexEncode k (n / 16) +:+ String (hexDigit (n mod 16)) ""
  end.

Definition ObjectIDFromHex (s : string) : error + ObjectID :=
  if Nat.eqb (String.length s) 24 then
    match hexDecode 0 s with
    | Some id => inr id
    | None => inl ErrInvalidHex
    end
  else inl ErrInvalidHex.

Definition Hex (id : ObjectID) : string := hexEncode 24 id.

(** ObjectID's json.Marshaler: the quoted hex form. *)
Definition MarshalJSON (id : ObjectID) : json.Value := json.Str (Hex id).

(** ObjectID's json.Unmarshaler: null leaves the receiver alone; a
    text of exactly twelve bytes is copied into the identifier as it
    stands; otherwise the text is parsed, and the empty string gives
    NilObjectID, a 24-digit hex string or the extended form
    {"$oid": hex} gives that identifier, anything else is an error. *)
Fixpoint fromBytes (acc : N) (b : string) : ObjectID :=
  match b with
  | EmptyString => acc
  | String c b' => fromBytes (256 * acc + N_of_ascii c) b'
  end.

Definition fromJSONString (s : string) : error + ObjectID :=
  if Nat.eqb (String.length s) 0 then inr NilObjectID
  else ObjectIDFromHex s.

Fixpoint lastMember (key : string) (ms : list (string * json.Value))
  : option json.Value :=
  match ms with
  | [] => None
  | (k, v) :: ms' =>
      match lastMember key ms' with
      | Some v' => Some v'
      | None => if String.eqb k key then Some v else None
      end
  end.

(* the default case of the switch on len(b) *)
Definition fromValue (v : json.Value) : error + ObjectID :=
  match json.strip v with
  | json.Str s => fromJSONString s
  | json.Object ms =>
      match lastMember "$oid" ms with
      | Some oid =>
          match json.strip oid with
          | json.Str s => fromJSONString s
          | _ => inl ErrUnmarshal
          end
      | None => inl ErrUnmarshal
      end
  | _ => inl ErrUnmarshal
  end.

Definition UnmarshalJSON (v : json.Value) (id : ObjectID) : error + ObjectID :=
  match json.strip v with
  | json.Null => inr id
  | _ =>
      match json.text v with
      | Some b =>
          if Nat.eqb (String.length b) 12 then inr (fromBytes 0 b)
          else fromValue v
      | None => fromValue v
      end
  end.

End primitive.

(** ** The GeoJSON records (identical in both programs)

    [Type] is reserved in Rocq, and Go's field names coincide with its
    type names, so a field [F] of struct [T] is called [T_F]. *)

Record Geometry : Type := {
  Geometry_Type : string;                 (* json:"type" bson:"type" *)
  Geometry_Coordinates : slice float64;   (* json:"coordinates" bson:"coordinates" *)
}.

Record Properties : Type := {
  Properties_Name : string;               (* json:"name" bson:"name" *)
  Properties_Description : string;        (* json:"description" bson:"description" *)
}.

Record LocationFeature : Type := {
  Feature_ID : primitive.ObjectID;        (* json:"id" bson:"_id,omitempty" *)
  Feature_Type : string;                  (* json:"type" bson:"type" *)
  Feature_Properties : Properties;        (* json:"properties" bson:"properties" *)
  Feature_Geometry : Geometry;            (* json:"geometry" bson:"geometry" *)
}.

Record FeatureCollection : Type := {
  Collection_Type : string;               (* json:"type" *)
  Collection_Features : slice LocationFeature;  (* json:"features" *)
}.

(** [var feature LocationFeature]: the zero value. *)
Definition zeroFeature : LocationFeature :=
  {| Feature_ID := primitive.NilObjectID;
     Feature_Type := "";
     Feature_Properties := {| Properties_Name := ""; Properties_Description := "" |};
     Feature_Geometry := {| Geometry_Type := ""; Geometry_Coordinates := None |} |}.

(** [feature.Type = t] *)
Definition set_Type (t : string) (f : LocationFeature) : LocationFeature :=
  {| Feature_ID := Feature_ID f;
     Feature_Type := t;
     Feature_Properties := Feature_Properties f;
     Feature_Geometry := Feature_Geometry f |}.

(** ** Decoding a request body into a LocationFeature

    [json.NewDecoder(r.Body).Decode(&feature)] reads the first JSON
    value of the body and stores it into the struct: members are matched
    to fields by the json tags, unknown members are skipped, null leaves
    a field as it is, and a value of the wrong kind is an error. *)

Inductive RequestBody : Type :=
| Unreadable                       (* no first value: empty or malformed *)
| FirstValue (v : json.Value).

Section Decoding.

Definition storeString (v : json.Value) (cur : string) : error + string :=
  match json.strip v with
  | json.Null => inr cur
  | json.Str s => inr s
  | _ => inl ErrUnmarshal
  end.

Definition storeFloat64 (v : json.Value) (cur : float64) : error + float64 :=
  match json.strip v with
  | json.Null => inr cur
  | json.Number f =>
      if PrimFloat.is_finite f then inr f else inl ErrUnmarshal
  | _ => inl ErrUnmarshal
  end.

(** Element i of the array goes into element i of the slice.  [mem] is
    the slice's backing array from its first element on: the elements
    the slice shows and, behind them, those that an earlier, longer
    array left there (a shorter array only cuts the length, growing
    copies the array and adds zeros).  So a null element keeps what is
    at its place, shown or not, and finds zero beyond the backing
    array.  The result is the new elements and the backing array behind
    them. *)
Fixpoint storeElems (elems : list json.Value) (mem : list float64)
  : error + (list float64 * list float64) :=
  match elems with
  | [] => inr ([], mem)
  | v :: elems' =>
      x ← storeFloat64 v (List.hd PrimFloat.zero mem);
      '(xs, behind) ← storeElems elems' (List.tl mem);
      inr (x :: xs, behind)
  end.

(** A slice and what its backing array holds behind it.  null makes the
    slice nil and [] makes a new empty one; both drop the array. *)
Definition storeFloat64s (v : json.Value) (cur : slice float64)
    (behind : list float64) : error + (slice float64 * list float64) :=
  match json.strip v with
  | json.Null => inr (None, [])
  | json.Array [] => inr (Some [], [])
  | json.Array elems =>
      '(xs, behind') ← storeElems elems (default [] cur ++ behind);
      inr (Some xs, behind')
  | _ => inl ErrUnmarshal
  end.

Fixpoint storePropertiesMembers (ms : list (string * json.Value))
    (cur : Properties) : error + Properties :=
  match ms with
  | [] => inr cur
  | (k, v) :: ms' =>
      let name := json.foldName k in
      if String.eqb name "name" then
        s ← storeString v (Properties_Name cur);
        storePropertiesMembers ms'
          {| Properties_Name := s;
             Properties_Description := Properties_Description cur |}
      else if String.eqb name "description" then
        s ← storeString v (Properties_Description cur);
        storePropertiesMembers ms'
          {| Properties_Name := Properties_Name cur;
             Properties_Description := s |}
      else storePropertiesMembers ms' cur
  end.

Definition storeProperties (v : json.Value) (cur : Properties)
  : error + Properties :=
  match json.strip v with
  | json.Null => inr cur
  | json.Object ms => storePropertiesMembers ms cur
  | _ => inl ErrUnmarshal
  end.

(** The Geometry struct is decoded in place, so its Coordinates keep
    their backing array from one member to the next; [behind] is what
    that array holds behind the slice. *)
Fixpoint storeGeometryMembers (ms : list (string * json.Value))
    (cur : Geometry) (behind : list float64)
  : error + (Geometry * list float64) :=
  match ms with
  | [] => inr (cur, behind)
  | (k, v) :: ms' =>
      let name := json.foldName k in
      if String.eqb name "type" then
        s ← storeString v (Geometry_Type cur);
        storeGeometryMembers ms'
          {| Geometry_Type := s;
             Geometry_Coordinates := Geometry_Coordinates cur |} behind
      else if String.eqb name "coordinates" then
        '(c, behind') ← storeFloat64s v (Geometry_Coordinates cur) behind;
        storeGeometryMembers ms'
          {| Geometry_Type := Geometry_Type cur;
             Geometry_Coordinates := c |} behind'
      else storeGeometryMembers ms' cur behind
  end.

Definition storeGeometry (v : json.Value) (cur : Geometry)
    (behind : list float64) : error + (Geometry * list float64) :=
  match json.strip v with
  | json.Null => inr (cur, behind)
  | json.Object ms => storeGeometryMembers ms cur behind
  | _ => inl ErrUnmarshal
  end.

Fixpoint storeFeatureMembers (ms : list (string * json.Value))
    (cur : LocationFeature) (behind : list float64)
  : error + (LocationFeature * list float64) :=
  match ms with
  | [] => inr (cur, behind)
  | (k, v) :: ms' =>
      let name := json.foldName k in
      if String.eqb name "id" then
        id ← primitive.UnmarshalJSON v (Feature_ID cur);
        storeFeatureMembers ms'
          {| Feature_ID := id;
             Feature_Type := Feature_Type cur;
             Feature_Properties := Feature_Properties cur;
             Feature_Geometry := Feature_Geometry cur |} behind
      else if String.eqb name "type" then
        s ← storeString v (Feature_Type cur);
        storeFeatureMembers ms' (set_Type s cur) behind
      else if String.eqb name "properties" then
        p ← storeProperties v (Feature_Properties cur);
        storeFeatureMembers ms'
          {| Feature_ID := Feature_ID cur;
             Feature_Type := Feature_Type cur;
             Feature_Properties := p;
             Feature_Geometry := Feature_Geometry cur |} behind
      else if String.eqb name "geometry" then
        '(g, behind') ← storeGeometry v (Feature_Geometry cur) behind;
        storeFeatureMembers ms'
          {| Feature_ID := Feature_ID cur;
             Feature_Type := Feature_Type cur;
             Feature_Properties := Feature_Properties cur;
             Feature_Geometry := g |} behind'
      else storeFeatureMembers ms' cur behind
  end.

Definition storeFeature (v : json.Value) (cur : LocationFeature)
    (behind : list float64) : error + (LocationFeature * list float64) :=
  match json.strip v with
  | json.Null => inr (cur, behind)
  | json.Object ms => storeFeatureMembers ms cur behind
  | _ => inl ErrUnmarshal
  end.

(** [json.NewDecoder(body).Decode(&feature)]; the handlers pass a
    feature just declared, whose Coordinates have no backing array. *)
Definition Decode (body : RequestBody) (feature : LocationFeature)
  : error + LocationFeature :=
  match body with
  | Unreadable => inl ErrSyntax
  | FirstValue v => '(f, _) ← storeFeature v feature []; inr f
  end.

End Decoding.

(** ** Encoding the response values

    [json.NewEncoder(w).Encode(v)] marshals by the json tags; a float
    that is NaN or an infinity makes it fail, a nil slice becomes null
    and an empty one []. *)

Section Encoding.

Definition encodeFloat64 (f : float64) : error + json.Value :=
  if PrimFloat.is_finite f then inr (json.Number f)
  else inl ErrUnsupportedValue.

Fixpoint encodeFloat64Elems (l : list float64) : error + list json.Value :=
  match l with
  | [] => inr []
  | f :: l' =>
      v ← encodeFloat64 f; vs ← encodeFloat64Elems l'; inr (v :: vs)
  end.

Definition encodeFloat64s (s : slice float64) : error + json.Value :=
  match s with
  | None => inr json.Null
  | Some l => vs ← encodeFloat64Elems l; inr (json.Array vs)
  end.

Definition encodeProperties (p : Properties) : json.Value :=
  json.Object [("name", json.Str (Properties_Name p));
               ("description", json.Str (Properties_Description p))].

Definition encodeGeometry (g : Geometry) : error + json.Value :=
  c ← encodeFloat64s (Geometry_Coordinates g);
  inr (json.Object [("type", json.Str (Geometry_Type g));
                    ("coordinates", c)]).

Definition encodeFeature (f : LocationFeature) : error + json.Value :=
  g ← encodeGeometry (Feature_Geometry f);
  inr (json.Object [("id", primitive.MarshalJSON (Feature_ID f));
                    ("type", json.Str (Feature_Type f));
                    ("properties", encodeProperties (Feature_Properties f));
                    ("geometry", g)]).

Fixpoint encodeFeatureElems (l : list LocationFeature)
  : error + list json.Value :=
  match l with
  | [] => inr []
  | f :: l' =>
      v ← encodeFeature f; vs ← encodeFeatureElems l'; inr (v :: vs)
  end.

Definition encodeFeatures (s : slice LocationFeature) : error + json.Value :=
  match s with
  | None => inr json.Null
  | Some l => vs ← encodeFeatureElems l; inr (json.Array vs)
  end.

Definition encodeFeatureCollection (c : FeatureCollection)
  : error + json.Value :=
  fs ← encodeFeatures (Collection_Features c);
  inr (json.Object [("type", json.Str (Collection_Type c));
                    ("features", fs)]).

(** [map[string]string{key: value}] *)
Definition encodeStringMap1 (key value : string) : error + json.Value :=
  inr (json.Object [(key, json.Str value)]).

End Encoding.

(** ** net/http: requests, the ResponseWriter and http.Error *)

Module http.

Definition StatusOK : nat := 200.
Definition StatusBadRequest : nat := 400.
Definition StatusNotFound : nat := 404.
Definition StatusInternalServerError : nat := 500.

(** A Go string handed to the response: a literal of the program, or the
    text of an error value. *)
Inductive text : Type :=
| Lit (s : string)
| ErrorString (e : error).          (* err.Error() *)

(** What one write puts into the body; each is followed by a newline. *)
Inductive Line : Type :=
| Println (t : text)                (* fmt.Fprintln(w, t) *)
| Encoded (v : json.Value).         (* Encoder.Encode: the JSON text of v *)

(** The ResponseWriter: the header map the handler edits, the status
    line once it has been written (with the header as it was then; later
    edits are not sent) and the body written so far. *)
Record ResponseWriter : Type := {
  Header : gmap string string;
  wroteHeader : option (nat * gmap string string);
  written : list Line;
}.

Definition NewResponseWriter : ResponseWriter :=
  {| Header := ∅; wroteHeader := None; written := [] |}.

(** [w.Header().Set(key, value)]; every key used is in canonical form. *)
Definition Header_Set (key value : string) (w : ResponseWriter) : ResponseWriter :=
  {| Header := <[key := value]> (Header w);
     wroteHeader := wroteHeader w;
     written := written w |}.

(** [w.Header().Del(key)] *)
Definition Header_Del (key : string) (w : ResponseWriter) : ResponseWriter :=
  {| Header := delete key (Header w);
     wroteHeader := wroteHeader w;
     written := written w |}.

(** [w.WriteHeader(code)]; a second call is ignored. *)
Definition WriteHeader (code : nat) (w : ResponseWriter) : ResponseWriter :=
  match wroteHeader w with
  | Some _ => w
  | None =>
      {| Header := Header w;
         wroteHeader := Some (code, Header w);
         written := written w |}
  end.

(** [w.Write]: writes the status line with 200 first when none was
    written.  (No Content-Type is guessed here: every write of these
    handlers happens with the header already set.) *)
Definition Write (l : Line) (w : ResponseWriter) : ResponseWriter :=
  let w := WriteHeader StatusOK w in
  {| Header := Header w;
     wroteHeader := wroteHeader w;
     written := written w ++ [l] |}.

(** [http.Error(w, error, code)] *)
Definition Error (w : ResponseWriter) (error : text) (code : nat) : ResponseWriter :=
  let w := Header_Del "Content-Length" w in
  let w := Header_Set "Content-Type" "text/plain; charset=utf-8" w in
  let w := Header_Set "X-Content-Type-Options" "nosniff" w in
  let w := WriteHeader code w in
  Write (Println error) w.

(** [json.NewEncoder(w).Encode(v)]: nothing is written when marshalling
    fails; the handlers drop the error Encode returns. *)
Definition Encode (w : ResponseWriter) (v : error + json.Value) : ResponseWriter :=
  match v with
  | inr j => Write (Encoded j) w
  | inl _ => w
  end.

(** What the client receives once the handler has returned. *)
Record Response : Type := {
  StatusCode : nat;
  ResponseHeader : gmap string string;
  ResponseBody : list Line;
}.

Definition response (w : ResponseWriter) : Response :=
  match wroteHeader w with
  | Some (code, h) =>
      {| StatusCode := code; ResponseHeader := h; ResponseBody := written w |}
  | None =>
      {| StatusCode := StatusOK; ResponseHeader := Header w; ResponseBody := written w |}
  end.

(** The request, as far as the handlers look at it. *)
Record Request : Type := {
  Method : string;
  Vars : gmap string string;       (* mux.Vars(r) *)
  Body : RequestBody;
}.

End http.

(** ** BSON values and documents *)

Module bson.

Inductive Value : Type :=
| Null
| Str (s : string)
| Double (f : float64)
| OID (id : primitive.ObjectID)
| Array (elems : list Value)
| Doc (elems : list (string * Value)).

(** A document: its elements in order. *)
Abbreviation D := (list (string * Value)).

(** bson.M: map[string]interface{} *)
Abbreviation M := (gmap string Value).

Fixpoint lookup (key : string) (d : D) : option Value :=
  match d with
  | [] => None
  | (k, v) :: d' => if String.eqb k key then Some v else lookup key d'
  end.

Fixpoint eqb (a b : Value) {struct a} : bool :=
  match a, b with
  | Null, Null => true
  | Str s, Str t => String.eqb s t
  | Double f, Double g => PrimFloat.eqb f g
  | OID i, OID j => N.eqb i j
  | Array l, Array m =>
      (fix all2 (l m : list Value) {struct l} : bool :=
         match l, m with
         | [], [] => true
         | x :: l', y :: m' => eqb x y && all2 l' m'
         | _, _ => false
         end) l m
  | Doc l, Doc m =>
      (fix all2 (l m : list (string * Value)) {struct l} : bool :=
         match l, m with
         | [], [] => true
         | (k, x) :: l', (k', y) :: m' => String.eqb k k' && eqb x y && all2 l' m'
         | _, _ => false
         end) l m
  | _, _ => false
  end.

(** Marshalling by the bson tags; a nil slice is stored as null, and
    [omitempty] drops a zero ObjectID. *)
Definition marshalProperties (p : Properties) : Value :=
  Doc [("name", Str (Properties_Name p));
       ("description", Str (Properties_Description p))].

Definition marshalFloat64s (s : slice float64) : Value :=
  match s with
  | None => Null
  | Some l => Array (map Double l)
  end.

Definition marshalGeometry (g : Geometry) : Value :=
  Doc [("type", Str (Geometry_Type g));
       ("coordinates", marshalFloat64s (Geometry_Coordinates g))].

Definition marshalFeature (f : LocationFeature) : D :=
  (if primitive.IsZero (Feature_ID f) then [] else [("_id", OID (Feature_ID f))])
  ++ [("type", Str (Feature_Type f));
      ("properties", marshalProperties (Feature_Properties f));
      ("geometry", marshalGeometry (Feature_Geometry f))].

End bson.

(** ** The MongoDB driver: the collection's operations *)

Module mongo.

(** [context.WithTimeout(context.Background(), n*time.Second)] *)
Record Context : Type := { Timeout : nat }.

Definition WithTimeout (seconds : nat) : Context := {| Timeout := seconds |}.

(** InsertedID is declared interface{}; for a LocationFeature it always
    holds a primitive.ObjectID: the struct's own _id or a generated one. *)
Record InsertOneResult : Type := { InsertedID : primitive.ObjectID }.

Record UpdateResult : Type := {
  MatchedCount : Z;
  ModifiedCount : Z;
  UpsertedCount : Z;
}.

Record DeleteResult : Type := { DeletedCount : Z }.

(** A cursor over the documents a query selected. *)
Definition Cursor : Type := list bson.D.

(** The calls the handlers make on [collection] and on a cursor, each
    with the type of what it returns. *)
Inductive Op : Type -> Type :=
| InsertOne (ctx : Context) (document : LocationFeature)
    : Op (error + InsertOneResult)
| Find (ctx : Context) (filter : bson.M)
    : Op (error + Cursor)
| All (cursor : Cursor) (ctx : Context) (results : slice LocationFeature)
    : Op (error + slice LocationFeature)
| Close (cursor : Cursor) (ctx : Context)
    : Op unit
| UpdateOne (ctx : Context) (filter : bson.M) (update : gmap string bson.M)
    : Op (error + UpdateResult)
| DeleteOne (ctx : Context) (filter : bson.M)
    : Op (error + DeleteResult).

(** InsertOneResult has no json tags: one member named after the field. *)
Definition encodeInsertOneResult (r : InsertOneResult) : error + json.Value :=
  inr (json.Object [("InsertedID", primitive.MarshalJSON (InsertedID r))]).

End mongo.

(** ** Handler programs

    A handler either is done, or calls the collection and goes on with
    what the call returned. *)

Inductive IO (A : Type) : Type :=
| Return (a : A)
| Call {R : Type} (op : mongo.Op R) (k : R -> IO A).

Arguments Return {A} a.
Arguments Call {A R} op k.

Fixpoint IO_bind {A B : Type} (f : A -> IO B) (m : IO A) : IO B :=
  match m with
  | Return a => f a
  | Call op k => Call op (fun r => IO_bind f (k r))
  end.

#[global] Instance IO_mbind : MBind IO := @IO_bind.
#[global] Instance IO_mret : MRet IO := @Return.

Definition call {R : Type} (op : mongo.Op R) : IO R := Call op Return.

(** The calls a handler makes, in order, when each call is answered by
    [answer]. *)
Definition Oracle : Type := forall R : Type, mongo.Op R -> R.

Inductive AnyOp : Type :=
| anyOp {R : Type} (op : mongo.Op R).

Fixpoint calls {A : Type} (answer : Oracle) (m : IO A) : list AnyOp :=
  match m with
  | Return _ => []
  | Call op k => anyOp op :: calls answer (k (answer _ op))
  end.

Fixpoint result {A : Type} (answer : Oracle) (m : IO A) : A :=
  match m with
  | Return a => a
  | Call op k => result answer (k (answer _ op))
  end.

Definition HandlerFunc : Type :=
  http.ResponseWriter -> http.Request -> IO http.ResponseWriter.

(** ** Package api *)

Module api.

Import http mongo.

(** corsMiddleware *)
Definition corsMiddleware (next : HandlerFunc) : HandlerFunc := fun w r =>
  let w := Header_Set "Access-Control-Allow-Origin" "*" w in
  let w := Header_Set "Access-Control-Allow-Methods" "GET, POST, PUT, DELETE, OPTIONS" w in
  let w := Header_Set "Access-Control-Allow-Headers" "Content-Type, Authorization, X-Requested-With" w in
  if String.eqb (Method r) "OPTIONS" then
    mret (WriteHeader StatusOK w)
  else
    next w r.

Definition createLocation : HandlerFunc := fun w r =>
  let w := Header_Set "Content-Type" "application/json" w in
  match Decode (Body r) zeroFeature with
  | inl err => mret (Error w (ErrorString err) StatusBadRequest)
  | inr feature =>
      let feature := set_Type "Feature" feature in
      let ctx := WithTimeout 5 in
      res ← call (InsertOne ctx feature);
      match res with
      | inl err => mret (Error w (ErrorString err) StatusInternalServerError)
      | inr result => mret (Encode w (encodeInsertOneResult result))
      end
  end.

Definition getLocations : HandlerFunc := fun w r =>
  let w := Header_Set "Content-Type" "application/json" w in
  let features : slice LocationFeature := None in
  let ctx := WithTimeout 10 in
  res ← call (Find ctx ∅);
  match res with
  | inl err => mret (Error w (ErrorString err) StatusInternalServerError)
  | inr cursor =>
      (* defer cursor.Close(ctx): runs when the function returns *)
      let features : slice LocationFeature := Some [] in   (* make([]LocationFeature, 0) *)
      res ← call (All cursor ctx features);
      let w :=
        match res with
        | inl err => Error w (ErrorString err) StatusInternalServerError
        | inr features =>
            let featureCollection :=
              {| Collection_Type := "FeatureCollection";
                 Collection_Features := features |} in
            Encode w (encodeFeatureCollection featureCollection)
        end in
      _ ← call (Close cursor ctx);
      mret w
  end.

Definition updateLocation : HandlerFunc := fun w r =>
  let w := Header_Set "Content-Type" "application/json" w in
  let params := Vars r in
  match primitive.ObjectIDFromHex (default "" (params !! "id")) with
  | inl _ => mret (Error w (Lit "Invalid ID format") StatusBadRequest)
  | inr id =>
      match Decode (Body r) zeroFeature with
      | inl err => mret (Error w (ErrorString err) StatusBadRequest)
      | inr feature =>
          let ctx := WithTimeout 5 in
          let update : gmap string bson.M :=
            {[ "$set" :=
                 {[ "properties" := bson.marshalProperties (Feature_Properties feature);
                    "geometry" := bson.marshalGeometry (Feature_Geometry feature) ]} ]} in
          res ← call (UpdateOne ctx {[ "_id" := bson.OID id ]} update);
          match res with
          | inl err => mret (Error w (ErrorString err) StatusInternalServerError)
          | inr _ => mret (Encode w (encodeFeature feature))
          end
      end
  end.

Definition deleteLocation : HandlerFunc := fun w r =>
  let w := Header_Set "Content-Type" "application/json" w in
  let params := Vars r in
  match primitive.ObjectIDFromHex (default "" (params !! "id")) with
  | inl _ => mret (Error w (Lit "Invalid ID format") StatusBadRequest)
  | inr id =>
      let ctx := WithTimeout 5 in
      res ← call (DeleteOne ctx {[ "_id" := bson.OID id ]});
      match res with
      | inl err => mret (Error w (ErrorString err) StatusInternalServerError)
      | inr result =>
          if Z.eqb (DeletedCount result) 0 then
            mret (Error w (Lit "Location not found") StatusNotFound)
          else
            mret (Encode w (encodeStringMap1 "message" "Location deleted successfully"))
      end
  end.

(** SetupRouter: the routes and the middleware it registers (after
    initDB, which has no part in what follows). *)
Record Route : Type := {
  Path : string;
  Handler : HandlerFunc;
  Methods : list string;
}.

Record Router : Type := {
  middlewares : list (HandlerFunc -> HandlerFunc);
  routes : list Route;
}.

Definition SetupRouter : Router :=
  {| middlewares := [corsMiddleware];
     routes :=
       [ {| Path := "/locations"; Handler := getLocations; Methods := ["GET"; "OPTIONS"] |};
         {| Path := "/locations"; Handler := createLocation; Methods := ["POST"; "OPTIONS"] |};
         {| Path := "/locations/{id}"; Handler := updateLocation; Methods := ["PUT"; "OPTIONS"] |};
         {| Path := "/locations/{id}"; Handler := deleteLocation; Methods := ["DELETE"; "OPTIONS"] |} ] |}.

(** What the router runs for a request it has matched to [route]: the
    route's handler inside the middlewares, the first one outermost. *)
Definition serve (router : Router) (route : Route) : HandlerFunc :=
  foldr (fun mw h => mw h) (Handler route) (middlewares router).

End api.

(** ** The stand-alone server program (package main)

    Its createLocation, updateLocation and deleteLocation are the same,
    statement for statement, as those of package api; its getLocations
    hands the nil slice to cursor.All. *)

Module standalone.

Import http mongo.

Definition createLocation : HandlerFunc := api.createLocation.
Definition updateLocation : HandlerFunc := api.updateLocation.
Definition deleteLocation : HandlerFunc := api.deleteLocation.

Definition getLocations : HandlerFunc := fun w r =>
  let w := Header_Set "Content-Type" "application/json" w in
  let features : slice LocationFeature := None in   (* var features []LocationFeature *)
  let ctx := WithTimeout 10 in
  res ← call (Find ctx ∅);
  match res with
  | inl err => mret (Error w (ErrorString err) StatusInternalServerError)
  | inr cursor =>
      (* defer cursor.Close(ctx) *)
      res ← call (All cursor ctx features);
      let w :=
        match res with
        | inl err => Error w (ErrorString err) StatusInternalServerError
        | inr features =>
            let featureCollection :=
              {| Collection_Type := "FeatureCollection";
                 Collection_Features := features |} in
            Encode w (encodeFeatureCollection featureCollection)
        end in
      _ ← call (Close cursor ctx);
      mret w
  end.

End standalone.

(** ** A collection held in memory

    The documents of gis_db.locations in their natural order, with the
    next identifier the driver will generate.  Operations here never fail
    for reasons outside the data (no timeouts, no connection loss): what
    a handler does with a failed call is stated on the handler program
    itself.  The collection carries no index: where the 2dsphere index
    that initDB asks for exists, the server also refuses a geometry it
    cannot index, and that refusal is among the failures not modelled
    here. *)

Module memdb.

Import mongo.

Record Collection : Type := {
  docs : list bson.D;
  nextID : primitive.ObjectID;
}.

(** A filter document selects the documents that carry each of its
    fields with an equal value. *)
Definition matches (filter : bson.M) (d : bson.D) : bool :=
  map_fold
    (fun k v acc =>
       acc && match bson.lookup k d with
              | Some v' => bson.eqb v' v
              | None => false
              end)
    true filter.

(** [$set]: each named field gets the given value, in place when the
    document has the field and at the end otherwise.  (Names are taken
    literally; the handlers use no dotted paths.) *)
Fixpoint replaceFields (sets : bson.M) (d : bson.D) : bson.D :=
  match d with
  | [] => []
  | (k, v) :: d' => (k, default v (sets !! k)) :: replaceFields sets d'
  end.

Definition hasField (d : bson.D) (k : string) : bool :=
  match bson.lookup k d with Some _ => true | None => false end.

Definition applySet (sets : bson.M) (d : bson.D) : bson.D :=
  replaceFields sets d
  ++ map_to_list (filter (fun kv => hasField d kv.1 = false) sets).

(** The first matching document is updated. *)
Fixpoint updateFirst (filter sets : bson.M) (ds : list bson.D)
  : option (list bson.D * bool) :=
  match ds with
  | [] => None
  | d :: ds' =>
      if matches filter d then
        let d' := applySet sets d in
        Some (d' :: ds', negb (bson.eqb (bson.Doc d) (bson.Doc d')))
      else
        match updateFirst filter sets ds' with
        | Some (ds'', changed) => Some (d :: ds'', changed)
        | None => None
        end
  end.

(** The first matching document is removed. *)
Fixpoint deleteFirst (filter : bson.M) (ds : list bson.D) : option (list bson.D) :=
  match ds with
  | [] => None
  | d :: ds' =>
      if matches filter d then Some ds'
      else
        match deleteFirst filter ds' with
        | Some ds'' => Some (d :: ds'')
        | None => None
        end
  end.

(** Decoding a stored document by the bson tags.  A field takes a value
    of its own BSON type; an absent field and a null give the zero
    value.  The conversions the driver's codecs also know (an ObjectID
    read into a string, a string into an ObjectID) are not followed:
    the handlers never store such a document, and one that needs them
    counts here as a decoding error. *)
Definition decodeError : error := ErrStore "error decoding key".

Definition unmarshalObjectID (v : option bson.Value) : error + primitive.ObjectID :=
  match v with
  | None | Some bson.Null => inr primitive.NilObjectID
  | Some (bson.OID id) => inr id
  | Some _ => inl decodeError
  end.

Definition unmarshalString (v : option bson.Value) : error + string :=
  match v with
  | None | Some bson.Null => inr ""
  | Some (bson.Str s) => inr s
  | Some _ => inl decodeError
  end.

Fixpoint unmarshalDoubles (l : list bson.Value) : error + list float64 :=
  match l with
  | [] => inr []
  | bson.Double f :: l' => fs ← unmarshalDoubles l'; inr (f :: fs)
  | bson.Null :: l' => fs ← unmarshalDoubles l'; inr (PrimFloat.zero :: fs)
  | _ :: _ => inl decodeError
  end.

Definition unmarshalFloat64s (v : option bson.Value) : error + slice float64 :=
  match v with
  | None | Some bson.Null => inr None
  | Some (bson.Array l) => fs ← unmarshalDoubles l; inr (Some fs)
  | Some _ => inl decodeError
  end.

Definition unmarshalProperties (v : option bson.Value) : error + Properties :=
  match v with
  | None | Some bson.Null => inr (Feature_Properties zeroFeature)
  | Some (bson.Doc d) =>
      n ← unmarshalString (bson.lookup "name" d);
      s ← unmarshalString (bson.lookup "description" d);
      inr {| Properties_Name := n; Properties_Description := s |}
  | Some _ => inl decodeError
  end.

Definition unmarshalGeometry (v : option bson.Value) : error + Geometry :=
  match v with
  | None | Some bson.Null => inr (Feature_Geometry zeroFeature)
  | Some (bson.Doc d) =>
      t ← unmarshalString (bson.lookup "type" d);
      c ← unmarshalFloat64s (bson.lookup "coordinates" d);
      inr {| Geometry_Type := t; Geometry_Coordinates := c |}
  | Some _ => inl decodeError
  end.

Definition unmarshalFeature (d : bson.D) : error + LocationFeature :=
  id ← unmarshalObjectID (bson.lookup "_id" d);
  t ← unmarshalString (bson.lookup "type" d);
  p ← unmarshalProperties (bson.lookup "properties" d);
  g ← unmarshalGeometry (bson.lookup "geometry" d);
  inr {| Feature_ID := id; Feature_Type := t;
         Feature_Properties := p; Feature_Geometry := g |}.

Fixpoint unmarshalAll (ds : list bson.D) : error + list LocationFeature :=
  match ds with
  | [] => inr []
  | d :: ds' => f ← unmarshalFeature d; fs ← unmarshalAll ds'; inr (f :: fs)
  end.

(** cursor.All(ctx, &results): the decoded documents overwrite the slice
    from its first position, and the slice is cut to their number; so
    with no document a nil slice stays nil and a non-nil one becomes
    empty. *)
Definition allInto (results : slice LocationFeature) (decoded : list LocationFeature)
  : slice LocationFeature :=
  match decoded with
  | [] => match results with None => None | Some _ => Some [] end
  | _ :: _ => Some decoded
  end.

Definition duplicateKey : error := ErrStore "E11000 duplicate key error".
Definition noOperator : error := ErrStore "update document must contain key beginning with '$'".

(** InsertOne: a document without _id gets the next generated one in
    front; an _id that is already stored is refused. *)
Definition insertOne (document : LocationFeature) (c : Collection)
  : (error + InsertOneResult) * Collection :=
  let d := bson.marshalFeature document in
  let '(id, d, next) :=
    match bson.lookup "_id" d with
    | Some _ => (Feature_ID document, d, nextID c)
    | None => (nextID c, ("_id", bson.OID (nextID c)) :: d, N.succ (nextID c))
    end in
  if existsb (matches {[ "_id" := bson.OID id ]}) (docs c) then
    (inl duplicateKey, {| docs := docs c; nextID := next |})
  else
    (inr {| InsertedID := id |}, {| docs := docs c ++ [d]; nextID := next |}).

(** UpdateOne; of the update operators only $set is interpreted. *)
Definition updateOne (filter : bson.M) (update : gmap string bson.M) (c : Collection)
  : (error + UpdateResult) * Collection :=
  match update !! "$set" with
  | None => (inl noOperator, c)
  | Some sets =>
      match updateFirst filter sets (docs c) with
      | None =>
          (inr {| MatchedCount := 0; ModifiedCount := 0; UpsertedCount := 0 |}, c)
      | Some (ds, changed) =>
          (inr {| MatchedCount := 1;
                  ModifiedCount := if changed then 1 else 0;
                  UpsertedCount := 0 |},
           {| docs := ds; nextID := nextID c |})
      end
  end%Z.

Definition deleteOne (filter : bson.M) (c : Collection)
  : (error + DeleteResult) * Collection :=
  match deleteFirst filter (docs c) with
  | None => (inr {| DeletedCount := 0 |}, c)
  | Some ds => (inr {| DeletedCount := 1 |}, {| docs := ds; nextID := nextID c |})
  end%Z.

Definition exec {R : Type} (op : Op R) (c : Collection) : R * Collection :=
  match op in Op R return R * Collection with
  | InsertOne _ document => insertOne document c
  | Find _ filter => (inr (List.filter (matches filter) (docs c)), c)
  | All cursor _ results =>
      (match unmarshalAll cursor with
       | inl e => inl e
       | inr decoded => inr (allInto results decoded)
       end, c)
  | Close _ _ => (tt, c)
  | UpdateOne _ filter update => updateOne filter update c
  | DeleteOne _ filter => deleteOne filter c
  end.

(** Running a handler program against the collection. *)
Fixpoint run {A : Type} (m : IO A) (c : Collection) : A * Collection :=
  match m with
  | Return a => (a, c)
  | Call op k => let '(r, c') := exec op c in run (k r) c'
  end.

(** One request served by a handler on a fresh ResponseWriter. *)
Definition handle (h : HandlerFunc) (r : http.Request) (c : Collection)
  : http.Response * Collection :=
  let '(w, c') := run (h http.NewResponseWriter r) c in
  (http.response w, c').

(** The identifier a stored document carries. *)
Definition idOf (d : bson.D) : option bson.Value := bson.lookup "_id" d.

End memdb.

(** * Vocabulary of the statements *)

Import http mongo memdb.

Local Open Scope list_scope.

(** No two stored documents carry the same _id. *)
Definition uniqueIDs (ds : list bson.D) : Prop := NoDup (idOf <$> ds).

Definition finite (x : float64) : Prop := PrimFloat.is_finite x = true.

Definition finiteCoordinates (g : Geometry) : Prop :=
  match Geometry_Coordinates g with
  | None => True
  | Some l => Forall finite l
  end.

(** The JSON text of a feature whose coordinates are finite. *)
Definition jsonCoordinates (s : slice float64) : json.Value :=
  match s with
  | None => json.Null
  | Some l => json.Array (map json.Number l)
  end.

Definition jsonFeature (f : LocationFeature) : json.Value :=
  json.Object
    [("id", json.Str (primitive.Hex (Feature_ID f)));
     ("type", json.Str (Feature_Type f));
     ("properties",
      json.Object [("name", json.Str (Properties_Name (Feature_Properties f)));
                   ("description", json.Str (Properties_Description (Feature_Properties f)))]);
     ("geometry",
      json.Object [("type", json.Str (Geometry_Type (Feature_Geometry f)));
                   ("coordinates", jsonCoordinates (Geometry_Coordinates (Feature_Geometry f)))])].

(** The values a JSON object gives for one field: those of the members
    whose name folds to the field's name. *)
Definition named (name : string) (ms : list (string * json.Value)) : list json.Value :=
  (List.filter (fun kv => String.eqb (json.foldName kv.1) name) ms).*2.

(** The writer after [w.Header().Set("Content-Type", "application/json")]. *)
Definition jsonWriter (w : ResponseWriter) : ResponseWriter :=
  Header_Set "Content-Type" "application/json" w.

(** The path variable the handlers parse. *)
Definition idParam (r : Request) : string := default "" (Vars r !! "id").

(** The $set document updateLocation builds. *)
Definition setOf (feature : LocationFeature) : bson.M :=
  {[ "properties" := bson.marshalProperties (Feature_Properties feature);
     "geometry" := bson.marshalGeometry (Feature_Geometry feature) ]}.

(** The document InsertOne stores for a struct, under identifier [id]. *)
Definition storedDocument (id : primitive.ObjectID) (document : LocationFeature) : bson.D :=
  [("_id", bson.OID id);
   ("type", bson.Str (Feature_Type document));
   ("properties", bson.marshalProperties (Feature_Properties document));
   ("geometry", bson.marshalGeometry (Feature_Geometry document))].

(** The identifier it is stored under: the struct's own unless that is
    the zero identifier, in which case one is generated. *)
Definition assignedID (document : LocationFeature) (c : Collection) : primitive.ObjectID :=
  if primitive.IsZero (Feature_ID document) then nextID c else Feature_ID document.

(** The structs handed to InsertOne among a handler's calls. *)
Definition inserted (ops : list AnyOp) : list LocationFeature :=
  omap (fun o =>
          match o with
          | anyOp (InsertOne _ document) => Some document
          | anyOp _ => None
          end) ops.

(** Answering every call as the in-memory collection [c] would. *)
Definition answerOf (c : Collection) : Oracle := fun R op => (exec op c).1.

(** The body List sends for a feature collection without features. *)
Definition emptyFeatureCollection (features : json.Value) : json.Value :=
  json.Object [("type", json.Str "FeatureCollection"); ("features", features)].

(** The headers of a 200 response and of an http.Error response of the
    resource handlers. *)
Definition jsonHeader : gmap string string :=
  {[ "Content-Type" := "application/json" ]}.

Definition errorHeader : gmap string string :=
  <["X-Content-Type-Options" := "nosniff"]>
    (<["Content-Type" := "text/plain; charset=utf-8"]>
       (delete "Content-Length" jsonHeader)).

(** {"message":"Location deleted successfully"} *)
Definition deletedMessage : json.Value :=
  json.Object [("message", json.Str "Location deleted successfully")].

(** The three CORS headers. *)
Definition corsHeader : gmap string string :=
  {[ "Access-Control-Allow-Origin" := "*";
     "Access-Control-Allow-Methods" := "GET, POST, PUT, DELETE, OPTIONS";
     "Access-Control-Allow-Headers" := "Content-Type, Authorization, X-Requested-With" ]}.

(** The Content-Type a response of a resource handler carries: that of
    JSON with status 200, that of http.Error otherwise. *)
Definition contentTypeByStatus (resp : Response) : Prop :=
  ResponseHeader resp !! "Content-Type"
  = if Nat.eqb (StatusCode resp) 200 then Some "application/json"
    else Some "text/plain; charset=utf-8".

(** A stored document keeps its identifier and its type. *)
Definition keepsIdAndType (d d' : bson.D) : Prop :=
  bson.lookup "_id" d' = bson.lookup "_id" d
  /\ bson.lookup "type" d' = bson.lookup "type" d.

(** ** Sample requests and collections *)

Definition sampleHex : string := "507f1f77bcf86cd799439011".

Definition sampleID : primitive.ObjectID := 24912482966938930280208240657.

Definition sampleProperties : json.Value :=
  json.Object [("name", json.Str "A"); ("description", json.Str "d")].

Definition sampleGeometry : json.Value :=
  json.Object [("type", json.Str "Point");
               ("coordinates",
                json.Array [json.Number PrimFloat.one; json.Number PrimFloat.two])].

(** {"id": "507f1f77bcf86cd799439011", "type": "Bogus", "properties":
    {"name": "A", "description": "d"}, "geometry": {"type": "Point",
    "coordinates": [1, 2]}} *)
Definition bodyWithID : RequestBody :=
  FirstValue (json.Object [("id", json.Str sampleHex); ("type", json.Str "Bogus");
                           ("properties", sampleProperties);
                           ("geometry", sampleGeometry)]).

(** The same body without the "id" member. *)
Definition bodyWithoutID : RequestBody :=
  FirstValue (json.Object [("type", json.Str "Bogus");
                           ("properties", sampleProperties);
                           ("geometry", sampleGeometry)]).

Definition sampleFeature (id : primitive.ObjectID) : LocationFeature :=
  {| Feature_ID := id;
     Feature_Type := "Bogus";
     Feature_Properties := {| Properties_Name := "A"; Properties_Description := "d" |};
     Feature_Geometry :=
       {| Geometry_Type := "Point";
          Geometry_Coordinates := Some [PrimFloat.one; PrimFloat.two] |} |}.

Definition postWithID : Request :=
  {| Method := "POST"; Vars := ∅; Body := bodyWithID |}.

Definition postWithoutID : Request :=
  {| Method := "POST"; Vars := ∅; Body := bodyWithoutID |}.

Definition postGarbage : Request :=
  {| Method := "POST"; Vars := ∅; Body := Unreadable |}.

Definition putSample : Request :=
  {| Method := "PUT"; Vars := {[ "id" := sampleHex ]}; Body := bodyWithoutID |}.

Definition putGarbage : Request :=
  {| Method := "PUT"; Vars := {[ "id" := sampleHex ]}; Body := Unreadable |}.

Definition deleteSample : Request :=
  {| Method := "DELETE"; Vars := {[ "id" := sampleHex ]}; Body := Unreadable |}.

Definition deleteBadID : Request :=
  {| Method := "DELETE"; Vars := {[ "id" := "42" ]}; Body := Unreadable |}.

Definition getAll : Request :=
  {| Method := "GET"; Vars := ∅; Body := Unreadable |}.

Definition optionsLocations : Request :=
  {| Method := "OPTIONS"; Vars := ∅; Body := Unreadable |}.

Definition emptyCollection : Collection := {| docs := []; nextID := 1 |}.

(** A collection holding the sample feature under the sample identifier. *)
Definition oneDocument : Collection :=
  {| docs := [storedDocument sampleID (set_Type "Feature" (sampleFeature sampleID))];
     nextID := 1 |}.

(** A body with other properties and coordinates than the sample's:
    {"type": "Renamed", "properties": {"name": "B", "description":
    "moved"}, "geometry": {"type": "Point", "coordinates": [2, 1]}} *)
Definition bodyMoved : RequestBody :=
  FirstValue
    (json.Object
       [("type", json.Str "Renamed");
        ("properties",
         json.Object [("name", json.Str "B"); ("description", json.Str "moved")]);
        ("geometry",
         json.Object [("type", json.Str "Point");
                      ("coordinates",
                       json.Array [json.Number PrimFloat.two;
                                   json.Number PrimFloat.one])])]).

Definition movedFeature (id : primitive.ObjectID) : LocationFeature :=
  {| Feature_ID := id;
     Feature_Type := "Renamed";
     Feature_Properties := {| Properties_Name := "B"; Properties_Description := "moved" |};
     Feature_Geometry :=
       {| Geometry_Type := "Point";
          Geometry_Coordinates := Some [PrimFloat.two; PrimFloat.one] |} |}.

Definition putMoved : Request :=
  {| Method := "PUT"; Vars := {[ "id" := sampleHex ]}; Body := bodyMoved |}.

Definition otherFeature : LocationFeature :=
  {| Feature_ID := 7;
     Feature_Type := "Feature";
     Feature_Properties := {| Properties_Name := "C"; Properties_Description := "c" |};
     Feature_Geometry :=
       {| Geometry_Type := "Point";
          Geometry_Coordinates := Some [PrimFloat.one; PrimFloat.one] |} |}.

(** Another feature first, the sample feature second. *)
Definition twoDocuments : Collection :=
  {| docs := [storedDocument 7 otherFeature;
              storedDocument sampleID (set_Type "Feature" (sampleFeature sampleID))];
     nextID := 1 |}.

(** A document some other writer stored, with nulls for its fields. *)
Definition nullDocument : bson.D :=
  [("_id", bson.OID 7); ("type", bson.Null);
   ("properties", bson.Null); ("geometry", bson.Null)].

Definition withNulls : Collection :=
  {| docs := [nullDocument;
              storedDocument sampleID (set_Type "Feature" (sampleFeature sampleID))];
     nextID := 1 |}.

(** {"id":"0123456789"}: with its quotes the identifier is written in
    twelve bytes. *)
Definition bodyTwelveBytes : RequestBody :=
  FirstValue (json.Object [("id", json.Str "0123456789")]).

Definition postTwelveBytes : Request :=
  {| Method := "POST"; Vars := ∅; Body := bodyTwelveBytes |}.

(** {"id":"\u0030123456789"}: the same string written with an escape,
    in seventeen bytes, sent for the sample identifier. *)
Definition putTenCharacters : Request :=
  {| Method := "PUT"; Vars := {[ "id" := sampleHex ]};
     Body :=
       FirstValue
         (json.Object
            [("id", json.Spelt (json.quoted "\u0030123456789")
                      (json.Str "0123456789"))]) |}.

(** {"geometry": {"coordinates": [1, 2], "coordinates": [1],
    "coordinates": [null, null]}} *)
Definition bodyRepeatedCoordinates : RequestBody :=
  FirstValue
    (json.Object
       [("geometry",
         json.Object
           [("coordinates",
             json.Array [json.Number PrimFloat.one; json.Number PrimFloat.two]);
            ("coordinates", json.Array [json.Number PrimFloat.one]);
            ("coordinates", json.Array [json.Null; json.Null])])]).

(** * Start-up: initDB

    The process-wide variables of package api and the one-time
    initialisation of the connection.  What initDB asks of its
    environment (the .env file, the process environment, the driver, the
    log) are the operations below; log.Fatal does not return. *)

Module startup.

(** What mongo.Connect returns; only which client it is matters. *)
Definition Client : Type := nat.

(** [client.Database(db).Collection(name)] *)
Record CollectionHandle : Type := {
  ofClient : Client;
  Database : string;
  Name : string;
}.

Inductive Op : Type -> Type :=
| GodotenvLoad : Op unit                          (* godotenv.Load(), result dropped *)
| Getenv (key : string) : Op string               (* os.Getenv *)
| LogFatal (v : list http.text) : Op Empty_set    (* log.Fatal: exits the process *)
| LogPrintln (v : list http.text) : Op unit
| Connect (ctx : mongo.Context) (uri : string) : Op (error + Client)
| IndexesCreateOne (coll : CollectionHandle) (ctx : mongo.Context) (keys : bson.M)
    : Op (error + string).

Inductive Proc (A : Type) : Type :=
| Done (a : A)
| Do {R : Type} (op : Op R) (k : R -> Proc A).

Arguments Done {A} a.
Arguments Do {A R} op k.

Fixpoint Proc_bind {A B : Type} (f : A -> Proc B) (m : Proc A) : Proc B :=
  match m with
  | Done a => f a
  | Do op k => Do op (fun r => Proc_bind f (k r))
  end.

#[global] Instance Proc_mbind : MBind Proc := @Proc_bind.
#[global] Instance Proc_mret : MRet Proc := @Done.

Definition do {R : Type} (op : Op R) : Proc R := Do op Done.

(** The package variables [collection] and [dbOnce]. *)
Record Globals : Type := {
  collection : option CollectionHandle;
  dbOnce : bool;                       (* sync.Once: has Do run its function *)
}.

(** Before any call: collection is nil, dbOnce is unused. *)
Definition zeroGlobals : Globals := {| collection := None; dbOnce := false |}.

(** [once.Do(f)]: f runs unless an earlier Do has run its function. *)
Definition Once_Do (f : Globals -> Proc Globals) (g : Globals) : Proc Globals :=
  if dbOnce g then mret g
  else
    g' ← f g;
    mret {| collection := collection g'; dbOnce := true |}.

Definition initDB : Globals -> Proc Globals :=
  Once_Do (fun g =>
    _ ← do GodotenvLoad;
    mongoURI ← do (Getenv "MONGO_URI");
    if String.eqb mongoURI "" then
      e ← do (LogFatal [http.Lit "❌ MONGO_URI environment variable tidak ditemukan. Silakan set di .env atau environment"]);
      match e : Empty_set with end
    else
      let ctx := mongo.WithTimeout 10 in
      res ← do (Connect ctx mongoURI);
      match res with
      | inl err =>
          e ← do (LogFatal [http.Lit "Gagal connect DB:"; http.ErrorString err]);
          match e : Empty_set with end
      | inr client =>
          let coll := {| ofClient := client; Database := "gis_db"; Name := "locations" |} in
          let g := {| collection := Some coll; dbOnce := dbOnce g |} in
          let indexModel : bson.M := {[ "geometry" := bson.Str "2dsphere" ]} in
          _ ← do (IndexesCreateOne coll ctx indexModel);
          _ ← do (LogPrintln [http.Lit "✅ Connected to MongoDB!"]);
          mret g
      end).

(** The environment of one run: what the process environment holds
    after godotenv.Load, and what the driver answers. *)
Record Env : Type := {
  environ : string -> string;
  connects : string -> error + Client;
  createsIndex : error + string;
}.

Definition answer (e : Env) {R : Type} (op : Op R) : option R :=
  match op in Op R return option R with
  | GodotenvLoad => Some tt
  | Getenv key => Some (environ e key)
  | LogFatal _ => None
  | LogPrintln _ => Some tt
  | Connect _ uri => Some (connects e uri)
  | IndexesCreateOne _ _ _ => Some (createsIndex e)
  end.

Inductive AnyOp : Type :=
| anyOp {R : Type} (op : Op R).

(** The operations performed, and the value returned unless the process
    exited. *)
Fixpoint exec {A : Type} (e : Env) (p : Proc A) : list AnyOp * option A :=
  match p with
  | Done a => ([], Some a)
  | Do op k =>
      match answer e op with
      | None => ([anyOp op], None)
      | Some r => let '(ops, a) := exec e (k r) in (anyOp op :: ops, a)
      end
  end.

(** Has the run tried to connect. *)
Definition connected (ops : list AnyOp) : bool :=
  existsb (fun o => match o with anyOp (Connect _ _) => true | anyOp _ => false end) ops.

End startup.

(** * Vocabulary of the further statements *)

(** [feature.ID = id] *)
Definition set_ID (id : primitive.ObjectID) (f : LocationFeature) : LocationFeature :=
  {| Feature_ID := id;
     Feature_Type := Feature_Type f;
     Feature_Properties := Feature_Properties f;
     Feature_Geometry := Feature_Geometry f |}.

(** A stored feature after an update with [new]: its properties and
    geometry are those of [new], the rest its own. *)
Definition updatedWith (new old : LocationFeature) : LocationFeature :=
  {| Feature_ID := Feature_ID old;
     Feature_Type := Feature_Type old;
     Feature_Properties := Feature_Properties new;
     Feature_Geometry := Feature_Geometry new |}.

(** The document decodes to the feature, is stored under the feature's
    identifier, and holds no NaN and no infinity. *)
Definition holds (d : bson.D) (f : LocationFeature) : Prop :=
  unmarshalFeature d = inr f
  /\ idOf d = Some (bson.OID (Feature_ID f))
  /\ finiteCoordinates (Feature_Geometry f).

(** The documents hold the features [fs], one each, in order. *)
Definition listable (ds : list bson.D) (fs : list LocationFeature) : Prop :=
  Forall2 holds ds fs.

(** The features after an update of the first one identified by [id]. *)
Fixpoint updateFirstFeature (id : primitive.ObjectID) (new : LocationFeature)
    (fs : list LocationFeature) : list LocationFeature :=
  match fs with
  | [] => []
  | f :: fs' =>
      if N.eqb (Feature_ID f) id then updatedWith new f :: fs'
      else f :: updateFirstFeature id new fs'
  end.

(** The features without the first one identified by [id]. *)
Fixpoint removeFirstFeature (id : primitive.ObjectID) (fs : list LocationFeature)
  : list LocationFeature :=
  match fs with
  | [] => []
  | f :: fs' =>
      if N.eqb (Feature_ID f) id then fs' else f :: removeFirstFeature id fs'
  end.

(** {"type":"FeatureCollection","features":[...]} for the features fs. *)
Definition listBody (fs : list LocationFeature) : json.Value :=
  emptyFeatureCollection (json.Array (map jsonFeature fs)).

(** {"InsertedID":"<hex>"} *)
Definition insertedBody (id : primitive.ObjectID) : json.Value :=
  json.Object [("InsertedID", json.Str (primitive.Hex id))].

(** The three CORS headers are among the headers. *)
Definition carriesCORS (h : gmap string string) : Prop :=
  h !! "Access-Control-Allow-Origin" = Some "*"
  /\ h !! "Access-Control-Allow-Methods" = Some "GET, POST, PUT, DELETE, OPTIONS"
  /\ h !! "Access-Control-Allow-Headers"
     = Some "Content-Type, Authorization, X-Requested-With".

(** The routes of SetupRouter, by handler. *)
Definition listRoute : api.Route :=
  {| api.Path := "/locations"; api.Handler := api.getLocations;
     api.Methods := ["GET"; "OPTIONS"] |}.

Definition createRoute : api.Route :=
  {| api.Path := "/locations"; api.Handler := api.createLocation;
     api.Methods := ["POST"; "OPTIONS"] |}.

Definition updateRoute : api.Route :=
  {| api.Path := "/locations/{id}"; api.Handler := api.updateLocation;
     api.Methods := ["PUT"; "OPTIONS"] |}.

Definition deleteRoute : api.Route :=
  {| api.Path := "/locations/{id}"; api.Handler := api.deleteLocation;
     api.Methods := ["DELETE"; "OPTIONS"] |}.

(** A request addressing identifier [id]. *)
Definition requestFor (method : string) (id : string) (body : RequestBody) : Request :=
  {| Method := method; Vars := {[ "id" := id ]}; Body := body |}.

(** A start-up environment with a URI and a working driver, and one
    without a URI. *)
Definition goodEnv : startup.Env :=
  {| startup.environ := fun key =>
       if String.eqb key "MONGO_URI" then "mongodb://localhost:27017" else "";
     startup.connects := fun _ => inr 1%nat;
     startup.createsIndex := inl (ErrStore "index already exists") |}.

Definition noURIEnv : startup.Env :=
  {| startup.environ := fun _ => "";
     startup.connects := fun _ => inr 1%nat;
     startup.createsIndex := inr "geometry_2dsphere" |}.

(** The response to a request served on a route, the store answering
    as [answer] says. *)
Definition served (route : api.Route) (r : Request) (answer : Oracle) : Response :=
  response (result answer (api.serve api.SetupRouter route NewResponseWriter r)).

(** The headers http.Error leaves when it is called on a writer whose
    header is [h]. *)
Definition afterError (h : gmap string string) : gmap string string :=
  <["X-Content-Type-Options" := "nosniff"]>
    (<["Content-Type" := "text/plain; charset=utf-8"]> (delete "Content-Length" h)).

(** The two shapes of a resource handler's response on writer [w]: an
    http.Error with one of the statuses [codes], or a 200 with the JSON
    header. *)
Definition handlerResponse (w : ResponseWriter) (codes : list nat) (resp : Response)
  : Prop :=
  (exists code t,
      code ∈ codes
      /\ resp = {| StatusCode := code;
                   ResponseHeader := afterError (Header (jsonWriter w));
                   ResponseBody := written w ++ [Println t] |})
  \/ (exists body,
         resp = {| StatusCode := 200;
                   ResponseHeader := Header (jsonWriter w);
                   ResponseBody := written w ++ body |}).

(** The identifier counter after an insert of [document]. *)
Definition nextAfter (document : LocationFeature) (c : Collection) : primitive.ObjectID :=
  if primitive.IsZero (Feature_ID document) then N.succ (nextID c) else nextID c.

(** Is a document with this _id stored. *)
Definition stores (c : Collection) (id : primitive.ObjectID) : Prop :=
  Some (bson.OID id) ∈ idOf <$> docs c.

(** The identifiers a [12]byte array can hold. *)
Definition inRange (id : primitive.ObjectID) : Prop := id < 2 ^ 96.

(** * Properties *)

(** ** Documents, filters and $set *)

Section Documents.

Implicit Types (d : bson.D) (ds : list bson.D) (sets filter : bson.M).
Implicit Types (id : primitive.ObjectID) (k key : string) (v : bson.Value).

Lemma eqb_OID_true v id : bson.eqb v (bson.OID id) = true <-> v = bson.OID id.
Proof.
  split.
  - destruct v; simpl; try discriminate.
    intros H. apply N.eqb_eq in H. by subst.
  - intros ->. simpl. apply N.eqb_refl.
Qed.

Lemma matches_empty d : matches ∅ d = true.
Proof. unfold matches. by rewrite map_fold_empty. Qed.

Lemma matches_id id d :
  matches {[ "_id" := bson.OID id ]} d = true <-> idOf d = Some (bson.OID id).
Proof.
  unfold matches, idOf. rewrite map_fold_singleton. simpl.
  destruct (bson.lookup "_id" d) as [v|]; [|split; discriminate].
  rewrite eqb_OID_true. split; [by intros -> | by intros [= ->]].
Qed.

Lemma matches_id_false id d :
  idOf d <> Some (bson.OID id) -> matches {[ "_id" := bson.OID id ]} d = false.
Proof.
  intros H. destruct (matches _ d) eqn:E; [|done].
  by apply matches_id in E.
Qed.

Lemma lookup_app key d1 d2 :
  bson.lookup key (d1 ++ d2) =
  match bson.lookup key d1 with
  | Some v => Some v
  | None => bson.lookup key d2
  end.
Proof.
  induction d1 as [|[k v] d1 IH]; simpl; [done|].
  by destruct (String.eqb k key).
Qed.

Lemma lookup_replaceFields key sets d :
  bson.lookup key (replaceFields sets d) =
  match bson.lookup key d with
  | Some v => Some (default v (sets !! key))
  | None => None
  end.
Proof.
  induction d as [|[k v] d IH]; simpl; [done|].
  destruct (String.eqb k key) eqn:E; [|done].
  apply String.eqb_eq in E. by subst.
Qed.

Lemma lookup_Some_elem key v (l : bson.D) :
  NoDup l.*1 -> (bson.lookup key l = Some v <-> (key, v) ∈ l).
Proof.
  induction l as [|[k x] l IH]; simpl; intros Hnd.
  - split; [discriminate | by intros ?%elem_of_nil].
  - apply NoDup_cons in Hnd as [Hk Hnd].
    destruct (String.eqb k key) eqn:E.
    + apply String.eqb_eq in E. subst k. split.
      * intros [= ->]. apply list_elem_of_here.
      * intros [[= ->]|Hin]%elem_of_cons; [done|].
        exfalso. apply Hk. apply list_elem_of_fmap. by exists (key, v).
    + apply String.eqb_neq in E. rewrite (IH Hnd). split.
      * intros Hin. by apply list_elem_of_further.
      * intros [[= <- <-]|Hin]%elem_of_cons; [done|done].
Qed.

Lemma lookup_map_to_list key (m : bson.M) :
  bson.lookup key (map_to_list m) = m !! key.
Proof.
  destruct (m !! key) as [v|] eqn:E.
  - apply lookup_Some_elem; [apply NoDup_fst_map_to_list|].
    by apply elem_of_map_to_list.
  - destruct (bson.lookup key (map_to_list m)) as [v|] eqn:E'; [|done].
    apply lookup_Some_elem in E'; [|apply NoDup_fst_map_to_list].
    apply elem_of_map_to_list in E'. congruence.
Qed.

(** Looking a field up after [$set]: the new value if the field is set,
    the old one otherwise. *)
Lemma lookup_applySet key sets d :
  bson.lookup key (applySet sets d) =
  match sets !! key with
  | Some v => Some v
  | None => bson.lookup key d
  end.
Proof.
  unfold applySet. rewrite lookup_app, lookup_replaceFields, lookup_map_to_list.
  destruct (bson.lookup key d) as [v|] eqn:E.
  - by destruct (sets !! key).
  - destruct (sets !! key) as [v|] eqn:Es.
    + apply map_lookup_filter_Some. split; [done|].
      simpl. unfold hasField. by rewrite E.
    + apply map_lookup_filter_None. left. done.
Qed.

End Documents.

(** ** Updating and deleting the first match *)

Section FirstMatch.

Implicit Types (d : bson.D) (ds pre post : list bson.D) (sets filter : bson.M).

Lemma deleteFirst_None filter ds :
  Forall (fun d => matches filter d = false) ds -> deleteFirst filter ds = None.
Proof.
  induction 1 as [|d ds Hd _ IH]; simpl; [done|]. by rewrite Hd, IH.
Qed.

Lemma deleteFirst_Some filter ds ds' :
  deleteFirst filter ds = Some ds' ->
  exists pre d post,
    ds = pre ++ d :: post /\ ds' = pre ++ post /\ matches filter d = true.
Proof.
  revert ds'. induction ds as [|d ds IH]; simpl; intros ds' H; [done|].
  destruct (matches filter d) eqn:E.
  - injection H as <-. by exists [], d, ds.
  - destruct (deleteFirst filter ds) as [ds''|]; [|done].
    injection H as <-.
    destruct (IH ds'' eq_refl) as (pre & d0 & post & -> & -> & Hm).
    by exists (d :: pre), d0, post.
Qed.

Lemma deleteFirst_elem filter ds d :
  d ∈ ds -> matches filter d = true -> is_Some (deleteFirst filter ds).
Proof.
  induction 1 as [d ds|d d' ds Hin IH]; simpl; intros Hm.
  - by rewrite Hm.
  - destruct (matches filter d'); [done|].
    destruct (IH Hm) as [ds' ->]. done.
Qed.

Lemma updateFirst_None filter sets ds :
  Forall (fun d => matches filter d = false) ds -> updateFirst filter sets ds = None.
Proof.
  induction 1 as [|d ds Hd _ IH]; simpl; [done|]. by rewrite Hd, IH.
Qed.

Lemma updateFirst_Some filter sets ds ds' changed :
  updateFirst filter sets ds = Some (ds', changed) ->
  exists pre d post,
    ds = pre ++ d :: post /\ ds' = pre ++ applySet sets d :: post
    /\ matches filter d = true.
Proof.
  revert ds' changed. induction ds as [|d ds IH]; simpl; intros ds' changed H; [done|].
  destruct (matches filter d) eqn:E.
  - injection H as <- <-. by exists [], d, ds.
  - destruct (updateFirst filter sets ds) as [[ds'' ch]|]; [|done].
    injection H as <- <-.
    destruct (IH ds'' ch eq_refl) as (pre & d0 & post & -> & -> & Hm).
    by exists (d :: pre), d0, post.
Qed.

Lemma updateFirst_first filter sets pre d post :
  Forall (fun d' => matches filter d' = false) pre -> matches filter d = true ->
  exists changed,
    updateFirst filter sets (pre ++ d :: post)
    = Some (pre ++ applySet sets d :: post, changed).
Proof.
  induction 1 as [|d0 pre Hd0 _ IH]; simpl; intros Hd.
  - rewrite Hd. by eexists.
  - rewrite Hd0. destruct (IH Hd) as [changed ->]. by eexists.
Qed.

Lemma uniqueIDs_deleted id ds ds' :
  uniqueIDs ds ->
  deleteFirst {[ "_id" := bson.OID id ]} ds = Some ds' ->
  uniqueIDs ds' /\ Forall (fun d => matches {[ "_id" := bson.OID id ]} d = false) ds'.
Proof.
  unfold uniqueIDs. intros Hnd H.
  apply deleteFirst_Some in H as (pre & d & post & -> & -> & Hm).
  apply matches_id in Hm.
  rewrite fmap_app, fmap_cons in Hnd.
  apply NoDup_app in Hnd as (Hpre & Hdisj & Hpost).
  apply NoDup_cons in Hpost as [Hd Hpost].
  split.
  - rewrite fmap_app. apply NoDup_app. split_and!; [done| |done].
    intros x Hx Hx'. apply (Hdisj x Hx). by apply list_elem_of_further.
  - apply Forall_forall. intros d' Hin.
    apply matches_id_false. intros Hid.
    apply elem_of_app in Hin as [Hin|Hin].
    + apply (Hdisj (idOf d')); [apply list_elem_of_fmap; by exists d'|].
      rewrite Hid, <- Hm. apply list_elem_of_here.
    + apply Hd. rewrite Hm, <- Hid. apply list_elem_of_fmap. by exists d'.
Qed.

End FirstMatch.

(** ** What decoding does to the struct *)

Section DecodingFacts.

Implicit Types (ms : list (string * json.Value)) (behind : list float64).

(** In [H : (x ← store ... ; rest) = inr _] the store succeeded. *)
Ltac store_ok H :=
  lazymatch type of H with
  | context [mbind _ ?m] =>
      destruct m as [?|[? ?]] eqn:? || destruct m eqn:?;
      simpl in H; [discriminate H|]
  | context [match ?m with inl _ => _ | inr _ => _ end] =>
      destruct m as [?|[? ?]] eqn:? || destruct m eqn:?;
      simpl in H; [discriminate H|]
  end.

Lemma storeFloat64_finite v cur x :
  storeFloat64 v cur = inr x -> finite cur -> finite x.
Proof.
  unfold finite, storeFloat64. destruct (json.strip v); try discriminate.
  - by intros [= <-].
  - destruct (PrimFloat.is_finite f) eqn:E; [|discriminate]. by intros [= <-].
Qed.

Lemma storeElems_finite elems : forall mem xs behind,
  storeElems elems mem = inr (xs, behind) ->
  Forall finite mem -> Forall finite xs /\ Forall finite behind.
Proof.
  induction elems as [|v elems IH]; simpl; intros mem xs behind H Hmem.
  - injection H as <- <-. by split; [constructor|].
  - destruct (storeFloat64 v (List.hd PrimFloat.zero mem)) as [e|x] eqn:Ex;
      simpl in H; [discriminate|].
    destruct (storeElems elems (List.tl mem)) as [e|[xs' behind']] eqn:Exs;
      simpl in H; [discriminate|].
    injection H as <- <-.
    destruct (IH _ _ _ Exs) as [Hxs Hb].
    { destruct Hmem; [constructor|done]. }
    split; [constructor|]; [|done|done].
    apply (storeFloat64_finite _ _ _ Ex).
    destruct Hmem; [reflexivity|done].
Qed.

Lemma storeFloat64s_finite v (cur c : slice float64) behind behind' :
  storeFloat64s v cur behind = inr (c, behind') ->
  match cur with None => True | Some l => Forall finite l end ->
  Forall finite behind ->
  match c with None => True | Some l => Forall finite l end
  /\ Forall finite behind'.
Proof.
  unfold storeFloat64s. destruct (json.strip v) as [| | | |elems| |]; try discriminate.
  - intros [= <- <-]. by split; [|constructor].
  - intros H Hcur Hb.
    assert (Hmem : Forall finite (default [] cur ++ behind)).
    { apply Forall_app. split; [|done]. destruct cur; [done|constructor]. }
    destruct elems as [|v' elems].
    { injection H as <- <-. by split; constructor. }
    destruct (storeElems (v' :: elems) (default [] cur ++ behind))
      as [e|[xs b]] eqn:E; simpl in H; [discriminate|].
    injection H as <- <-. exact (storeElems_finite _ _ _ _ E Hmem).
Qed.

Lemma storeGeometryMembers_finite ms : forall g behind g' behind',
  storeGeometryMembers ms g behind = inr (g', behind') ->
  finiteCoordinates g -> Forall finite behind ->
  finiteCoordinates g' /\ Forall finite behind'.
Proof.
  induction ms as [|[k v] ms IH]; simpl; intros g behind g' behind' H Hg Hb.
  - by injection H as <- <-.
  - destruct (String.eqb (json.foldName k) "type").
    { store_ok H. by apply (IH _ _ _ _ H). }
    destruct (String.eqb (json.foldName k) "coordinates"); [|by apply (IH _ _ _ _ H)].
    destruct (storeFloat64s v (Geometry_Coordinates g) behind) as [e|[c b]] eqn:E;
      simpl in H; [discriminate|].
    destruct (storeFloat64s_finite _ _ _ _ _ E Hg Hb) as [Hc Hb'].
    by apply (IH _ _ _ _ H).
Qed.

Lemma storeGeometry_finite v g behind g' behind' :
  storeGeometry v g behind = inr (g', behind') ->
  finiteCoordinates g -> Forall finite behind ->
  finiteCoordinates g' /\ Forall finite behind'.
Proof.
  unfold storeGeometry. destruct (json.strip v); try discriminate.
  - by intros [= <- <-].
  - apply storeGeometryMembers_finite.
Qed.

Lemma storeFeatureMembers_finite ms : forall cur behind f behind',
  storeFeatureMembers ms cur behind = inr (f, behind') ->
  finiteCoordinates (Feature_Geometry cur) -> Forall finite behind ->
  finiteCoordinates (Feature_Geometry f).
Proof.
  induction ms as [|[k v] ms IH]; simpl; intros cur behind f behind' H Hcur Hb.
  - by injection H as <- <-.
  - destruct (String.eqb (json.foldName k) "id").
    { store_ok H. by apply (IH _ _ _ _ H). }
    destruct (String.eqb (json.foldName k) "type").
    { store_ok H. by apply (IH _ _ _ _ H). }
    destruct (String.eqb (json.foldName k) "properties").
    { store_ok H. by apply (IH _ _ _ _ H). }
    destruct (String.eqb (json.foldName k) "geometry"); [|by apply (IH _ _ _ _ H)].
    destruct (storeGeometry v (Feature_Geometry cur) behind) as [e|[g b]] eqn:E;
      simpl in H; [discriminate|].
    destruct (storeGeometry_finite _ _ _ _ _ E Hcur Hb) as [Hg Hb'].
    by apply (IH _ _ _ _ H).
Qed.

(** What a body that decodes is: null, or an object whose members were
    stored one after the other. *)
Lemma Decode_inr body f :
  Decode body zeroFeature = inr f ->
  f = zeroFeature
  \/ exists v ms behind,
       body = FirstValue v /\ json.strip v = json.Object ms
       /\ storeFeatureMembers ms zeroFeature [] = inr (f, behind).
Proof.
  destruct body as [|v]; simpl; [discriminate|].
  unfold storeFeature.
  destruct (json.strip v) as [| | | | |ms|] eqn:Ev; simpl; try discriminate.
  - intros [= <-]. by left.
  - destruct (storeFeatureMembers ms zeroFeature []) as [e|[f' b]] eqn:E;
      simpl; [discriminate|].
    intros [= <-]. right. by exists v, ms, b.
Qed.

Lemma Decode_Object ms f :
  Decode (FirstValue (json.Object ms)) zeroFeature = inr f ->
  exists behind, storeFeatureMembers ms zeroFeature [] = inr (f, behind).
Proof.
  simpl. unfold storeFeature. simpl.
  destruct (storeFeatureMembers ms zeroFeature []) as [e|[f' b]];
    simpl; [discriminate|].
  intros [= <-]. by exists b.
Qed.

(** A decoded feature holds no NaN and no infinity. *)
Lemma Decode_finite body f :
  Decode body zeroFeature = inr f -> finiteCoordinates (Feature_Geometry f).
Proof.
  intros H. destruct (Decode_inr _ _ H) as [->|(v & ms & b & _ & _ & Hms)]; [done|].
  apply (storeFeatureMembers_finite _ _ _ _ _ Hms); [done|constructor].
Qed.

Lemma encodeFloat64Elems_finite l :
  Forall finite l -> encodeFloat64Elems l = inr (map json.Number l).
Proof.
  induction 1 as [|x l Hx _ IH]; simpl; [done|].
  unfold encodeFloat64. rewrite Hx. simpl. by rewrite IH.
Qed.

Lemma encodeFeature_finite f :
  finiteCoordinates (Feature_Geometry f) -> encodeFeature f = inr (jsonFeature f).
Proof.
  unfold finiteCoordinates, encodeFeature, encodeGeometry, encodeFloat64s, jsonFeature.
  destruct (Geometry_Coordinates (Feature_Geometry f)) as [l|]; simpl; [|done].
  intros H. by rewrite (encodeFloat64Elems_finite _ H).
Qed.

Lemma storeFeatureMembers_no_id ms : forall cur behind f behind',
  storeFeatureMembers ms cur behind = inr (f, behind') ->
  named "id" ms = [] -> Feature_ID f = Feature_ID cur.
Proof.
  unfold named.
  induction ms as [|[k v] ms IH]; simpl; intros cur behind f behind' H Hn.
  - by injection H as <- <-.
  - destruct (String.eqb (json.foldName k) "id") eqn:E1; [done|].
    destruct (String.eqb (json.foldName k) "type").
    { store_ok H. by rewrite (IH _ _ _ _ H Hn). }
    destruct (String.eqb (json.foldName k) "properties").
    { store_ok H. by rewrite (IH _ _ _ _ H Hn). }
    destruct (String.eqb (json.foldName k) "geometry").
    { store_ok H. by rewrite (IH _ _ _ _ H Hn). }
    by rewrite (IH _ _ _ _ H Hn).
Qed.

Lemma storeFeatureMembers_no_type ms : forall cur behind f behind',
  storeFeatureMembers ms cur behind = inr (f, behind') ->
  named "type" ms = [] -> Feature_Type f = Feature_Type cur.
Proof.
  unfold named.
  induction ms as [|[k v] ms IH]; simpl; intros cur behind f behind' H Hn.
  - by injection H as <- <-.
  - destruct (String.eqb (json.foldName k) "id") eqn:E1.
    { apply String.eqb_eq in E1. rewrite E1 in Hn. simpl in Hn.
      store_ok H. by rewrite (IH _ _ _ _ H Hn). }
    destruct (String.eqb (json.foldName k) "type") eqn:E2; [done|].
    destruct (String.eqb (json.foldName k) "properties").
    { store_ok H. by rewrite (IH _ _ _ _ H Hn). }
    destruct (String.eqb (json.foldName k) "geometry").
    { store_ok H. by rewrite (IH _ _ _ _ H Hn). }
    by rewrite (IH _ _ _ _ H Hn).
Qed.

(** A single string given for "type" is the decoded Type. *)
Lemma storeFeatureMembers_type ms t : forall cur behind f behind',
  storeFeatureMembers ms cur behind = inr (f, behind') ->
  named "type" ms = [json.Str t] -> Feature_Type f = t.
Proof.
  unfold named.
  induction ms as [|[k v] ms IH]; simpl; intros cur behind f behind' H Hn; [done|].
  destruct (String.eqb (json.foldName k) "id") eqn:E1.
  { apply String.eqb_eq in E1. rewrite E1 in Hn. simpl in Hn.
    store_ok H. by apply (IH _ _ _ _ H). }
  destruct (String.eqb (json.foldName k) "type") eqn:E2.
  { simpl in Hn. injection Hn as -> Hn. simpl in H.
    by rewrite (storeFeatureMembers_no_type _ _ _ _ _ H Hn). }
  destruct (String.eqb (json.foldName k) "properties").
  { store_ok H. by apply (IH _ _ _ _ H). }
  destruct (String.eqb (json.foldName k) "geometry").
  { store_ok H. by apply (IH _ _ _ _ H). }
  by apply (IH _ _ _ _ H).
Qed.

Lemma length_quoted (s : string) :
  String.length (json.quoted s) = S (S (String.length s)).
Proof.
  unfold json.quoted. generalize (ascii_of_N 34). intros q.
  cbn [String.length]. f_equal.
  induction s as [|c s IH]; simpl; [done|]. by rewrite IH.
Qed.

(** A string of 24 hex digits is read as the identifier it spells. *)
Lemma UnmarshalJSON_hex (s : string) (id cur : primitive.ObjectID) :
  primitive.ObjectIDFromHex s = inr id ->
  primitive.UnmarshalJSON (json.Str s) cur = inr id.
Proof.
  intros Hs.
  assert (Hlen : String.length s = 24%nat).
  { unfold primitive.ObjectIDFromHex in Hs.
    destruct (Nat.eqb (String.length s) 24) eqn:E; [|discriminate].
    by apply Nat.eqb_eq. }
  unfold primitive.UnmarshalJSON, primitive.fromValue. cbn [json.strip json.text].
  assert (Hv : primitive.fromJSONString s = inr id).
  { unfold primitive.fromJSONString. by rewrite Hlen. }
  destruct (json.plain s); [|exact Hv].
  by rewrite length_quoted, Hlen.
Qed.

(** A single hex string given for "id" is the decoded ID. *)
Lemma storeFeatureMembers_id ms s id : forall cur behind f behind',
  storeFeatureMembers ms cur behind = inr (f, behind') ->
  named "id" ms = [json.Str s] ->
  primitive.ObjectIDFromHex s = inr id -> Feature_ID f = id.
Proof.
  unfold named.
  induction ms as [|[k v] ms IH]; simpl; intros cur behind f behind' H Hn Hs; [done|].
  destruct (String.eqb (json.foldName k) "id") eqn:E1.
  { simpl in Hn. injection Hn as -> Hn.
    rewrite (UnmarshalJSON_hex _ _ _ Hs) in H. simpl in H.
    by rewrite (storeFeatureMembers_no_id _ _ _ _ _ H Hn). }
  destruct (String.eqb (json.foldName k) "type").
  { store_ok H. by apply (IH _ _ _ _ H). }
  destruct (String.eqb (json.foldName k) "properties").
  { store_ok H. by apply (IH _ _ _ _ H). }
  destruct (String.eqb (json.foldName k) "geometry").
  { store_ok H. by apply (IH _ _ _ _ H). }
  by apply (IH _ _ _ _ H).
Qed.

(** The same, of a body that is an object. *)
Lemma Decode_no_id ms f :
  Decode (FirstValue (json.Object ms)) zeroFeature = inr f ->
  named "id" ms = [] -> Feature_ID f = primitive.NilObjectID.
Proof.
  intros H Hn. destruct (Decode_Object _ _ H) as [b Hms].
  by rewrite (storeFeatureMembers_no_id _ _ _ _ _ Hms Hn).
Qed.

Lemma Decode_type ms t f :
  Decode (FirstValue (json.Object ms)) zeroFeature = inr f ->
  named "type" ms = [json.Str t] -> Feature_Type f = t.
Proof.
  intros H Hn. destruct (Decode_Object _ _ H) as [b Hms].
  exact (storeFeatureMembers_type _ _ _ _ _ _ Hms Hn).
Qed.

Lemma Decode_id ms s id f :
  Decode (FirstValue (json.Object ms)) zeroFeature = inr f ->
  named "id" ms = [json.Str s] ->
  primitive.ObjectIDFromHex s = inr id -> Feature_ID f = id.
Proof.
  intros H Hn Hs. destruct (Decode_Object _ _ H) as [b Hms].
  exact (storeFeatureMembers_id _ _ _ _ _ _ _ Hms Hn Hs).
Qed.

End DecodingFacts.

(** An identifier written in exactly twelve bytes is copied as it
    stands: {"id":"0123456789"} decodes, to the identifier whose bytes
    are that text with its quotes, and so does the twelve-byte text
    {"$oid": ""}; the same string written in more bytes is refused, and
    the same object written in fewer bytes gives the zero identifier. *)
Lemma Decode_twelve_bytes :
  Decode bodyTwelveBytes zeroFeature
  = inr (set_ID (primitive.fromBytes 0 (json.quoted "0123456789")) zeroFeature)
  /\ primitive.Hex (primitive.fromBytes 0 (json.quoted "0123456789"))
     = "223031323334353637383922"
  /\ Decode (Body putTenCharacters) zeroFeature = inl ErrInvalidHex
  /\ primitive.UnmarshalJSON
       (json.Spelt ("{" +:+ json.quoted "$oid" +:+ ": " +:+ json.quoted "" +:+ "}")
          (json.Object [("$oid", json.Str "")])) 0
     = inr (primitive.fromBytes 0
              ("{" +:+ json.quoted "$oid" +:+ ": " +:+ json.quoted "" +:+ "}"))
  /\ primitive.UnmarshalJSON (json.Object [("$oid", json.Str "")]) 5
     = inr primitive.NilObjectID.
Proof. by split_and!. Qed.

(** A shorter array cuts the slice and leaves its backing array: in
    {"geometry": {"coordinates": [1, 2], "coordinates": [1],
    "coordinates": [null, null]}} the second null finds the 2 again. *)
Lemma Decode_repeated_coordinates :
  Decode bodyRepeatedCoordinates zeroFeature
  = inr {| Feature_ID := primitive.NilObjectID;
           Feature_Type := "";
           Feature_Properties := Feature_Properties zeroFeature;
           Feature_Geometry :=
             {| Geometry_Type := "";
                Geometry_Coordinates := Some [PrimFloat.one; PrimFloat.two] |} |}.
Proof. reflexivity. Qed.

(** ** What the client receives *)

Section Responses.

Implicit Types (w : ResponseWriter) (t : text).

Lemma response_Error w t code :
  wroteHeader w = None ->
  response (Error w t code) =
  {| StatusCode := code;
     ResponseHeader :=
       <["X-Content-Type-Options" := "nosniff"]>
         (<["Content-Type" := "text/plain; charset=utf-8"]>
            (delete "Content-Length" (Header w)));
     ResponseBody := written w ++ [Println t] |}.
Proof.
  intros H. unfold Error, Write, WriteHeader, Header_Set, Header_Del, response.
  simpl. rewrite H. reflexivity.
Qed.

Lemma response_Encode w (v : error + json.Value) :
  wroteHeader w = None ->
  response (Encode w v) =
  {| StatusCode := StatusOK;
     ResponseHeader := Header w;
     ResponseBody := written w ++ match v with inr j => [Encoded j] | inl _ => [] end |}.
Proof.
  intros H. destruct v as [e|j]; unfold Encode, Write, WriteHeader, response; simpl.
  - rewrite H. by rewrite app_nil_r.
  - rewrite H. reflexivity.
Qed.

Lemma response_WriteHeader w code :
  wroteHeader w = None ->
  response (WriteHeader code w) =
  {| StatusCode := code; ResponseHeader := Header w; ResponseBody := written w |}.
Proof. intros H. unfold WriteHeader, response. rewrite H. reflexivity. Qed.

End Responses.

(** ** The handlers, case by case *)

Section HandlerEquations.

Implicit Types (w : ResponseWriter) (r : Request) (feature : LocationFeature).
Implicit Types (id : primitive.ObjectID).

Lemma createLocation_undecodable w r err :
  Decode (Body r) zeroFeature = inl err ->
  api.createLocation w r =
  Return (Error (jsonWriter w) (ErrorString err) StatusBadRequest).
Proof. intros H. unfold api.createLocation. rewrite H. reflexivity. Qed.

Lemma createLocation_decoded w r feature :
  Decode (Body r) zeroFeature = inr feature ->
  api.createLocation w r =
  Call (InsertOne (WithTimeout 5) (set_Type "Feature" feature))
    (fun res =>
       match res with
       | inl err =>
           Return (Error (jsonWriter w) (ErrorString err) StatusInternalServerError)
       | inr result =>
           Return (Encode (jsonWriter w) (encodeInsertOneResult result))
       end).
Proof. intros H. unfold api.createLocation. rewrite H. reflexivity. Qed.

Lemma updateLocation_invalid_id w r err :
  primitive.ObjectIDFromHex (idParam r) = inl err ->
  api.updateLocation w r =
  Return (Error (jsonWriter w) (Lit "Invalid ID format") StatusBadRequest).
Proof.
  intros H. unfold api.updateLocation. fold (idParam r). rewrite H. reflexivity.
Qed.

Lemma updateLocation_undecodable w r id err :
  primitive.ObjectIDFromHex (idParam r) = inr id ->
  Decode (Body r) zeroFeature = inl err ->
  api.updateLocation w r =
  Return (Error (jsonWriter w) (ErrorString err) StatusBadRequest).
Proof.
  intros Hid H. unfold api.updateLocation. fold (idParam r).
  rewrite Hid, H. reflexivity.
Qed.

Lemma updateLocation_decoded w r id feature :
  primitive.ObjectIDFromHex (idParam r) = inr id ->
  Decode (Body r) zeroFeature = inr feature ->
  api.updateLocation w r =
  Call (UpdateOne (WithTimeout 5) {[ "_id" := bson.OID id ]}
          {[ "$set" := setOf feature ]})
    (fun res =>
       match res with
       | inl err =>
           Return (Error (jsonWriter w) (ErrorString err) StatusInternalServerError)
       | inr _ => Return (Encode (jsonWriter w) (encodeFeature feature))
       end).
Proof.
  intros Hid H. unfold api.updateLocation. fold (idParam r).
  rewrite Hid, H. reflexivity.
Qed.

Lemma deleteLocation_invalid_id w r err :
  primitive.ObjectIDFromHex (idParam r) = inl err ->
  api.deleteLocation w r =
  Return (Error (jsonWriter w) (Lit "Invalid ID format") StatusBadRequest).
Proof.
  intros H. unfold api.deleteLocation. fold (idParam r). rewrite H. reflexivity.
Qed.

Lemma deleteLocation_valid_id w r id :
  primitive.ObjectIDFromHex (idParam r) = inr id ->
  api.deleteLocation w r =
  Call (DeleteOne (WithTimeout 5) {[ "_id" := bson.OID id ]})
    (fun res =>
       match res with
       | inl err =>
           Return (Error (jsonWriter w) (ErrorString err) StatusInternalServerError)
       | inr result =>
           if Z.eqb (DeletedCount result) 0 then
             Return (Error (jsonWriter w) (Lit "Location not found") StatusNotFound)
           else
             Return (Encode (jsonWriter w)
                       (encodeStringMap1 "message" "Location deleted successfully"))
       end).
Proof.
  intros H. unfold api.deleteLocation. fold (idParam r). rewrite H. reflexivity.
Qed.

End HandlerEquations.

(** ** Inserting *)

Section Inserting.

Implicit Types (c : Collection) (document feature : LocationFeature).

Lemma insertOne_spec document c :
  insertOne document c =
  let id := assignedID document c in
  let next :=
    if primitive.IsZero (Feature_ID document) then N.succ (nextID c) else nextID c in
  if existsb (matches {[ "_id" := bson.OID id ]}) (docs c) then
    (inl duplicateKey, {| docs := docs c; nextID := next |})
  else
    (inr {| InsertedID := id |},
     {| docs := docs c ++ [storedDocument id document]; nextID := next |}).
Proof.
  unfold insertOne, assignedID, bson.marshalFeature, storedDocument.
  destruct (primitive.IsZero (Feature_ID document)); reflexivity.
Qed.

Lemma createLocation_stores r feature c resp c' :
  Decode (Body r) zeroFeature = inr feature ->
  handle api.createLocation r c = (resp, c') ->
  StatusCode resp = StatusOK ->
  docs c' =
  docs c ++ [storedDocument (assignedID feature c) (set_Type "Feature" feature)].
Proof.
  intros Hdec Hrun Hok. unfold handle in Hrun.
  rewrite (createLocation_decoded _ _ _ Hdec) in Hrun.
  cbn [run exec] in Hrun. rewrite insertOne_spec in Hrun.
  cbv zeta in Hrun. change (assignedID (set_Type "Feature" feature) c)
    with (assignedID feature c) in Hrun.
  destruct (existsb _ (docs c)); cbn [run] in Hrun; injection Hrun as <- <-.
  - rewrite response_Error in Hok by reflexivity. discriminate Hok.
  - reflexivity.
Qed.

End Inserting.

(** ** Sample requests *)

Section Samples.

Example sampleHex_parses : primitive.ObjectIDFromHex sampleHex = inr sampleID.
Proof. reflexivity. Qed.

Example sampleID_prints : primitive.Hex sampleID = sampleHex.
Proof. reflexivity. Qed.

Example bodyWithID_decodes :
  Decode bodyWithID zeroFeature = inr (sampleFeature sampleID).
Proof. reflexivity. Qed.

Example bodyWithoutID_decodes :
  Decode bodyWithoutID zeroFeature = inr (sampleFeature primitive.NilObjectID).
Proof. reflexivity. Qed.

Example foldName_mixed_case : json.foldName "TyPE" = "type".
Proof. reflexivity. Qed.

End Samples.

(** ** Create *)

(** C1: for every request body that Create decodes, whatever "type" it
    carries, the one store call of the handler is an InsertOne whose
    record has Type "Feature"; and when the insert succeeds on the
    in-memory collection, the document added has "type": "Feature". *)
Theorem createLocation_inserts_type_Feature
    (w : ResponseWriter) (r : Request) (feature : LocationFeature) (answer : Oracle) :
  Decode (Body r) zeroFeature = inr feature ->
  (exists document,
      calls answer (api.createLocation w r)
      = [anyOp (InsertOne (WithTimeout 5) document)]
      /\ Feature_Type document = "Feature")
  /\ (forall c resp c',
         handle api.createLocation r c = (resp, c') ->
         StatusCode resp = StatusOK ->
         exists d, docs c' = docs c ++ [d]
                   /\ bson.lookup "type" d = Some (bson.Str "Feature")).
Proof.
  intros Hdec. split.
  - exists (set_Type "Feature" feature). split; [|reflexivity].
    rewrite (createLocation_decoded _ _ _ Hdec). cbn [calls].
    by destruct (answer _ _).
  - intros c resp c' Hrun Hok.
    rewrite (createLocation_stores _ _ _ _ _ Hdec Hrun Hok).
    eexists. split; reflexivity.
Qed.

Lemma createLocation_inserts_type_Feature_witness :
  Decode (Body postWithID) zeroFeature = inr (sampleFeature sampleID)
  /\ exists document,
      calls (answerOf emptyCollection) (api.createLocation NewResponseWriter postWithID)
      = [anyOp (InsertOne (WithTimeout 5) document)]
      /\ Feature_Type document = "Feature".
Proof.
  split; [reflexivity|].
  apply (createLocation_inserts_type_Feature NewResponseWriter postWithID
           (sampleFeature sampleID) (answerOf emptyCollection)).
  reflexivity.
Defined.

(** C2, as stated, fails: of two Create requests that differ only in the
    "id" member, one hands InsertOne a record carrying the submitted
    identifier and the other a record with the zero identifier; and on
    the empty collection the submitted identifier, not a generated one,
    becomes the stored document's _id. *)
Lemma createLocation_submitted_id_not_ignored :
  Feature_ID <$> inserted (calls (answerOf emptyCollection)
                             (api.createLocation NewResponseWriter postWithID))
  = [sampleID]
  /\ Feature_ID <$> inserted (calls (answerOf emptyCollection)
                                (api.createLocation NewResponseWriter postWithoutID))
     = [primitive.NilObjectID]
  /\ idOf <$> docs (handle api.createLocation postWithID emptyCollection).2
     = [Some (bson.OID sampleID)]
  /\ sampleID <> nextID emptyCollection
  /\ nextID (handle api.createLocation postWithID emptyCollection).2
     = nextID emptyCollection.
Proof. repeat split; try reflexivity. discriminate. Qed.

(** C2, amended: Create hands the decoded record, identifier included,
    to InsertOne (only Type is overwritten).  When the insert succeeds,
    the document is stored under the decoded identifier if that is not
    the zero identifier, and under a generated one if it is; the body
    without an "id" member decodes to the zero identifier. *)
Theorem createLocation_passes_decoded_id
    (w : ResponseWriter) (r : Request) (feature : LocationFeature) (answer : Oracle) :
  Decode (Body r) zeroFeature = inr feature ->
  inserted (calls answer (api.createLocation w r)) = [set_Type "Feature" feature]
  /\ Feature_ID (set_Type "Feature" feature) = Feature_ID feature
  /\ (forall c resp c',
         handle api.createLocation r c = (resp, c') ->
         StatusCode resp = StatusOK ->
         exists d,
           docs c' = docs c ++ [d]
           /\ idOf d = Some (bson.OID (if primitive.IsZero (Feature_ID feature)
                                        then nextID c else Feature_ID feature)))
  /\ (forall ms, Body r = FirstValue (json.Object ms) -> named "id" ms = [] ->
                 primitive.IsZero (Feature_ID feature) = true).
Proof.
  intros Hdec. split_and!.
  - rewrite (createLocation_decoded _ _ _ Hdec). cbn [calls].
    by destruct (answer _ _).
  - reflexivity.
  - intros c resp c' Hrun Hok.
    rewrite (createLocation_stores _ _ _ _ _ Hdec Hrun Hok).
    eexists. split; reflexivity.
  - intros ms Hbody Hno. rewrite Hbody in Hdec.
    by rewrite (Decode_no_id _ _ Hdec Hno).
Qed.

Lemma createLocation_passes_decoded_id_witness :
  Decode (Body postWithID) zeroFeature = inr (sampleFeature sampleID)
  /\ inserted (calls (answerOf emptyCollection)
                 (api.createLocation NewResponseWriter postWithID))
     = [set_Type "Feature" (sampleFeature sampleID)].
Proof.
  split; [reflexivity|].
  apply (createLocation_passes_decoded_id NewResponseWriter postWithID
           (sampleFeature sampleID) (answerOf emptyCollection)).
  reflexivity.
Defined.

(** ** List *)

(** Package api, on a collection without documents: 200, and the body is
    {"type":"FeatureCollection","features":[]}. *)
Lemma api_getLocations_empty (r : Request) (next : primitive.ObjectID) :
  handle api.getLocations r {| docs := []; nextID := next |}
  = ({| StatusCode := 200;
        ResponseHeader := {[ "Content-Type" := "application/json" ]};
        ResponseBody := [Encoded (emptyFeatureCollection (json.Array []))] |},
     {| docs := []; nextID := next |}).
Proof. reflexivity. Qed.

(** C3, in the stand-alone program: with no documents stored, its
    getLocations answers 200 with {"type":"FeatureCollection",
    "features":null}; the nil slice it hands to cursor.All stays nil,
    where package api first makes the slice non-nil. *)
Theorem standalone_getLocations_empty_null :
  handle standalone.getLocations getAll emptyCollection
  = ({| StatusCode := 200;
        ResponseHeader := {[ "Content-Type" := "application/json" ]};
        ResponseBody := [Encoded (emptyFeatureCollection json.Null)] |},
     emptyCollection)
  /\ handle api.getLocations getAll emptyCollection
     = ({| StatusCode := 200;
           ResponseHeader := {[ "Content-Type" := "application/json" ]};
           ResponseBody := [Encoded (emptyFeatureCollection (json.Array []))] |},
        emptyCollection).
Proof. split; reflexivity. Qed.

(** ** Update *)

Section Updating.

Implicit Types (r : Request) (id : primitive.ObjectID) (feature : LocationFeature).
Implicit Types (c : Collection).

Lemma no_match_by_id id (ds : list bson.D) :
  Forall (fun d => idOf d <> Some (bson.OID id)) ds ->
  Forall (fun d => matches {[ "_id" := bson.OID id ]} d = false) ds.
Proof. intros H. eapply Forall_impl; [exact H|]. intros d. apply matches_id_false. Qed.

Lemma updateOne_no_match id feature c :
  Forall (fun d => idOf d <> Some (bson.OID id)) (docs c) ->
  exec (UpdateOne (WithTimeout 5) {[ "_id" := bson.OID id ]}
          {[ "$set" := setOf feature ]}) c
  = (inr {| MatchedCount := 0; ModifiedCount := 0; UpsertedCount := 0 |}, c).
Proof.
  intros H. cbn [exec]. unfold updateOne.
  rewrite lookup_singleton_eq.
  by rewrite (updateFirst_None _ _ _ (no_match_by_id _ _ H)).
Qed.

Lemma updateLocation_status r id feature (answer : Oracle) :
  primitive.ObjectIDFromHex (idParam r) = inr id ->
  Decode (Body r) zeroFeature = inr feature ->
  response (result answer (api.updateLocation NewResponseWriter r))
  = match answer _ (UpdateOne (WithTimeout 5) {[ "_id" := bson.OID id ]}
                      {[ "$set" := setOf feature ]}) with
    | inl err =>
        {| StatusCode := StatusInternalServerError;
           ResponseHeader := errorHeader;
           ResponseBody := [Println (ErrorString err)] |}
    | inr _ =>
        {| StatusCode := StatusOK;
           ResponseHeader := jsonHeader;
           ResponseBody := [Encoded (jsonFeature feature)] |}
    end.
Proof.
  intros Hid Hdec. rewrite (updateLocation_decoded _ _ _ _ Hid Hdec).
  cbn [result]. destruct (answer _ _) as [err|res]; cbn [result].
  - by rewrite response_Error.
  - rewrite response_Encode by reflexivity.
    by rewrite (encodeFeature_finite _ (Decode_finite _ _ Hdec)).
Qed.

End Updating.

(** C4: for a valid id and a decodable body, when no stored document
    has that _id, the store's update matches and modifies nothing and
    reports no error, the collection is left as it was, and Update
    answers 200 with the decoded feature as body; whatever the store
    answers, Update never answers 404. *)
Theorem updateLocation_missing_id_answers_200
    (r : Request) (id : primitive.ObjectID) (feature : LocationFeature)
    (c : Collection) :
  primitive.ObjectIDFromHex (idParam r) = inr id ->
  Decode (Body r) zeroFeature = inr feature ->
  Forall (fun d => idOf d <> Some (bson.OID id)) (docs c) ->
  exec (UpdateOne (WithTimeout 5) {[ "_id" := bson.OID id ]}
          {[ "$set" := setOf feature ]}) c
  = (inr {| MatchedCount := 0; ModifiedCount := 0; UpsertedCount := 0 |}, c)
  /\ handle api.updateLocation r c
     = ({| StatusCode := 200;
           ResponseHeader := {[ "Content-Type" := "application/json" ]};
           ResponseBody := [Encoded (jsonFeature feature)] |}, c)
  /\ forall answer : Oracle,
       StatusCode (response (result answer (api.updateLocation NewResponseWriter r)))
       <> 404%nat.
Proof.
  intros Hid Hdec Hnone. split_and!.
  - by apply updateOne_no_match.
  - unfold handle. rewrite (updateLocation_decoded _ _ _ _ Hid Hdec).
    cbn [run]. rewrite (updateOne_no_match _ _ _ Hnone). cbn [run].
    rewrite response_Encode by reflexivity.
    by rewrite (encodeFeature_finite _ (Decode_finite _ _ Hdec)).
  - intros answer. rewrite (updateLocation_status _ _ _ answer Hid Hdec).
    by destruct (answer _ _).
Qed.

Lemma updateLocation_missing_id_answers_200_witness :
  primitive.ObjectIDFromHex (idParam putSample) = inr sampleID
  /\ handle api.updateLocation putSample emptyCollection
     = ({| StatusCode := 200;
           ResponseHeader := {[ "Content-Type" := "application/json" ]};
           ResponseBody :=
             [Encoded (jsonFeature (sampleFeature primitive.NilObjectID))] |},
        emptyCollection).
Proof.
  split; [reflexivity|].
  apply (updateLocation_missing_id_answers_200 putSample sampleID
           (sampleFeature primitive.NilObjectID) emptyCollection);
    [reflexivity | reflexivity | constructor].
Defined.

(** ** Delete *)

Section Deleting.

Implicit Types (r : Request) (id : primitive.ObjectID) (c : Collection).

Lemma deleteLocation_status r id (answer : Oracle) :
  primitive.ObjectIDFromHex (idParam r) = inr id ->
  response (result answer (api.deleteLocation NewResponseWriter r))
  = match answer _ (DeleteOne (WithTimeout 5) {[ "_id" := bson.OID id ]}) with
    | inl err =>
        {| StatusCode := StatusInternalServerError;
           ResponseHeader := errorHeader;
           ResponseBody := [Println (ErrorString err)] |}
    | inr res =>
        if Z.eqb (DeletedCount res) 0 then
          {| StatusCode := StatusNotFound;
             ResponseHeader := errorHeader;
             ResponseBody := [Println (Lit "Location not found")] |}
        else
          {| StatusCode := StatusOK;
             ResponseHeader := jsonHeader;
             ResponseBody := [Encoded deletedMessage] |}
    end.
Proof.
  intros Hid. rewrite (deleteLocation_valid_id _ _ _ Hid).
  cbn [result]. destruct (answer _ _) as [err|res]; cbn [result].
  - by rewrite response_Error.
  - destruct (Z.eqb (DeletedCount res) 0); cbn [result].
    + by rewrite response_Error.
    + by rewrite response_Encode.
Qed.

Lemma handle_delete_found r id c ds :
  primitive.ObjectIDFromHex (idParam r) = inr id ->
  deleteFirst {[ "_id" := bson.OID id ]} (docs c) = Some ds ->
  handle api.deleteLocation r c
  = ({| StatusCode := StatusOK;
        ResponseHeader := jsonHeader;
        ResponseBody := [Encoded deletedMessage] |},
     {| docs := ds; nextID := nextID c |}).
Proof.
  intros Hid Hdel. unfold handle. rewrite (deleteLocation_valid_id _ _ _ Hid).
  cbn [run exec]. unfold deleteOne. rewrite Hdel. reflexivity.
Qed.

Lemma handle_delete_missing r id c :
  primitive.ObjectIDFromHex (idParam r) = inr id ->
  deleteFirst {[ "_id" := bson.OID id ]} (docs c) = None ->
  handle api.deleteLocation r c
  = ({| StatusCode := StatusNotFound;
        ResponseHeader := errorHeader;
        ResponseBody := [Println (Lit "Location not found")] |}, c).
Proof.
  intros Hid Hdel. unfold handle. rewrite (deleteLocation_valid_id _ _ _ Hid).
  cbn [run exec]. unfold deleteOne. rewrite Hdel. reflexivity.
Qed.

End Deleting.

(** C5: for a valid id, Delete issues one DeleteOne; it answers 404
    exactly when that call succeeds with DeletedCount 0, the 404 body
    then being "Location not found", and it answers 200 with
    {"message":"Location deleted successfully"} when the call reports a
    deletion.  On the in-memory collection the answer is 404 with the
    collection as it was, or 200 with one document fewer; and when the
    collection has unique identifiers and holds the id, deleting twice
    gives 200 and then 404. *)
Theorem deleteLocation_404_iff_nothing_deleted
    (r : Request) (id : primitive.ObjectID) (answer : Oracle) :
  primitive.ObjectIDFromHex (idParam r) = inr id ->
  let reply := answer _ (DeleteOne (WithTimeout 5) {[ "_id" := bson.OID id ]}) in
  let resp := response (result answer (api.deleteLocation NewResponseWriter r)) in
  calls answer (api.deleteLocation NewResponseWriter r)
  = [anyOp (DeleteOne (WithTimeout 5) {[ "_id" := bson.OID id ]})]
  /\ (StatusCode resp = 404%nat
      <-> exists res, reply = inr res /\ DeletedCount res = 0%Z)
  /\ (StatusCode resp = 404%nat
      -> ResponseBody resp = [Println (Lit "Location not found")])
  /\ (forall res, reply = inr res -> DeletedCount res <> 0%Z ->
        StatusCode resp = 200%nat
        /\ ResponseBody resp
           = [Encoded (json.Object
                         [("message", json.Str "Location deleted successfully")])])
  /\ (forall c,
        (StatusCode (handle api.deleteLocation r c).1 = 404%nat
         /\ (handle api.deleteLocation r c).2 = c)
        \/ (StatusCode (handle api.deleteLocation r c).1 = 200%nat
            /\ S (length (docs (handle api.deleteLocation r c).2)) = length (docs c)))
  /\ (forall c d,
        uniqueIDs (docs c) -> d ∈ docs c -> idOf d = Some (bson.OID id) ->
        StatusCode (handle api.deleteLocation r c).1 = 200%nat
        /\ StatusCode
             (handle api.deleteLocation r (handle api.deleteLocation r c).2).1
           = 404%nat).
Proof.
  intros Hid reply resp. subst resp.
  rewrite (deleteLocation_status _ _ answer Hid). fold reply. split_and!.
  - rewrite (deleteLocation_valid_id _ _ _ Hid). cbn [calls]. fold reply.
    destruct reply as [err|res]; [done|].
    by destruct (Z.eqb (DeletedCount res) 0).
  - destruct reply as [err|res].
    + split; [discriminate|]. by intros (res & [=] & _).
    + destruct (Z.eqb_spec (DeletedCount res) 0) as [E|E]; simpl.
      * split; [by exists res | done].
      * split; [discriminate|]. intros (res' & [= <-] & E'). done.
  - destruct reply as [err|res]; [discriminate|].
    by destruct (Z.eqb (DeletedCount res) 0).
  - intros res -> Hne. by destruct (Z.eqb_spec (DeletedCount res) 0).
  - intros c. destruct (deleteFirst {[ "_id" := bson.OID id ]} (docs c))
      as [ds|] eqn:Hds.
    + right. rewrite (handle_delete_found _ _ _ _ Hid Hds). split; [done|].
      apply deleteFirst_Some in Hds as (pre & d & post & -> & -> & _).
      cbn [snd docs]. rewrite !length_app. simpl. lia.
    + left. by rewrite (handle_delete_missing _ _ _ Hid Hds).
  - intros c d Huniq Hin Hd.
    destruct (deleteFirst_elem {[ "_id" := bson.OID id ]} (docs c) d Hin)
      as [ds Hds]; [by apply matches_id|].
    rewrite (handle_delete_found _ _ _ _ Hid Hds). split; [reflexivity|].
    destruct (uniqueIDs_deleted _ _ _ Huniq Hds) as [_ Hnone].
    cbn [snd]. by rewrite (handle_delete_missing _ id); [|done|apply deleteFirst_None].
Qed.

Lemma deleteLocation_404_iff_nothing_deleted_witness :
  primitive.ObjectIDFromHex (idParam deleteSample) = inr sampleID
  /\ StatusCode (handle api.deleteLocation deleteSample oneDocument).1 = 200%nat
  /\ StatusCode
       (handle api.deleteLocation deleteSample
          (handle api.deleteLocation deleteSample oneDocument).2).1
     = 404%nat.
Proof.
  split; [reflexivity|].
  destruct (deleteLocation_404_iff_nothing_deleted deleteSample sampleID
              (answerOf oneDocument) eq_refl) as (_ & _ & _ & _ & _ & Htwice).
  apply (Htwice oneDocument
           (storedDocument sampleID (set_Type "Feature" (sampleFeature sampleID)))).
  - repeat constructor. intros H. by apply elem_of_nil in H.
  - apply list_elem_of_here.
  - reflexivity.
Defined.

(** ** What Update writes *)

Section UpdateFrame.

Implicit Types (feature : LocationFeature) (d : bson.D) (key : string).

Lemma setOf_properties feature :
  setOf feature !! "properties"
  = Some (bson.marshalProperties (Feature_Properties feature)).
Proof. unfold setOf. apply lookup_insert_eq. Qed.

Lemma setOf_geometry feature :
  setOf feature !! "geometry"
  = Some (bson.marshalGeometry (Feature_Geometry feature)).
Proof.
  unfold setOf. rewrite lookup_insert_ne by done. apply lookup_singleton_eq.
Qed.

Lemma setOf_other feature key :
  key <> "properties" -> key <> "geometry" -> setOf feature !! key = None.
Proof.
  intros H1 H2. unfold setOf.
  rewrite lookup_insert_ne by done. by rewrite lookup_singleton_ne.
Qed.

Lemma setOf_dom feature :
  dom (setOf feature) = ({[ "properties"; "geometry" ]} : gset string).
Proof. unfold setOf. by rewrite dom_insert_L, dom_singleton_L. Qed.

Lemma applySet_other feature d key :
  key <> "properties" -> key <> "geometry" ->
  bson.lookup key (applySet (setOf feature) d) = bson.lookup key d.
Proof.
  intros H1 H2. by rewrite lookup_applySet, setOf_other.
Qed.

Lemma handle_snd (h : HandlerFunc) (r : Request) (c : Collection) :
  (handle h r c).2 = (run (h NewResponseWriter r) c).2.
Proof. unfold handle. by destruct (run _ c). Qed.

Lemma run_update_docs (w : ResponseWriter) (r : Request) id feature (c : Collection) :
  primitive.ObjectIDFromHex (idParam r) = inr id ->
  Decode (Body r) zeroFeature = inr feature ->
  docs (run (api.updateLocation w r) c).2 = docs c
  \/ exists pre d post,
       docs c = pre ++ d :: post
       /\ docs (run (api.updateLocation w r) c).2
          = pre ++ applySet (setOf feature) d :: post
       /\ idOf d = Some (bson.OID id).
Proof.
  intros Hid Hdec.
  rewrite (updateLocation_decoded _ _ _ _ Hid Hdec).
  cbn [run exec]. unfold updateOne. rewrite lookup_singleton_eq.
  destruct (updateFirst _ _ (docs c)) as [[ds changed]|] eqn:E; cbn [run snd].
  - right. apply updateFirst_Some in E as (pre & d & post & Hc & -> & Hm).
    exists pre, d, post. split_and!; [done|done|by apply matches_id].
  - by left.
Qed.

Lemma handle_update_docs (r : Request) id feature (c : Collection) :
  primitive.ObjectIDFromHex (idParam r) = inr id ->
  Decode (Body r) zeroFeature = inr feature ->
  docs (handle api.updateLocation r c).2 = docs c
  \/ exists pre d post,
       docs c = pre ++ d :: post
       /\ docs (handle api.updateLocation r c).2
          = pre ++ applySet (setOf feature) d :: post
       /\ idOf d = Some (bson.OID id).
Proof. rewrite handle_snd. apply run_update_docs. Qed.

Lemma handle_update_no_match (r : Request) id feature (c : Collection) :
  primitive.ObjectIDFromHex (idParam r) = inr id ->
  Decode (Body r) zeroFeature = inr feature ->
  Forall (fun d => idOf d <> Some (bson.OID id)) (docs c) ->
  (handle api.updateLocation r c).2 = c.
Proof.
  intros Hid Hdec Hno. rewrite handle_snd.
  rewrite (updateLocation_decoded _ _ _ _ Hid Hdec).
  cbn [run exec]. unfold updateOne. rewrite lookup_singleton_eq.
  by rewrite (updateFirst_None _ _ _ (no_match_by_id _ _ Hno)).
Qed.

Lemma handle_update_first (r : Request) id feature (c : Collection) pre d post :
  primitive.ObjectIDFromHex (idParam r) = inr id ->
  Decode (Body r) zeroFeature = inr feature ->
  docs c = pre ++ d :: post ->
  Forall (fun d' => idOf d' <> Some (bson.OID id)) pre ->
  idOf d = Some (bson.OID id) ->
  (handle api.updateLocation r c).2
  = {| docs := pre ++ applySet (setOf feature) d :: post; nextID := nextID c |}.
Proof.
  intros Hid Hdec Hc Hpre Hd. rewrite handle_snd.
  rewrite (updateLocation_decoded _ _ _ _ Hid Hdec).
  cbn [run exec]. unfold updateOne. rewrite lookup_singleton_eq, Hc.
  destruct (updateFirst_first {[ "_id" := bson.OID id ]} (setOf feature) pre d post
              (no_match_by_id _ _ Hpre) (proj2 (matches_id id d) Hd))
    as [changed ->].
  reflexivity.
Qed.

End UpdateFrame.

(** C6: for a valid id and a decodable body, the one store call of
    Update is an UpdateOne filtered on _id whose update document is a
    $set of exactly the fields "properties" and "geometry", with the
    decoded values.  Applied to a document, it leaves every other field,
    _id and type among them, as it was and makes "properties" and
    "geometry" equal to the new values, whatever they were before.  Run
    against a collection, the request leaves it as it was when no
    document carries the id; otherwise the first document that carries
    the id becomes the result of that $set, and every other document,
    the order and the next generated identifier stay. *)
Theorem updateLocation_sets_only_properties_and_geometry
    (w : ResponseWriter) (r : Request) (id : primitive.ObjectID)
    (feature : LocationFeature) (answer : Oracle) :
  primitive.ObjectIDFromHex (idParam r) = inr id ->
  Decode (Body r) zeroFeature = inr feature ->
  exists sets : bson.M,
    calls answer (api.updateLocation w r)
    = [anyOp (UpdateOne (WithTimeout 5) {[ "_id" := bson.OID id ]}
                {[ "$set" := sets ]})]
    /\ dom sets = ({[ "properties"; "geometry" ]} : gset string)
    /\ (forall d : bson.D,
          bson.lookup "_id" (applySet sets d) = bson.lookup "_id" d
          /\ bson.lookup "type" (applySet sets d) = bson.lookup "type" d
          /\ bson.lookup "properties" (applySet sets d)
             = Some (bson.marshalProperties (Feature_Properties feature))
          /\ bson.lookup "geometry" (applySet sets d)
             = Some (bson.marshalGeometry (Feature_Geometry feature))
          /\ forall key, key <> "properties" -> key <> "geometry" ->
               bson.lookup key (applySet sets d) = bson.lookup key d)
    /\ (forall c : Collection,
          docs (handle api.updateLocation r c).2 = docs c
          \/ exists pre d post,
               docs c = pre ++ d :: post
               /\ docs (handle api.updateLocation r c).2
                  = pre ++ applySet sets d :: post
               /\ idOf d = Some (bson.OID id))
    /\ (forall c : Collection,
          Forall (fun d => idOf d <> Some (bson.OID id)) (docs c) ->
          (handle api.updateLocation r c).2 = c)
    /\ (forall (c : Collection) (pre : list bson.D) (d : bson.D) (post : list bson.D),
          docs c = pre ++ d :: post ->
          Forall (fun d' => idOf d' <> Some (bson.OID id)) pre ->
          idOf d = Some (bson.OID id) ->
          (handle api.updateLocation r c).2
          = {| docs := pre ++ applySet sets d :: post; nextID := nextID c |}).
Proof.
  intros Hid Hdec. exists (setOf feature). split_and!.
  - rewrite (updateLocation_decoded _ _ _ _ Hid Hdec). cbn [calls].
    by destruct (answer _ _).
  - apply setOf_dom.
  - intros d. split_and!.
    + by apply applySet_other.
    + by apply applySet_other.
    + by rewrite lookup_applySet, setOf_properties.
    + by rewrite lookup_applySet, setOf_geometry.
    + intros key. apply applySet_other.
  - intros c. by apply handle_update_docs.
  - intros c. exact (handle_update_no_match r id feature c Hid Hdec).
  - intros c pre d post.
    exact (handle_update_first r id feature c pre d post Hid Hdec).
Qed.

(** On the collection of two documents, a PUT for the second one's id
    with other properties and coordinates: the first document stays, the
    second one gets the new properties and geometry and keeps its _id
    and its type "Feature" (the body said "Renamed"). *)
Lemma updateLocation_sets_only_properties_and_geometry_witness :
  primitive.ObjectIDFromHex (idParam putMoved) = inr sampleID
  /\ Decode (Body putMoved) zeroFeature = inr (movedFeature primitive.NilObjectID)
  /\ exists sets : bson.M,
       calls (answerOf twoDocuments) (api.updateLocation NewResponseWriter putMoved)
       = [anyOp (UpdateOne (WithTimeout 5) {[ "_id" := bson.OID sampleID ]}
                   {[ "$set" := sets ]})]
       /\ dom sets = ({[ "properties"; "geometry" ]} : gset string)
       /\ (handle api.updateLocation putMoved twoDocuments).2
          = {| docs :=
                 [storedDocument 7 otherFeature;
                  applySet sets
                    (storedDocument sampleID
                       (set_Type "Feature" (sampleFeature sampleID)))];
               nextID := 1 |}
       /\ (let d := storedDocument sampleID
                      (set_Type "Feature" (sampleFeature sampleID)) in
           bson.lookup "_id" (applySet sets d) = Some (bson.OID sampleID)
           /\ bson.lookup "type" (applySet sets d) = Some (bson.Str "Feature")
           /\ bson.lookup "properties" (applySet sets d)
              = Some (bson.marshalProperties
                        (Feature_Properties (movedFeature sampleID)))
           /\ bson.lookup "properties" (applySet sets d)
              <> bson.lookup "properties" d
           /\ bson.lookup "geometry" (applySet sets d)
              = Some (bson.marshalGeometry
                        (Feature_Geometry (movedFeature sampleID)))
           /\ bson.lookup "geometry" (applySet sets d)
              <> bson.lookup "geometry" d).
Proof.
  split; [reflexivity|]. split; [reflexivity|].
  destruct (updateLocation_sets_only_properties_and_geometry NewResponseWriter
              putMoved sampleID (movedFeature primitive.NilObjectID)
              (answerOf twoDocuments) eq_refl eq_refl)
    as (sets & Hcalls & Hdom & Hset & _ & _ & Hfirst).
  exists sets. split; [exact Hcalls|]. split; [exact Hdom|]. split.
  - apply (Hfirst twoDocuments [storedDocument 7 otherFeature]
             (storedDocument sampleID (set_Type "Feature" (sampleFeature sampleID)))
             []).
    + reflexivity.
    + constructor; [|constructor]. discriminate.
    + reflexivity.
  - cbv zeta.
    destruct (Hset (storedDocument sampleID
                      (set_Type "Feature" (sampleFeature sampleID))))
      as (Hi & Ht & Hp & Hg & _).
    rewrite Hi, Ht, Hp, Hg. split_and!; try reflexivity; discriminate.
Defined.

(** ** The CORS middleware *)

(** C7: for a request with method OPTIONS the middleware returns at
    once, whatever handler it wraps: the response is 200 with exactly
    the three CORS headers and an empty body, no call is made on the
    collection, which therefore stays as it was; the same holds for each
    route SetupRouter registers. *)
Theorem corsMiddleware_OPTIONS_short_circuits (next : HandlerFunc) (r : Request) :
  Method r = "OPTIONS" ->
  exists w' : ResponseWriter,
    api.corsMiddleware next NewResponseWriter r = Return w'
    /\ response w'
       = {| StatusCode := 200;
            ResponseHeader :=
              {[ "Access-Control-Allow-Origin" := "*";
                 "Access-Control-Allow-Methods" := "GET, POST, PUT, DELETE, OPTIONS";
                 "Access-Control-Allow-Headers" :=
                   "Content-Type, Authorization, X-Requested-With" ]};
            ResponseBody := [] |}
    /\ (forall answer : Oracle,
          calls answer (api.corsMiddleware next NewResponseWriter r) = [])
    /\ (forall c : Collection,
          handle (api.corsMiddleware next) r c = (response w', c))
    /\ Forall (fun route =>
                 api.serve api.SetupRouter route NewResponseWriter r = Return w')
         (api.routes api.SetupRouter).
Proof.
  intros Hm.
  set (w' := WriteHeader StatusOK
               (Header_Set "Access-Control-Allow-Headers"
                  "Content-Type, Authorization, X-Requested-With"
                  (Header_Set "Access-Control-Allow-Methods"
                     "GET, POST, PUT, DELETE, OPTIONS"
                     (Header_Set "Access-Control-Allow-Origin" "*"
                        NewResponseWriter)))).
  exists w'.
  assert (Heq : forall h, api.corsMiddleware h NewResponseWriter r = Return w').
  { intros h. unfold api.corsMiddleware. rewrite Hm. reflexivity. }
  split_and!.
  - apply Heq.
  - reflexivity.
  - intros answer. by rewrite Heq.
  - intros c. unfold handle. by rewrite Heq.
  - repeat constructor; apply Heq.
Qed.

Lemma corsMiddleware_OPTIONS_short_circuits_witness :
  Method optionsLocations = "OPTIONS"
  /\ exists w' : ResponseWriter,
       api.corsMiddleware api.createLocation NewResponseWriter optionsLocations
       = Return w'
       /\ response w'
          = {| StatusCode := 200; ResponseHeader := corsHeader; ResponseBody := [] |}.
Proof.
  split; [reflexivity|].
  destruct (corsMiddleware_OPTIONS_short_circuits api.createLocation
              optionsLocations eq_refl) as (w' & Hret & Hresp & _).
  exists w'. by split.
Defined.

(** ** Undecodable bodies *)

(** C8: when decoding the request body into a LocationFeature fails,
    Create and Update make no call on the collection and answer 400; run
    against a collection, they leave it as it was. *)
Theorem undecodable_body_answers_400_without_store_call
    (r : Request) (err : error) (c : Collection) :
  Decode (Body r) zeroFeature = inl err ->
  (forall (w : ResponseWriter) (answer : Oracle),
      calls answer (api.createLocation w r) = []
      /\ calls answer (api.updateLocation w r) = [])
  /\ StatusCode (handle api.createLocation r c).1 = 400%nat
  /\ (handle api.createLocation r c).2 = c
  /\ StatusCode (handle api.updateLocation r c).1 = 400%nat
  /\ (handle api.updateLocation r c).2 = c.
Proof.
  intros Hdec.
  assert (Hupd : forall w, exists t,
             api.updateLocation w r = Return (Error (jsonWriter w) t StatusBadRequest)).
  { intros w. destruct (primitive.ObjectIDFromHex (idParam r)) as [e|id] eqn:Hid.
    - eexists. apply (updateLocation_invalid_id _ _ _ Hid).
    - eexists. apply (updateLocation_undecodable _ _ _ _ Hid Hdec). }
  split_and!.
  - intros w answer. rewrite (createLocation_undecodable _ _ _ Hdec).
    destruct (Hupd w) as [t ->]. done.
  - unfold handle. by rewrite (createLocation_undecodable _ _ _ Hdec).
  - unfold handle. by rewrite (createLocation_undecodable _ _ _ Hdec).
  - unfold handle. destruct (Hupd NewResponseWriter) as [t ->]. done.
  - unfold handle. destruct (Hupd NewResponseWriter) as [t ->]. done.
Qed.

(** An identifier of ten characters that is not written in twelve
    bytes is refused, by Create and by Update alike; the same
    identifier written in twelve bytes is accepted, and Create stores
    the feature under it. *)
Lemma undecodable_body_answers_400_without_store_call_witness :
  Decode (Body putTenCharacters) zeroFeature = inl ErrInvalidHex
  /\ StatusCode (handle api.createLocation putTenCharacters oneDocument).1 = 400%nat
  /\ (handle api.createLocation putTenCharacters oneDocument).2 = oneDocument
  /\ StatusCode (handle api.updateLocation putTenCharacters oneDocument).1 = 400%nat
  /\ (handle api.updateLocation putTenCharacters oneDocument).2 = oneDocument.
Proof.
  split; [reflexivity|].
  apply (undecodable_body_answers_400_without_store_call putTenCharacters
           ErrInvalidHex oneDocument eq_refl).
Defined.

Lemma createLocation_twelve_byte_id :
  StatusCode (handle api.createLocation postTwelveBytes oneDocument).1 = 200%nat
  /\ docs (handle api.createLocation postTwelveBytes oneDocument).2
     = docs oneDocument
       ++ [storedDocument (primitive.fromBytes 0 (json.quoted "0123456789"))
             (set_Type "Feature" zeroFeature)].
Proof. by split. Qed.

(** ** Content-Type *)

Section ContentType.

Implicit Types (w : ResponseWriter) (r : Request) (answer : Oracle).

Lemma contentType_Error w t code :
  wroteHeader w = None -> Nat.eqb code 200 = false ->
  contentTypeByStatus (response (Error w t code)).
Proof.
  intros Hw Hcode. unfold contentTypeByStatus.
  rewrite (response_Error _ _ _ Hw). simpl. rewrite Hcode.
  rewrite lookup_insert_ne by done. apply lookup_insert_eq.
Qed.

Lemma contentType_Encode w v :
  wroteHeader w = None ->
  contentTypeByStatus (response (Encode (jsonWriter w) v)).
Proof.
  intros Hw. unfold contentTypeByStatus.
  rewrite response_Encode by done. simpl. apply lookup_insert_eq.
Qed.

Lemma createLocation_contentType w r answer :
  wroteHeader w = None ->
  contentTypeByStatus (response (result answer (api.createLocation w r))).
Proof.
  intros Hw. destruct (Decode (Body r) zeroFeature) as [err|feature] eqn:Hdec.
  - rewrite (createLocation_undecodable _ _ _ Hdec). by apply contentType_Error.
  - rewrite (createLocation_decoded _ _ _ Hdec). cbn [result].
    destruct (answer _ _); cbn [result].
    + by apply contentType_Error.
    + by apply contentType_Encode.
Qed.

Lemma getLocations_contentType w r answer :
  wroteHeader w = None ->
  contentTypeByStatus (response (result answer (api.getLocations w r))).
Proof.
  intros Hw. unfold api.getLocations. cbn [mbind IO_mbind IO_bind call result].
  destruct (answer _ (Find _ _)) as [err|cursor]; cbn [result IO_bind mret IO_mret].
  - by apply contentType_Error.
  - destruct (answer _ (All _ _ _)) as [err|features]; cbn [result IO_bind].
    + by apply contentType_Error.
    + by apply contentType_Encode.
Qed.

Lemma updateLocation_contentType w r answer :
  wroteHeader w = None ->
  contentTypeByStatus (response (result answer (api.updateLocation w r))).
Proof.
  intros Hw. destruct (primitive.ObjectIDFromHex (idParam r)) as [e|id] eqn:Hid.
  { rewrite (updateLocation_invalid_id _ _ _ Hid). by apply contentType_Error. }
  destruct (Decode (Body r) zeroFeature) as [err|feature] eqn:Hdec.
  - rewrite (updateLocation_undecodable _ _ _ _ Hid Hdec). by apply contentType_Error.
  - rewrite (updateLocation_decoded _ _ _ _ Hid Hdec). cbn [result].
    destruct (answer _ _); cbn [result].
    + by apply contentType_Error.
    + by apply contentType_Encode.
Qed.

Lemma deleteLocation_contentType w r answer :
  wroteHeader w = None ->
  contentTypeByStatus (response (result answer (api.deleteLocation w r))).
Proof.
  intros Hw. destruct (primitive.ObjectIDFromHex (idParam r)) as [e|id] eqn:Hid.
  { rewrite (deleteLocation_invalid_id _ _ _ Hid). by apply contentType_Error. }
  rewrite (deleteLocation_valid_id _ _ _ Hid). cbn [result].
  destruct (answer _ _) as [err|res]; cbn [result].
  - by apply contentType_Error.
  - destruct (Z.eqb (DeletedCount res) 0); cbn [result].
    + by apply contentType_Error.
    + by apply contentType_Encode.
Qed.

End ContentType.

(** C9, as stated, fails: the preflight response carries no
    Content-Type at all, and the 400, 404 and 500 responses, written by
    http.Error, carry text/plain; charset=utf-8. *)
Lemma content_type_is_not_always_json :
  ResponseHeader
    (handle (api.corsMiddleware api.getLocations) optionsLocations emptyCollection).1
    !! "Content-Type" = None
  /\ (let resp := (handle (api.corsMiddleware api.deleteLocation) deleteBadID
                     emptyCollection).1 in
      StatusCode resp = 400%nat
      /\ ResponseHeader resp !! "Content-Type" = Some "text/plain; charset=utf-8")
  /\ (let resp := (handle (api.corsMiddleware api.deleteLocation) deleteSample
                     emptyCollection).1 in
      StatusCode resp = 404%nat
      /\ ResponseHeader resp !! "Content-Type" = Some "text/plain; charset=utf-8")
  /\ (let resp := (handle (api.corsMiddleware api.createLocation) postWithID
                     oneDocument).1 in
      StatusCode resp = 500%nat
      /\ ResponseHeader resp !! "Content-Type" = Some "text/plain; charset=utf-8").
Proof. repeat split; vm_compute; reflexivity. Qed.

(** C9, amended: for each route SetupRouter registers, served through
    the middleware, the response to a request that is not OPTIONS carries
    Content-Type: application/json when its status is 200 and
    text/plain; charset=utf-8 otherwise; the response to OPTIONS carries
    no Content-Type. *)
Theorem content_type_follows_status :
  Forall (fun route =>
            forall (r : Request) (answer : Oracle),
              let resp :=
                response (result answer
                            (api.serve api.SetupRouter route NewResponseWriter r)) in
              ResponseHeader resp !! "Content-Type"
              = if String.eqb (Method r) "OPTIONS" then None
                else if Nat.eqb (StatusCode resp) 200 then Some "application/json"
                else Some "text/plain; charset=utf-8")
    (api.routes api.SetupRouter).
Proof.
  repeat constructor; intros r answer;
    unfold api.serve; cbn [foldr api.middlewares api.SetupRouter api.Handler];
    unfold api.corsMiddleware;
    (destruct (String.eqb (Method r) "OPTIONS"); [reflexivity|]).
  - by apply getLocations_contentType.
  - by apply createLocation_contentType.
  - by apply updateLocation_contentType.
  - by apply deleteLocation_contentType.
Qed.

(** ** The body Update sends back *)

Section UpdateEcho.

Implicit Types (r : Request) (id : primitive.ObjectID) (feature : LocationFeature).
Implicit Types (c : Collection).

Lemma keepsIdAndType_all (ds : list bson.D) : Forall2 keepsIdAndType ds ds.
Proof. induction ds; constructor; [by split | done]. Qed.

Lemma handle_update_response r id feature c :
  primitive.ObjectIDFromHex (idParam r) = inr id ->
  Decode (Body r) zeroFeature = inr feature ->
  (handle api.updateLocation r c).1
  = {| StatusCode := StatusOK;
       ResponseHeader := jsonHeader;
       ResponseBody := [Encoded (jsonFeature feature)] |}.
Proof.
  intros Hid Hdec. unfold handle.
  rewrite (updateLocation_decoded _ _ _ _ Hid Hdec).
  cbn [run exec]. unfold updateOne. rewrite lookup_singleton_eq.
  destruct (updateFirst _ _ (docs c)) as [[ds changed]|]; cbn [run fst];
    rewrite response_Encode by reflexivity;
    by rewrite (encodeFeature_finite _ (Decode_finite _ _ Hdec)).
Qed.

Lemma handle_update_keeps r id feature c :
  primitive.ObjectIDFromHex (idParam r) = inr id ->
  Decode (Body r) zeroFeature = inr feature ->
  Forall2 keepsIdAndType (docs c) (docs (handle api.updateLocation r c).2).
Proof.
  intros Hid Hdec.
  destruct (handle_update_docs r id feature c Hid Hdec)
    as [->|(pre & d & post & Hc & -> & _)].
  - apply keepsIdAndType_all.
  - rewrite Hc. apply Forall2_app; [apply keepsIdAndType_all|].
    constructor; [|apply keepsIdAndType_all].
    split; by apply applySet_other.
Qed.

End UpdateEcho.

(** C10: for a valid id and a decodable body, Update answers 200 with
    the decoded request body as JSON: its "type" is the decoded Type,
    which is the string the body gave for "type" (nothing forces it to
    "Feature"), and its "id" is the decoded ID in hex: the identifier the
    body gave, or 000000000000000000000000 when the body has no "id"
    member.  Every stored document meanwhile keeps its _id and its
    type. *)
Theorem updateLocation_echoes_decoded_body
    (r : Request) (id : primitive.ObjectID) (feature : LocationFeature)
    (c : Collection) :
  primitive.ObjectIDFromHex (idParam r) = inr id ->
  Decode (Body r) zeroFeature = inr feature ->
  StatusCode (handle api.updateLocation r c).1 = 200%nat
  /\ ResponseBody (handle api.updateLocation r c).1
     = [Encoded
          (json.Object
             [("id", json.Str (primitive.Hex (Feature_ID feature)));
              ("type", json.Str (Feature_Type feature));
              ("properties",
               json.Object
                 [("name", json.Str (Properties_Name (Feature_Properties feature)));
                  ("description",
                   json.Str (Properties_Description (Feature_Properties feature)))]);
              ("geometry",
               json.Object
                 [("type", json.Str (Geometry_Type (Feature_Geometry feature)));
                  ("coordinates",
                   jsonCoordinates (Geometry_Coordinates (Feature_Geometry feature)))])])]
  /\ (forall ms t,
        Body r = FirstValue (json.Object ms) -> named "type" ms = [json.Str t] ->
        Feature_Type feature = t)
  /\ (forall ms s i,
        Body r = FirstValue (json.Object ms) -> named "id" ms = [json.Str s] ->
        primitive.ObjectIDFromHex s = inr i ->
        Feature_ID feature = i)
  /\ (forall ms,
        Body r = FirstValue (json.Object ms) -> named "id" ms = [] ->
        primitive.Hex (Feature_ID feature) = "000000000000000000000000")
  /\ Forall2 (fun d d' =>
                bson.lookup "_id" d' = bson.lookup "_id" d
                /\ bson.lookup "type" d' = bson.lookup "type" d)
       (docs c) (docs (handle api.updateLocation r c).2).
Proof.
  intros Hid Hdec. rewrite (handle_update_response _ _ _ _ Hid Hdec). split_and!.
  - reflexivity.
  - reflexivity.
  - intros ms t Hbody Hn. rewrite Hbody in Hdec.
    by apply (Decode_type ms t _ Hdec).
  - intros ms s i Hbody Hn Hs. rewrite Hbody in Hdec.
    by apply (Decode_id ms s i _ Hdec Hn).
  - intros ms Hbody Hn. rewrite Hbody in Hdec.
    by rewrite (Decode_no_id _ _ Hdec Hn).
  - by apply (handle_update_keeps _ id feature).
Qed.

Lemma updateLocation_echoes_decoded_body_witness :
  primitive.ObjectIDFromHex (idParam putSample) = inr sampleID
  /\ Decode (Body putSample) zeroFeature = inr (sampleFeature primitive.NilObjectID)
  /\ Feature_Type (sampleFeature primitive.NilObjectID) = "Bogus"
  /\ primitive.Hex (Feature_ID (sampleFeature primitive.NilObjectID))
     = "000000000000000000000000"
  /\ StatusCode (handle api.updateLocation putSample oneDocument).1 = 200%nat
  /\ Forall2 keepsIdAndType (docs oneDocument)
       (docs (handle api.updateLocation putSample oneDocument).2).
Proof.
  split_and!; try reflexivity;
    apply (updateLocation_echoes_decoded_body putSample sampleID
             (sampleFeature primitive.NilObjectID) oneDocument eq_refl eq_refl).
Defined.

Example update_sample_stored_type :
  bson.lookup "type" <$> docs (handle api.updateLocation putSample oneDocument).2
  = [Some (bson.Str "Feature")]
  /\ idOf <$> docs (handle api.updateLocation putSample oneDocument).2
     = [Some (bson.OID sampleID)].
Proof. split; vm_compute; reflexivity. Qed.


(** ** Unique identifiers are kept

    Whatever request is served on whatever route, a collection whose
    documents carry pairwise different _ids stays such a collection; the
    empty collection is one. *)

Section UniqueIDs.

Implicit Types (w : ResponseWriter) (r : Request) (c : Collection).

Lemma run_returned {A : Type} (a : A) c : (run (Return a) c).2 = c.
Proof. reflexivity. Qed.

Lemma existsb_matches_false id (ds : list bson.D) :
  existsb (matches {[ "_id" := bson.OID id ]}) ds = false ->
  Some (bson.OID id) ∉ idOf <$> ds.
Proof.
  induction ds as [|d ds IH]; simpl; intros H; [by intros ?%elem_of_nil|].
  apply orb_false_iff in H as [Hd Hds].
  intros [Heq|Hin]%elem_of_cons; [|by apply IH].
  symmetry in Heq. apply matches_id in Heq. congruence.
Qed.

Lemma createLocation_uniqueIDs w r c :
  uniqueIDs (docs c) -> uniqueIDs (docs (run (api.createLocation w r) c).2).
Proof.
  intros Hu. destruct (Decode (Body r) zeroFeature) as [err|feature] eqn:Hdec.
  { by rewrite (createLocation_undecodable _ _ _ Hdec). }
  rewrite (createLocation_decoded _ _ _ Hdec). cbn [run exec].
  rewrite insertOne_spec. cbv zeta.
  destruct (existsb _ (docs c)) eqn:E; cbn [run snd docs]; [done|].
  unfold uniqueIDs. rewrite fmap_app. apply NoDup_app. split_and!; [done| |].
  - intros x Hx [->|[]%elem_of_nil]%elem_of_cons.
    by apply (existsb_matches_false _ _ E).
  - apply NoDup_singleton.
Qed.

Lemma getLocations_unchanged w r c : (run (api.getLocations w r) c).2 = c.
Proof.
  unfold api.getLocations. cbn [mbind IO_mbind IO_bind call run exec].
  by destruct (unmarshalAll _).
Qed.

Lemma applySet_idOf feature (d : bson.D) :
  idOf (applySet (setOf feature) d) = idOf d.
Proof. by apply applySet_other. Qed.

Lemma updateLocation_uniqueIDs w r c :
  uniqueIDs (docs c) -> uniqueIDs (docs (run (api.updateLocation w r) c).2).
Proof.
  intros Hu. destruct (primitive.ObjectIDFromHex (idParam r)) as [e|id] eqn:Hid.
  { by rewrite (updateLocation_invalid_id _ _ _ Hid). }
  destruct (Decode (Body r) zeroFeature) as [err|feature] eqn:Hdec.
  { by rewrite (updateLocation_undecodable _ _ _ _ Hid Hdec). }
  destruct (run_update_docs w r id feature c Hid Hdec)
    as [->|(pre & d & post & Hc & -> & _)]; [done|].
  unfold uniqueIDs in *. rewrite Hc in Hu.
  rewrite fmap_app, fmap_cons in Hu |- *. by rewrite applySet_idOf.
Qed.

Lemma deleteLocation_uniqueIDs w r c :
  uniqueIDs (docs c) -> uniqueIDs (docs (run (api.deleteLocation w r) c).2).
Proof.
  intros Hu. destruct (primitive.ObjectIDFromHex (idParam r)) as [e|id] eqn:Hid.
  { by rewrite (deleteLocation_invalid_id _ _ _ Hid). }
  rewrite (deleteLocation_valid_id _ _ _ Hid). cbn [run exec]. unfold deleteOne.
  destruct (deleteFirst _ (docs c)) as [ds|] eqn:E; cbn [run snd docs]; [|done].
  by destruct (uniqueIDs_deleted _ _ _ Hu E).
Qed.

(** X18: whatever request is served on whatever route, a collection
    whose documents carry pairwise different _ids stays one: Create
    refuses an identifier that is stored, Update never writes _id, and
    Delete only removes. *)
Lemma routes_keep_uniqueIDs :
  Forall (fun route =>
            forall r c,
              uniqueIDs (docs c) ->
              uniqueIDs (docs (handle (api.serve api.SetupRouter route) r c).2))
    (api.routes api.SetupRouter).
Proof.
  repeat constructor; intros r c Hu; rewrite handle_snd;
    unfold api.serve; cbn [foldr api.middlewares api.SetupRouter api.Handler];
    unfold api.corsMiddleware;
    (destruct (String.eqb (Method r) "OPTIONS"); [done|]).
  - by rewrite getLocations_unchanged.
  - by apply createLocation_uniqueIDs.
  - by apply updateLocation_uniqueIDs.
  - by apply deleteLocation_uniqueIDs.
Qed.

Example emptyCollection_uniqueIDs : uniqueIDs (docs emptyCollection).
Proof. constructor. Qed.

End UniqueIDs.

(** ** Identifiers and their hex form

    Hex and ObjectIDFromHex are inverse on the 96-bit identifiers. *)

Section HexForm.

Lemma fromHexChar_hexDigit (d : N) :
  d < 16 -> primitive.fromHexChar (primitive.hexDigit d) = Some d.
Proof.
  intros H.
  assert (Hd : d = 0 \/ d = 1 \/ d = 2 \/ d = 3 \/ d = 4 \/ d = 5 \/ d = 6
               \/ d = 7 \/ d = 8 \/ d = 9 \/ d = 10 \/ d = 11 \/ d = 12
               \/ d = 13 \/ d = 14 \/ d = 15) by lia.
  repeat (destruct Hd as [->|Hd]; [reflexivity|]). by subst.
Qed.

Lemma hexDecode_app (s1 s2 : string) : forall acc,
  primitive.hexDecode acc (s1 +:+ s2)
  = match primitive.hexDecode acc s1 with
    | Some a => primitive.hexDecode a s2
    | None => None
    end.
Proof.
  induction s1 as [|ch s1 IH]; simpl; intros acc; [done|].
  by destruct (primitive.fromHexChar ch).
Qed.

Lemma hexDecode_hexEncode (k : nat) : forall n acc,
  n < 16 ^ N.of_nat k ->
  primitive.hexDecode acc (primitive.hexEncode k n)
  = Some (acc * 16 ^ N.of_nat k + n).
Proof.
  induction k as [|k IH]; intros n acc Hn.
  - simpl in *. f_equal. lia.
  - rewrite Nat2N.inj_succ, N.pow_succ_r' in *.
    cbn [primitive.hexEncode]. rewrite hexDecode_app.
    rewrite IH by (apply N.Div0.div_lt_upper_bound; lia).
    cbn [primitive.hexDecode].
    rewrite fromHexChar_hexDigit by (apply N.mod_lt; lia).
    f_equal. pose proof (N.Div0.div_mod n 16). lia.
Qed.

Lemma length_append (s1 s2 : string) :
  String.length (s1 +:+ s2) = (String.length s1 + String.length s2)%nat.
Proof. induction s1 as [|ch s1 IH]; simpl; [done|]. by rewrite IH. Qed.

Lemma length_hexEncode (k : nat) (n : N) :
  String.length (primitive.hexEncode k n) = k.
Proof.
  revert n. induction k as [|k IH]; intros n; [done|].
  cbn [primitive.hexEncode]. rewrite length_append, IH. simpl. lia.
Qed.

Lemma ObjectIDFromHex_Hex (id : primitive.ObjectID) :
  id < 2 ^ 96 -> primitive.ObjectIDFromHex (primitive.Hex id) = inr id.
Proof.
  intros H. unfold primitive.ObjectIDFromHex, primitive.Hex.
  rewrite length_hexEncode. simpl Nat.eqb. cbv iota.
  rewrite hexDecode_hexEncode; [done|].
  change (16 ^ N.of_nat 24) with (2 ^ 96). exact H.
Qed.

Example foldName_long_s : json.foldName "PROPERTIEſ" = "properties".
Proof. reflexivity. Qed.

Example foldName_kelvin : json.foldName "K" = "k".
Proof. reflexivity. Qed.

End HexForm.

(** * Further properties *)

(** ** Start-up *)

Section Startup.

Import startup.

Implicit Types (e : Env) (g : Globals).

(** The run of initDB when it has not run yet. *)
Lemma initDB_first e g :
  dbOnce g = false ->
  exec e (initDB g)
  = let uri := environ e "MONGO_URI" in
    let ctx := WithTimeout 10 in
    if String.eqb uri "" then
      ([anyOp GodotenvLoad; anyOp (Getenv "MONGO_URI");
        anyOp (LogFatal [Lit "❌ MONGO_URI environment variable tidak ditemukan. Silakan set di .env atau environment"])],
       None)
    else
      match connects e uri with
      | inl err =>
          ([anyOp GodotenvLoad; anyOp (Getenv "MONGO_URI"); anyOp (Connect ctx uri);
            anyOp (LogFatal [Lit "Gagal connect DB:"; ErrorString err])],
           None)
      | inr client =>
          let coll := {| ofClient := client; Database := "gis_db"; Name := "locations" |} in
          ([anyOp GodotenvLoad; anyOp (Getenv "MONGO_URI"); anyOp (Connect ctx uri);
            anyOp (IndexesCreateOne coll ctx {[ "geometry" := bson.Str "2dsphere" ]});
            anyOp (LogPrintln [Lit "✅ Connected to MongoDB!"])],
           Some {| collection := Some coll; dbOnce := true |})
      end.
Proof.
  intros Hg. unfold initDB, Once_Do. rewrite Hg. cbv zeta.
  cbn [mbind Proc_mbind Proc_bind do exec answer].
  destruct (String.eqb (environ e "MONGO_URI") "");
    cbn [mbind Proc_mbind Proc_bind do exec answer]; [done|].
  destruct (connects e (environ e "MONGO_URI")) as [err|client];
    cbn [mbind Proc_mbind Proc_bind do exec answer]; reflexivity.
Qed.

End Startup.

(** X1: once initDB has returned, calling it again performs no
    operation at all and leaves the package variables as they are, in
    whatever environment the later call runs. *)
Theorem initDB_runs_once
    (e e' : startup.Env) (g g' : startup.Globals) (ops : list startup.AnyOp) :
  startup.exec e (startup.initDB g) = (ops, Some g') ->
  startup.dbOnce g' = true
  /\ startup.exec e' (startup.initDB g') = ([], Some g').
Proof.
  intros Hrun.
  assert (Hdone : startup.dbOnce g' = true).
  { destruct (startup.dbOnce g) eqn:Hg.
    - unfold startup.initDB, startup.Once_Do in Hrun. rewrite Hg in Hrun.
      by injection Hrun as <- <-.
    - rewrite (initDB_first _ _ Hg) in Hrun. cbv zeta in Hrun.
      destruct (String.eqb _ ""); [discriminate|].
      destruct (startup.connects e _); [discriminate|].
      by injection Hrun as <- <-. }
  split; [done|].
  unfold startup.initDB, startup.Once_Do. by rewrite Hdone.
Qed.

Lemma initDB_runs_once_witness :
  exists ops g',
    startup.exec goodEnv (startup.initDB startup.zeroGlobals) = (ops, Some g')
    /\ startup.exec noURIEnv (startup.initDB g') = ([], Some g').
Proof.
  eexists _, _. split; [reflexivity|].
  apply (initDB_runs_once goodEnv noURIEnv startup.zeroGlobals _ _ eq_refl).
Defined.

(** X2: a first initDB exits the process exactly when MONGO_URI is
    empty or the connection fails; with an empty MONGO_URI it never
    tries to connect; and when the connection succeeds it returns with
    collection bound to gis_db.locations of that client, whether or not
    the index could be created. *)
Theorem initDB_first_run (e : startup.Env) (g : startup.Globals) :
  startup.dbOnce g = false ->
  let uri := startup.environ e "MONGO_URI" in
  let run := startup.exec e (startup.initDB g) in
  (run.2 = None <-> uri = "" \/ exists err, startup.connects e uri = inl err)
  /\ (uri = "" -> startup.connected run.1 = false)
  /\ (forall client,
        uri <> "" -> startup.connects e uri = inr client ->
        run.2 = Some {| startup.collection :=
                          Some {| startup.ofClient := client;
                                  startup.Database := "gis_db";
                                  startup.Name := "locations" |};
                        startup.dbOnce := true |}).
Proof.
  intros Hg uri run. subst run. rewrite (initDB_first _ _ Hg). cbv zeta.
  fold uri. destruct (String.eqb_spec uri "") as [Hu|Hu].
  - split_and!; [split; [by left|done] | done | done].
  - destruct (startup.connects e uri) as [err|client] eqn:Hc; split_and!.
    + split; [right; by exists err | done].
    + done.
    + intros client _ [=].
    + split; [done|]. intros [?|[err [=]]]; done.
    + done.
    + by intros client' _ [= <-].
Qed.

Lemma initDB_first_run_witness :
  startup.dbOnce startup.zeroGlobals = false
  /\ (startup.exec goodEnv (startup.initDB startup.zeroGlobals)).2
     = Some {| startup.collection :=
                 Some {| startup.ofClient := 1%nat;
                         startup.Database := "gis_db";
                         startup.Name := "locations" |};
               startup.dbOnce := true |}
  /\ (startup.exec noURIEnv (startup.initDB startup.zeroGlobals)).2 = None.
Proof.
  split; [reflexivity|]. split.
  - destruct (initDB_first_run goodEnv startup.zeroGlobals eq_refl) as (_ & _ & H).
    apply (H 1%nat); [done|reflexivity].
  - destruct (initDB_first_run noURIEnv startup.zeroGlobals eq_refl) as (H & _).
    apply H. by left.
Defined.

(** ** The shape of every response *)

Section Shapes.

Implicit Types (w : ResponseWriter) (r : Request) (answer : Oracle).

Lemma shape_Error w t code codes :
  wroteHeader w = None -> code ∈ codes ->
  handlerResponse w codes (response (Error (jsonWriter w) t code)).
Proof.
  intros Hw Hin. left. exists code, t. split; [done|].
  by rewrite response_Error.
Qed.

Lemma shape_Encode w v codes :
  wroteHeader w = None ->
  handlerResponse w codes (response (Encode (jsonWriter w) v)).
Proof.
  intros Hw. right. eexists. by rewrite response_Encode.
Qed.

Lemma createLocation_shape w r answer :
  wroteHeader w = None ->
  handlerResponse w [400; 500]%nat (response (result answer (api.createLocation w r))).
Proof.
  intros Hw. destruct (Decode (Body r) zeroFeature) as [err|feature] eqn:Hdec.
  - rewrite (createLocation_undecodable _ _ _ Hdec).
    apply shape_Error; [done|set_solver].
  - rewrite (createLocation_decoded _ _ _ Hdec). cbn [result].
    destruct (answer _ _); cbn [result].
    + apply shape_Error; [done|set_solver].
    + by apply shape_Encode.
Qed.

Lemma getLocations_shape w r answer :
  wroteHeader w = None ->
  handlerResponse w [500]%nat (response (result answer (api.getLocations w r))).
Proof.
  intros Hw. unfold api.getLocations. cbn [mbind IO_mbind IO_bind call result].
  destruct (answer _ (Find _ _)) as [err|cursor]; cbn [result IO_bind mret IO_mret].
  - apply shape_Error; [done|set_solver].
  - destruct (answer _ (All _ _ _)) as [err|features]; cbn [result IO_bind].
    + apply shape_Error; [done|set_solver].
    + by apply shape_Encode.
Qed.

Lemma updateLocation_shape w r answer :
  wroteHeader w = None ->
  handlerResponse w [400; 500]%nat (response (result answer (api.updateLocation w r))).
Proof.
  intros Hw. destruct (primitive.ObjectIDFromHex (idParam r)) as [e|id] eqn:Hid.
  { rewrite (updateLocation_invalid_id _ _ _ Hid). apply shape_Error; [done|set_solver]. }
  destruct (Decode (Body r) zeroFeature) as [err|feature] eqn:Hdec.
  - rewrite (updateLocation_undecodable _ _ _ _ Hid Hdec).
    apply shape_Error; [done|set_solver].
  - rewrite (updateLocation_decoded _ _ _ _ Hid Hdec). cbn [result].
    destruct (answer _ _); cbn [result].
    + apply shape_Error; [done|set_solver].
    + by apply shape_Encode.
Qed.

Lemma deleteLocation_shape w r answer :
  wroteHeader w = None ->
  handlerResponse w [400; 404; 500]%nat
    (response (result answer (api.deleteLocation w r))).
Proof.
  intros Hw. destruct (primitive.ObjectIDFromHex (idParam r)) as [e|id] eqn:Hid.
  { rewrite (deleteLocation_invalid_id _ _ _ Hid). apply shape_Error; [done|set_solver]. }
  rewrite (deleteLocation_valid_id _ _ _ Hid). cbn [result].
  destruct (answer _ _) as [err|res]; cbn [result].
  - apply shape_Error; [done|set_solver].
  - destruct (Z.eqb (DeletedCount res) 0); cbn [result].
    + apply shape_Error; [done|set_solver].
    + by apply shape_Encode.
Qed.

(** The writer the middleware hands to the wrapped handler. *)
Lemma serve_not_OPTIONS (route : api.Route) r :
  String.eqb (Method r) "OPTIONS" = false ->
  exists w,
    api.serve api.SetupRouter route NewResponseWriter r = api.Handler route w r
    /\ wroteHeader w = None /\ written w = [] /\ Header w = corsHeader.
Proof.
  intros Hm. eexists. unfold api.serve.
  cbn [foldr api.middlewares api.SetupRouter]. unfold api.corsMiddleware.
  rewrite Hm. split_and!; reflexivity.
Qed.

Lemma serve_OPTIONS (route : api.Route) r answer :
  String.eqb (Method r) "OPTIONS" = true ->
  served route r answer
  = {| StatusCode := 200; ResponseHeader := corsHeader; ResponseBody := [] |}.
Proof.
  intros Hm. unfold served, api.serve.
  cbn [foldr api.middlewares api.SetupRouter]. unfold api.corsMiddleware.
  by rewrite Hm.
Qed.

Lemma carriesCORS_corsHeader : carriesCORS corsHeader.
Proof. split_and!; reflexivity. Qed.

Lemma carriesCORS_json (h : gmap string string) :
  carriesCORS h -> carriesCORS (<["Content-Type" := "application/json"]> h).
Proof.
  intros (H1 & H2 & H3). split_and!; by rewrite lookup_insert_ne.
Qed.

Lemma carriesCORS_afterError (h : gmap string string) :
  carriesCORS h -> carriesCORS (afterError h).
Proof.
  intros (H1 & H2 & H3). unfold afterError.
  split_and!; by rewrite !lookup_insert_ne, lookup_delete_ne.
Qed.

Lemma handlerResponse_CORS w codes resp :
  carriesCORS (Header w) -> handlerResponse w codes resp ->
  carriesCORS (ResponseHeader resp).
Proof.
  intros Hw [(code & t & _ & ->)|(body & ->)]; simpl.
  - by apply carriesCORS_afterError, carriesCORS_json.
  - by apply carriesCORS_json.
Qed.

Lemma handlerResponse_status w codes resp :
  handlerResponse w codes resp -> StatusCode resp ∈ (200%nat :: codes).
Proof.
  intros [(code & t & Hin & ->)|(body & ->)]; simpl; set_solver.
Qed.

(** Each route's handler, on a writer that has written nothing. *)
Lemma routes_shape :
  Forall (fun route =>
            exists codes,
              forall w r answer,
                wroteHeader w = None ->
                handlerResponse w codes
                  (response (result answer (api.Handler route w r))))
    (api.routes api.SetupRouter).
Proof.
  repeat constructor.
  - exists [500%nat]. apply getLocations_shape.
  - exists [400; 500]%nat. apply createLocation_shape.
  - exists [400; 500]%nat. apply updateLocation_shape.
  - exists [400; 404; 500]%nat. apply deleteLocation_shape.
Qed.

End Shapes.

(** X3: every response served through the middleware carries the three
    CORS headers, the 400, 404 and 500 responses included: http.Error
    and the handlers' own Content-Type leave them in place. *)
Theorem every_response_carries_CORS :
  Forall (fun route =>
            forall (r : Request) (answer : Oracle),
              carriesCORS (ResponseHeader (served route r answer)))
    (api.routes api.SetupRouter).
Proof.
  eapply Forall_impl; [apply routes_shape|].
  intros route (codes & Hshape) r answer.
  destruct (String.eqb (Method r) "OPTIONS") eqn:Hm.
  - rewrite (serve_OPTIONS _ _ _ Hm). apply carriesCORS_corsHeader.
  - destruct (serve_not_OPTIONS route r Hm) as (w & Heq & Hw & _ & Hh).
    unfold served. rewrite Heq.
    eapply handlerResponse_CORS; [|by apply Hshape].
    rewrite Hh. apply carriesCORS_corsHeader.
Qed.

(** X4: the statuses each route can answer, whatever the request and
    whatever the store returns: List 200 or 500; Create and Update 200,
    400 or 500; Delete 200, 400, 404 or 500.  So only Delete ever
    answers 404, and List never blames the client. *)
Theorem statuses_by_route (r : Request) (answer : Oracle) :
  StatusCode (served listRoute r answer) ∈ [200; 500]%nat
  /\ StatusCode (served createRoute r answer) ∈ [200; 400; 500]%nat
  /\ StatusCode (served updateRoute r answer) ∈ [200; 400; 500]%nat
  /\ StatusCode (served deleteRoute r answer) ∈ [200; 400; 404; 500]%nat.
Proof.
  destruct (String.eqb (Method r) "OPTIONS") eqn:Hm.
  { rewrite !(serve_OPTIONS _ _ _ Hm). simpl. set_solver. }
  split_and!.
  - destruct (serve_not_OPTIONS listRoute r Hm) as (w & Heq & Hw & _).
    unfold served. rewrite Heq.
    apply (handlerResponse_status w), getLocations_shape, Hw.
  - destruct (serve_not_OPTIONS createRoute r Hm) as (w & Heq & Hw & _).
    unfold served. rewrite Heq.
    apply (handlerResponse_status w), createLocation_shape, Hw.
  - destruct (serve_not_OPTIONS updateRoute r Hm) as (w & Heq & Hw & _).
    unfold served. rewrite Heq.
    apply (handlerResponse_status w), updateLocation_shape, Hw.
  - destruct (serve_not_OPTIONS deleteRoute r Hm) as (w & Heq & Hw & _).
    unfold served. rewrite Heq.
    apply (handlerResponse_status w), deleteLocation_shape, Hw.
Qed.

Example routes_of_SetupRouter :
  api.routes api.SetupRouter = [listRoute; createRoute; updateRoute; deleteRoute].
Proof. reflexivity. Qed.

(** ** Invalid identifiers *)

(** X5: when the id of the path is not 24 hex digits (or is missing),
    Update and Delete answer 400 "Invalid ID format" before looking at
    the body and without any call on the collection, which stays as it
    was. *)
Theorem invalid_id_answers_400_without_store_call
    (r : Request) (err : error) (c : Collection) :
  primitive.ObjectIDFromHex (idParam r) = inl err ->
  (forall (w : ResponseWriter) (answer : Oracle),
      calls answer (api.updateLocation w r) = []
      /\ calls answer (api.deleteLocation w r) = [])
  /\ handle api.updateLocation r c
     = ({| StatusCode := 400;
           ResponseHeader := afterError jsonHeader;
           ResponseBody := [Println (Lit "Invalid ID format")] |}, c)
  /\ handle api.deleteLocation r c
     = ({| StatusCode := 400;
           ResponseHeader := afterError jsonHeader;
           ResponseBody := [Println (Lit "Invalid ID format")] |}, c).
Proof.
  intros Hid. split_and!.
  - intros w answer.
    by rewrite (updateLocation_invalid_id _ _ _ Hid), (deleteLocation_invalid_id _ _ _ Hid).
  - unfold handle. by rewrite (updateLocation_invalid_id _ _ _ Hid).
  - unfold handle. by rewrite (deleteLocation_invalid_id _ _ _ Hid).
Qed.

Lemma invalid_id_answers_400_without_store_call_witness :
  primitive.ObjectIDFromHex (idParam deleteBadID) = inl ErrInvalidHex
  /\ handle api.deleteLocation deleteBadID oneDocument
     = ({| StatusCode := 400;
           ResponseHeader := afterError jsonHeader;
           ResponseBody := [Println (Lit "Invalid ID format")] |}, oneDocument).
Proof.
  split; [reflexivity|].
  apply (invalid_id_answers_400_without_store_call deleteBadID ErrInvalidHex
           oneDocument eq_refl).
Defined.

Lemma ObjectIDFromHex_length (s : string) (id : primitive.ObjectID) :
  primitive.ObjectIDFromHex s = inr id -> String.length s = 24%nat.
Proof.
  unfold primitive.ObjectIDFromHex.
  destruct (Nat.eqb_spec (String.length s) 24); [done|discriminate].
Qed.

Example missing_id_is_invalid :
  primitive.ObjectIDFromHex (idParam getAll) = inl ErrInvalidHex.
Proof. reflexivity. Qed.

(** ** Deleting, document by document *)

Section DeleteFrame.

Implicit Types (d : bson.D) (ds pre post : list bson.D) (filter : bson.M).

Lemma deleteFirst_Some_first filter ds ds' :
  deleteFirst filter ds = Some ds' ->
  exists pre d post,
    ds = pre ++ d :: post /\ ds' = pre ++ post /\ matches filter d = true
    /\ Forall (fun d => matches filter d = false) pre.
Proof.
  revert ds'. induction ds as [|d ds IH]; simpl; intros ds' H; [done|].
  destruct (matches filter d) eqn:E.
  - injection H as <-. by exists [], d, ds.
  - destruct (deleteFirst filter ds) as [ds''|]; [|done].
    injection H as <-.
    destruct (IH ds'' eq_refl) as (pre & d0 & post & -> & -> & Hm & Hpre).
    exists (d :: pre), d0, post. split_and!; [done|done|done|by constructor].
Qed.

Lemma matches_id_false_inv id d :
  matches {[ "_id" := bson.OID id ]} d = false -> idOf d <> Some (bson.OID id).
Proof. intros H Hid. apply matches_id in Hid. congruence. Qed.

Lemma deleteFirst_app_last filter ds d :
  Forall (fun d => matches filter d = false) ds -> matches filter d = true ->
  deleteFirst filter (ds ++ [d]) = Some ds.
Proof.
  induction 1 as [|d0 ds Hd0 _ IH]; simpl; intros Hd.
  - by rewrite Hd.
  - by rewrite Hd0, (IH Hd).
Qed.

End DeleteFrame.

(** X6: Delete changes the collection by at most one document: either
    nothing changes, or the id is valid and the first document carrying
    it is taken out, every other document staying where it was; the
    identifier counter is never touched. *)
Theorem deleteLocation_removes_only_the_match (r : Request) (c : Collection) :
  nextID (handle api.deleteLocation r c).2 = nextID c
  /\ ((handle api.deleteLocation r c).2 = c
      \/ exists id pre d post,
           primitive.ObjectIDFromHex (idParam r) = inr id
           /\ docs c = pre ++ d :: post
           /\ docs (handle api.deleteLocation r c).2 = pre ++ post
           /\ idOf d = Some (bson.OID id)
           /\ Forall (fun d' => idOf d' <> Some (bson.OID id)) pre).
Proof.
  destruct (primitive.ObjectIDFromHex (idParam r)) as [err|id] eqn:Hid.
  { unfold handle. rewrite (deleteLocation_invalid_id _ _ _ Hid). by split; [|left]. }
  destruct (deleteFirst {[ "_id" := bson.OID id ]} (docs c)) as [ds|] eqn:Hds.
  - rewrite (handle_delete_found _ _ _ _ Hid Hds). split; [done|]. right.
    apply deleteFirst_Some_first in Hds as (pre & d & post & Hc & -> & Hm & Hpre).
    exists id, pre, d, post. split_and!; [done|done|done|by apply matches_id|].
    eapply Forall_impl; [exact Hpre|]. cbv beta. intros d' Hd'.
    exact (matches_id_false_inv id d' Hd').
  - rewrite (handle_delete_missing _ _ _ Hid Hds). by split; [|left].
Qed.

(** ** What Create answers and stores *)

Section CreateOutcomes.

Implicit Types (r : Request) (c : Collection) (feature : LocationFeature).

Lemma existsb_matches_true id (ds : list bson.D) :
  existsb (matches {[ "_id" := bson.OID id ]}) ds = true ->
  Some (bson.OID id) ∈ idOf <$> ds.
Proof.
  induction ds as [|d ds IH]; simpl; [done|].
  intros [Hd|Hds]%orb_true_iff.
  - apply matches_id in Hd. rewrite <- Hd. apply list_elem_of_here.
  - apply list_elem_of_further. by apply IH.
Qed.

Lemma handle_create_decoded r feature c :
  Decode (Body r) zeroFeature = inr feature ->
  handle api.createLocation r c
  = if existsb (matches {[ "_id" := bson.OID (assignedID feature c) ]}) (docs c) then
      ({| StatusCode := 500;
          ResponseHeader := afterError jsonHeader;
          ResponseBody := [Println (ErrorString duplicateKey)] |},
       {| docs := docs c; nextID := nextAfter feature c |})
    else
      ({| StatusCode := 200;
          ResponseHeader := jsonHeader;
          ResponseBody := [Encoded (insertedBody (assignedID feature c))] |},
       {| docs := docs c
                  ++ [storedDocument (assignedID feature c) (set_Type "Feature" feature)];
          nextID := nextAfter feature c |}).
Proof.
  intros Hdec. unfold handle. rewrite (createLocation_decoded _ _ _ Hdec).
  cbn [run exec]. rewrite insertOne_spec. cbv zeta.
  change (assignedID (set_Type "Feature" feature) c) with (assignedID feature c).
  destruct (existsb _ (docs c)); reflexivity.
Qed.

End CreateOutcomes.

(** X7: what Create does with a body that decodes to [feature]: if a
    document is already stored under the identifier the record would
    get, it answers 500 and stores nothing; otherwise it answers 200
    with {"InsertedID": <that identifier in hex>} and appends one
    document, which carries that _id, type "Feature" and the decoded
    properties and geometry.  Documents already stored are never
    changed. *)
Theorem createLocation_outcomes
    (r : Request) (feature : LocationFeature) (c : Collection) :
  Decode (Body r) zeroFeature = inr feature ->
  let id := if primitive.IsZero (Feature_ID feature) then nextID c
            else Feature_ID feature in
  let out := handle api.createLocation r c in
  (stores c id ->
     StatusCode out.1 = 500%nat /\ docs out.2 = docs c)
  /\ (~ stores c id ->
        out.1 = {| StatusCode := 200;
                   ResponseHeader := {[ "Content-Type" := "application/json" ]};
                   ResponseBody :=
                     [Encoded (json.Object
                                 [("InsertedID", json.Str (primitive.Hex id))])] |}
        /\ docs out.2
           = docs c
             ++ [[("_id", bson.OID id);
                  ("type", bson.Str "Feature");
                  ("properties", bson.marshalProperties (Feature_Properties feature));
                  ("geometry", bson.marshalGeometry (Feature_Geometry feature))]]).
Proof.
  intros Hdec id out. subst out. rewrite (handle_create_decoded _ _ _ Hdec).
  fold (assignedID feature c) in id. subst id.
  destruct (existsb _ (docs c)) eqn:E; split.
  - done.
  - intros Hno. exfalso. apply Hno. by apply existsb_matches_true.
  - intros Hst. exfalso. by apply (existsb_matches_false _ _ E).
  - done.
Qed.

Lemma createLocation_outcomes_witness :
  Decode (Body postWithID) zeroFeature = inr (sampleFeature sampleID)
  /\ StatusCode (handle api.createLocation postWithID oneDocument).1 = 500%nat
  /\ docs (handle api.createLocation postWithID oneDocument).2 = docs oneDocument
  /\ StatusCode (handle api.createLocation postWithID emptyCollection).1 = 200%nat.
Proof.
  split; [reflexivity|].
  destruct (createLocation_outcomes postWithID (sampleFeature sampleID) oneDocument
              eq_refl) as [Hdup _].
  destruct (createLocation_outcomes postWithID (sampleFeature sampleID) emptyCollection
              eq_refl) as [_ Hnew].
  split_and!.
  - apply Hdup. apply list_elem_of_here.
  - apply Hdup. apply list_elem_of_here.
  - rewrite (proj1 (Hnew ltac:(by intros ?%elem_of_nil))). reflexivity.
Defined.

(** ** Identifiers stay in range *)

Section Ranges.

Lemma fromHexChar_lt (ch : ascii) (d : N) :
  primitive.fromHexChar ch = Some d -> d < 16.
Proof.
  unfold primitive.fromHexChar. intros H.
  repeat match type of H with
         | context [if ?b then _ else _] => destruct b eqn:?
         end; try discriminate H; injection H as <-;
    repeat match goal with
           | Hb : (_ && _) = true |- _ => apply andb_true_iff in Hb as [? ?]
           end;
    repeat match goal with
           | Hb : (_ <=? _) = true |- _ => apply N.leb_le in Hb
           end; lia.
Qed.

Lemma hexDecode_lt (s : string) : forall acc n,
  primitive.hexDecode acc s = Some n ->
  n < (acc + 1) * 16 ^ N.of_nat (String.length s).
Proof.
  induction s as [|ch s IH]; intros acc n H.
  - simpl in *. injection H as <-. lia.
  - cbn [primitive.hexDecode] in H.
    destruct (primitive.fromHexChar ch) as [d|] eqn:Hd; [|done].
    apply IH in H. apply fromHexChar_lt in Hd.
    cbn [String.length]. rewrite Nat2N.inj_succ, N.pow_succ_r'.
    eapply N.lt_le_trans; [exact H|]. nia.
Qed.

Lemma ObjectIDFromHex_inRange (s : string) (id : primitive.ObjectID) :
  primitive.ObjectIDFromHex s = inr id -> inRange id.
Proof.
  intros H. pose proof (ObjectIDFromHex_length _ _ H) as Hlen.
  unfold primitive.ObjectIDFromHex in H. rewrite Hlen in H. simpl in H.
  destruct (primitive.hexDecode 0 s) as [n|] eqn:Hn; [|done].
  injection H as <-. apply hexDecode_lt in Hn. rewrite Hlen in Hn.
  unfold inRange. exact Hn.
Qed.

Lemma fromJSONString_inRange (s : string) (id : primitive.ObjectID) :
  primitive.fromJSONString s = inr id -> inRange id.
Proof.
  unfold primitive.fromJSONString.
  destruct (Nat.eqb (String.length s) 0).
  - intros [= <-]. unfold inRange, primitive.NilObjectID. lia.
  - apply ObjectIDFromHex_inRange.
Qed.

Lemma fromBytes_lt (b : string) : forall acc,
  primitive.fromBytes acc b < (acc + 1) * 256 ^ N.of_nat (String.length b).
Proof.
  induction b as [|ch b IH]; intros acc.
  - simpl. lia.
  - cbn [primitive.fromBytes String.length].
    rewrite Nat2N.inj_succ, N.pow_succ_r'.
    pose proof (N_ascii_bounded ch) as Hch.
    eapply N.lt_le_trans; [apply IH|]. nia.
Qed.

Lemma fromValue_inRange (v : json.Value) (id : primitive.ObjectID) :
  primitive.fromValue v = inr id -> inRange id.
Proof.
  unfold primitive.fromValue.
  destruct (json.strip v) as [| | |s| |ms|]; try discriminate.
  - apply fromJSONString_inRange.
  - destruct (primitive.lastMember "$oid" ms) as [oid|]; [|discriminate].
    destruct (json.strip oid) as [| | |s| | |]; try discriminate.
    apply fromJSONString_inRange.
Qed.

Lemma UnmarshalJSON_inRange (v : json.Value) (cur id : primitive.ObjectID) :
  primitive.UnmarshalJSON v cur = inr id -> inRange cur -> inRange id.
Proof.
  unfold primitive.UnmarshalJSON. intros H Hcur.
  assert (Hother :
    match json.text v with
    | Some txt =>
        if Nat.eqb (String.length txt) 12 then inr (primitive.fromBytes 0 txt)
        else primitive.fromValue v
    | None => primitive.fromValue v
    end = inr id -> inRange id).
  { destruct (json.text v) as [txt|]; [|apply fromValue_inRange].
    destruct (Nat.eqb (String.length txt) 12) eqn:Eb; [|apply fromValue_inRange].
    intros [= <-]. apply Nat.eqb_eq in Eb.
    pose proof (fromBytes_lt txt 0) as Hlt. rewrite Eb in Hlt.
    unfold inRange. exact Hlt. }
  destruct (json.strip v); [by injection H as <-|by apply Hother..].
Qed.

Lemma storeFeatureMembers_inRange (ms : list (string * json.Value)) :
  forall cur behind f behind',
  storeFeatureMembers ms cur behind = inr (f, behind') ->
  inRange (Feature_ID cur) -> inRange (Feature_ID f).
Proof.
  induction ms as [|[k v] ms IH]; simpl; intros cur behind f behind' H Hcur.
  - by injection H as <- <-.
  - destruct (String.eqb (json.foldName k) "id").
    { destruct (primitive.UnmarshalJSON v (Feature_ID cur)) as [e|id] eqn:E;
        simpl in H; [discriminate|].
      apply (IH _ _ _ _ H). simpl. by apply (UnmarshalJSON_inRange v (Feature_ID cur)). }
    destruct (String.eqb (json.foldName k) "type").
    { destruct (storeString v (Feature_Type cur)); simpl in H; [discriminate|].
      by apply (IH _ _ _ _ H). }
    destruct (String.eqb (json.foldName k) "properties").
    { destruct (storeProperties v (Feature_Properties cur)); simpl in H; [discriminate|].
      by apply (IH _ _ _ _ H). }
    destruct (String.eqb (json.foldName k) "geometry").
    { destruct (storeGeometry v (Feature_Geometry cur) behind) as [e|[g b]];
        simpl in H; [discriminate|].
      by apply (IH _ _ _ _ H). }
    by apply (IH _ _ _ _ H).
Qed.

(** A decoded identifier fits the twelve bytes. *)
Lemma Decode_inRange (body : RequestBody) (f : LocationFeature) :
  Decode body zeroFeature = inr f -> inRange (Feature_ID f).
Proof.
  assert (H0 : inRange (Feature_ID zeroFeature)).
  { unfold inRange. simpl. unfold primitive.NilObjectID. lia. }
  intros H. destruct (Decode_inr _ _ H) as [->|(v & ms & b & _ & _ & Hms)]; [done|].
  by apply (storeFeatureMembers_inRange _ _ _ _ _ Hms).
Qed.

End Ranges.

(** ** Create, then Delete with the returned identifier *)

(** X8: the InsertedID that a successful Create returns is accepted as
    the id of the path by Delete, which then answers 200 and takes out
    exactly the document Create added: the collection holds the same
    documents as before the Create.  (The generated identifiers are
    taken to fit twelve bytes.) *)
Theorem create_then_delete_restores
    (r : Request) (feature : LocationFeature) (c : Collection) :
  Decode (Body r) zeroFeature = inr feature ->
  inRange (nextID c) ->
  StatusCode (handle api.createLocation r c).1 = 200%nat ->
  exists hex : string,
    ResponseBody (handle api.createLocation r c).1
    = [Encoded (json.Object [("InsertedID", json.Str hex)])]
    /\ forall r' : Request,
         idParam r' = hex ->
         let out := handle api.deleteLocation r' (handle api.createLocation r c).2 in
         out.1 = {| StatusCode := 200;
                    ResponseHeader := {[ "Content-Type" := "application/json" ]};
                    ResponseBody :=
                      [Encoded (json.Object
                                  [("message",
                                    json.Str "Location deleted successfully")])] |}
         /\ docs out.2 = docs c.
Proof.
  intros Hdec Hnext. rewrite (handle_create_decoded _ _ _ Hdec).
  destruct (existsb _ (docs c)) eqn:E; [discriminate|]. intros _.
  exists (primitive.Hex (assignedID feature c)). split; [reflexivity|].
  intros r' Hr' out. subst out.
  assert (Hid : primitive.ObjectIDFromHex (idParam r') = inr (assignedID feature c)).
  { rewrite Hr'. apply ObjectIDFromHex_Hex. unfold assignedID.
    destruct (primitive.IsZero _); [exact Hnext|]. by apply (Decode_inRange (Body r)). }
  cbn [snd].
  rewrite (handle_delete_found r' _ _ (docs c) Hid); [done|].
  cbn [docs]. apply deleteFirst_app_last.
  - clear -E. induction (docs c) as [|d ds IH]; [constructor|].
    simpl in E. apply orb_false_iff in E as [Hd Hds]. constructor; [done|by apply IH].
  - by apply matches_id.
Qed.

Lemma create_then_delete_restores_witness :
  Decode (Body postWithoutID) zeroFeature = inr (sampleFeature primitive.NilObjectID)
  /\ inRange (nextID oneDocument)
  /\ exists hex : string,
       ResponseBody (handle api.createLocation postWithoutID oneDocument).1
       = [Encoded (json.Object [("InsertedID", json.Str hex)])]
       /\ docs (handle api.deleteLocation (requestFor "DELETE" hex Unreadable)
                  (handle api.createLocation postWithoutID oneDocument).2).2
          = docs oneDocument.
Proof.
  split; [reflexivity|]. split; [reflexivity|].
  destruct (create_then_delete_restores postWithoutID
              (sampleFeature primitive.NilObjectID) oneDocument eq_refl eq_refl eq_refl)
    as (hex & Hbody & Hdel).
  exists hex. split; [exact Hbody|].
  apply (Hdel (requestFor "DELETE" hex Unreadable)).
  unfold idParam, requestFor. simpl. by rewrite lookup_singleton_eq.
Defined.

(** ** Stored documents and the features they decode to *)

Section Listing.

Implicit Types (d : bson.D) (ds : list bson.D) (f : LocationFeature).
Implicit Types (fs : list LocationFeature) (c : Collection) (r : Request).

Lemma unmarshalDoubles_map (l : list float64) :
  unmarshalDoubles (map bson.Double l) = inr l.
Proof. induction l as [|x l IH]; simpl; [done|]. by rewrite IH. Qed.

Lemma unmarshalProperties_marshal (p : Properties) :
  unmarshalProperties (Some (bson.marshalProperties p)) = inr p.
Proof. by destruct p. Qed.

Lemma unmarshalGeometry_marshal (g : Geometry) :
  unmarshalGeometry (Some (bson.marshalGeometry g)) = inr g.
Proof.
  destruct g as [t [l|]]; simpl; [|done]. by rewrite unmarshalDoubles_map.
Qed.

(** What is stored for a struct decodes to that struct, under the
    identifier it was stored with. *)
Lemma unmarshalFeature_stored id f :
  unmarshalFeature (storedDocument id f) = inr (set_ID id f).
Proof.
  unfold unmarshalFeature, storedDocument. cbn [bson.lookup String.eqb Ascii.eqb Bool.eqb].
  simpl bson.lookup.
  rewrite unmarshalProperties_marshal, unmarshalGeometry_marshal. reflexivity.
Qed.

Lemma holds_stored id f :
  finiteCoordinates (Feature_Geometry f) -> holds (storedDocument id f) (set_ID id f).
Proof. intros Hf. split_and!; [apply unmarshalFeature_stored|done|done]. Qed.

Lemma listable_unmarshalAll ds fs : listable ds fs -> unmarshalAll ds = inr fs.
Proof.
  induction 1 as [|d f ds fs (Hd & _ & _) _ IH]; simpl; [done|].
  by rewrite Hd, IH.
Qed.

Lemma listable_finite ds fs :
  listable ds fs -> Forall (fun f => finiteCoordinates (Feature_Geometry f)) fs.
Proof. induction 1 as [|d f ds fs (_ & _ & Hf) _ IH]; by constructor. Qed.

Lemma encodeFeatureElems_finite fs :
  Forall (fun f => finiteCoordinates (Feature_Geometry f)) fs ->
  encodeFeatureElems fs = inr (map jsonFeature fs).
Proof.
  induction 1 as [|f fs Hf _ IH]; simpl; [done|].
  by rewrite (encodeFeature_finite _ Hf), IH.
Qed.

Lemma filter_matches_empty ds : List.filter (matches ∅) ds = ds.
Proof.
  induction ds as [|d ds IH]; simpl; [done|]. by rewrite matches_empty, IH.
Qed.

(** getLocations of package api, run against the collection. *)
Lemma run_api_getLocations (w : ResponseWriter) r c :
  run (api.getLocations w r) c
  = (match unmarshalAll (docs c) with
     | inl e => Error (jsonWriter w) (ErrorString e) StatusInternalServerError
     | inr decoded =>
         Encode (jsonWriter w)
           (encodeFeatureCollection
              {| Collection_Type := "FeatureCollection";
                 Collection_Features := allInto (Some []) decoded |})
     end, c).
Proof.
  unfold api.getLocations. cbn [mbind IO_mbind IO_bind call run exec].
  rewrite filter_matches_empty. by destruct (unmarshalAll (docs c)).
Qed.

(** getLocations of the stand-alone program. *)
Lemma run_standalone_getLocations (w : ResponseWriter) r c :
  run (standalone.getLocations w r) c
  = (match unmarshalAll (docs c) with
     | inl e => Error (jsonWriter w) (ErrorString e) StatusInternalServerError
     | inr decoded =>
         Encode (jsonWriter w)
           (encodeFeatureCollection
              {| Collection_Type := "FeatureCollection";
                 Collection_Features := allInto None decoded |})
     end, c).
Proof.
  unfold standalone.getLocations. cbn [mbind IO_mbind IO_bind call run exec].
  rewrite filter_matches_empty. by destruct (unmarshalAll (docs c)).
Qed.

Lemma allInto_made fs : allInto (Some []) fs = Some fs.
Proof. by destruct fs. Qed.

Lemma handle_getLocations_listable r c fs :
  listable (docs c) fs ->
  handle api.getLocations r c
  = ({| StatusCode := 200;
        ResponseHeader := jsonHeader;
        ResponseBody := [Encoded (listBody fs)] |}, c).
Proof.
  intros Hl. unfold handle. rewrite run_api_getLocations.
  rewrite (listable_unmarshalAll _ _ Hl), allInto_made.
  unfold encodeFeatureCollection, encodeFeatures. cbn [Collection_Features].
  rewrite (encodeFeatureElems_finite _ (listable_finite _ _ Hl)). reflexivity.
Qed.

End Listing.

(** X9: List never changes the collection, whatever it holds.  When
    the stored documents decode, to the features fs, and none of these
    carries NaN or an infinity, it answers 200 with a FeatureCollection
    whose features are the JSON of fs, one per document and in the
    store's order. *)
Theorem getLocations_lists_what_is_stored (r : Request) (c : Collection) :
  (handle api.getLocations r c).2 = c
  /\ forall fs : list LocationFeature,
       unmarshalAll (docs c) = inr fs ->
       Forall (fun f => finiteCoordinates (Feature_Geometry f)) fs ->
       (handle api.getLocations r c).1
       = {| StatusCode := 200;
            ResponseHeader := {[ "Content-Type" := "application/json" ]};
            ResponseBody :=
              [Encoded (json.Object
                          [("type", json.Str "FeatureCollection");
                           ("features", json.Array (map jsonFeature fs))])] |}.
Proof.
  split.
  - rewrite handle_snd. apply getLocations_unchanged.
  - intros fs Hall Hfin. unfold handle. rewrite run_api_getLocations.
    rewrite Hall, allInto_made.
    unfold encodeFeatureCollection, encodeFeatures. cbn [Collection_Features].
    rewrite (encodeFeatureElems_finite _ Hfin). reflexivity.
Qed.

(** A collection whose first document has nulls for its fields: the
    listing shows it with the zero values, then the sample feature. *)
Lemma getLocations_lists_what_is_stored_witness :
  (handle api.getLocations getAll withNulls).2 = withNulls
  /\ unmarshalAll (docs withNulls)
     = inr [set_ID 7 zeroFeature; set_Type "Feature" (sampleFeature sampleID)]
  /\ ResponseBody (handle api.getLocations getAll withNulls).1
     = [Encoded (listBody [set_ID 7 zeroFeature;
                           set_Type "Feature" (sampleFeature sampleID)])].
Proof.
  destruct (getLocations_lists_what_is_stored getAll withNulls) as [Hc Hl].
  split; [exact Hc|]. split; [reflexivity|].
  rewrite (Hl [set_ID 7 zeroFeature; set_Type "Feature" (sampleFeature sampleID)]
             eq_refl).
  - reflexivity.
  - repeat constructor.
Defined.

(** ** Listing after a change *)

Section ListAfter.

Implicit Types (d : bson.D) (ds : list bson.D) (f new : LocationFeature).
Implicit Types (fs : list LocationFeature) (c : Collection) (r : Request).
Implicit Types (id : primitive.ObjectID).

Lemma holds_matches d f id :
  holds d f -> matches {[ "_id" := bson.OID id ]} d = N.eqb (Feature_ID f) id.
Proof.
  intros (_ & Hid & _). destruct (N.eqb_spec (Feature_ID f) id) as [<-|Hne].
  - by apply matches_id.
  - apply matches_id_false. rewrite Hid. by intros [= ?].
Qed.

Lemma holds_applySet d f new :
  finiteCoordinates (Feature_Geometry new) ->
  holds d f -> holds (applySet (setOf new) d) (updatedWith new f).
Proof.
  intros Hnew (Hd & Hid & _). split_and!; [|by rewrite applySet_idOf|done].
  unfold unmarshalFeature in *.
  rewrite !lookup_applySet, setOf_properties, setOf_geometry.
  rewrite !setOf_other by done.
  rewrite unmarshalProperties_marshal, unmarshalGeometry_marshal.
  destruct (bson.lookup "_id" d) as [[| | |i| |]|]; simpl in *; try discriminate;
    destruct (unmarshalString (bson.lookup "type" d)) as [e|t]; simpl in *;
    try discriminate;
    destruct (unmarshalProperties (bson.lookup "properties" d)) as [e|p]; simpl in *;
    try discriminate;
    destruct (unmarshalGeometry (bson.lookup "geometry" d)) as [e|g]; simpl in *;
    try discriminate;
    by injection Hd as <-.
Qed.

Lemma listable_updateFirst id new ds fs :
  finiteCoordinates (Feature_Geometry new) ->
  listable ds fs ->
  match updateFirst {[ "_id" := bson.OID id ]} (setOf new) ds with
  | Some (ds', _) => listable ds' (updateFirstFeature id new fs)
  | None => updateFirstFeature id new fs = fs
  end.
Proof.
  intros Hnew. induction 1 as [|d f ds fs Hd Hl IH]; simpl; [done|].
  rewrite (holds_matches _ _ id Hd).
  destruct (N.eqb (Feature_ID f) id).
  - constructor; [by apply holds_applySet|done].
  - destruct (updateFirst _ _ ds) as [[ds' ch]|].
    + by constructor.
    + by rewrite IH.
Qed.

Lemma listable_deleteFirst id ds fs :
  listable ds fs ->
  match deleteFirst {[ "_id" := bson.OID id ]} ds with
  | Some ds' => listable ds' (removeFirstFeature id fs)
  | None => removeFirstFeature id fs = fs
  end.
Proof.
  induction 1 as [|d f ds fs Hd Hl IH]; simpl; [done|].
  rewrite (holds_matches _ _ id Hd).
  destruct (N.eqb (Feature_ID f) id); [done|].
  destruct (deleteFirst _ ds) as [ds'|].
  - by constructor.
  - by rewrite IH.
Qed.

Lemma listable_after_update r id new c fs :
  primitive.ObjectIDFromHex (idParam r) = inr id ->
  Decode (Body r) zeroFeature = inr new ->
  listable (docs c) fs ->
  listable (docs (handle api.updateLocation r c).2) (updateFirstFeature id new fs).
Proof.
  intros Hid Hdec Hl. rewrite handle_snd.
  rewrite (updateLocation_decoded _ _ _ _ Hid Hdec).
  cbn [run exec]. unfold updateOne. rewrite lookup_singleton_eq.
  pose proof (listable_updateFirst id new _ _ (Decode_finite _ _ Hdec) Hl) as H.
  destruct (updateFirst _ _ (docs c)) as [[ds ch]|]; cbn [run snd docs].
  - done.
  - by rewrite H.
Qed.

Lemma listable_after_delete r id c fs :
  primitive.ObjectIDFromHex (idParam r) = inr id ->
  listable (docs c) fs ->
  listable (docs (handle api.deleteLocation r c).2) (removeFirstFeature id fs).
Proof.
  intros Hid Hl. pose proof (listable_deleteFirst id _ _ Hl) as H.
  destruct (deleteFirst _ (docs c)) as [ds|] eqn:Hds.
  - by rewrite (handle_delete_found _ _ _ _ Hid Hds).
  - rewrite (handle_delete_missing _ _ _ Hid Hds). by rewrite H.
Qed.

Lemma listable_after_create r new c fs :
  Decode (Body r) zeroFeature = inr new ->
  listable (docs c) fs ->
  StatusCode (handle api.createLocation r c).1 = 200%nat ->
  listable (docs (handle api.createLocation r c).2)
    (fs ++ [set_ID (assignedID new c) (set_Type "Feature" new)]).
Proof.
  intros Hdec Hl. rewrite (handle_create_decoded _ _ _ Hdec).
  destruct (existsb _ (docs c)); [discriminate|]. intros _. cbn [snd docs].
  apply Forall2_app; [done|]. constructor; [|constructor].
  apply holds_stored. apply (Decode_finite _ _ Hdec).
Qed.

End ListAfter.

(** X10: after a successful Create, List shows what it showed before
    followed by the new feature: the decoded properties and geometry,
    type "Feature", and as id the identifier Create reported (the
    decoded one, or a generated one when that is zero). *)
Theorem create_then_list
    (r r' : Request) (new : LocationFeature) (c : Collection)
    (fs : list LocationFeature) :
  Decode (Body r) zeroFeature = inr new ->
  listable (docs c) fs ->
  StatusCode (handle api.createLocation r c).1 = 200%nat ->
  let id := if primitive.IsZero (Feature_ID new) then nextID c else Feature_ID new in
  (handle api.getLocations r' (handle api.createLocation r c).2).1
  = {| StatusCode := 200;
       ResponseHeader := {[ "Content-Type" := "application/json" ]};
       ResponseBody :=
         [Encoded
            (json.Object
               [("type", json.Str "FeatureCollection");
                ("features",
                 json.Array
                   (map jsonFeature fs
                    ++ [jsonFeature
                          {| Feature_ID := id;
                             Feature_Type := "Feature";
                             Feature_Properties := Feature_Properties new;
                             Feature_Geometry := Feature_Geometry new |}]))])] |}.
Proof.
  intros Hdec Hl Hok id.
  rewrite (handle_getLocations_listable _ _ _ (listable_after_create _ _ _ _ Hdec Hl Hok)).
  cbn [fst]. unfold listBody, emptyFeatureCollection. by rewrite map_app.
Qed.

Lemma create_then_list_witness :
  Decode (Body postWithoutID) zeroFeature = inr (sampleFeature primitive.NilObjectID)
  /\ listable (docs emptyCollection) []
  /\ ResponseBody
       (handle api.getLocations getAll
          (handle api.createLocation postWithoutID emptyCollection).2).1
     = [Encoded
          (json.Object
             [("type", json.Str "FeatureCollection");
              ("features",
               json.Array [jsonFeature (set_ID 1 (set_Type "Feature"
                                                    (sampleFeature 0)))])])].
Proof.
  assert (H : listable (docs emptyCollection) []) by constructor.
  split; [reflexivity|]. split; [exact H|].
  rewrite (create_then_list postWithoutID getAll (sampleFeature primitive.NilObjectID)
             emptyCollection [] eq_refl H eq_refl).
  reflexivity.
Defined.

(** X11: after an Update with a valid id and a decodable body, List
    shows the same features in the same order, except that the first
    one with that id now has the properties and geometry of the body; its
    id and type, and every other feature, are as before.  When no
    feature has the id, List shows what it showed before. *)
Theorem update_then_list
    (r r' : Request) (id : primitive.ObjectID) (new : LocationFeature)
    (c : Collection) (fs : list LocationFeature) :
  primitive.ObjectIDFromHex (idParam r) = inr id ->
  Decode (Body r) zeroFeature = inr new ->
  listable (docs c) fs ->
  (handle api.getLocations r' (handle api.updateLocation r c).2).1
  = {| StatusCode := 200;
       ResponseHeader := {[ "Content-Type" := "application/json" ]};
       ResponseBody :=
         [Encoded
            (json.Object
               [("type", json.Str "FeatureCollection");
                ("features",
                 json.Array (map jsonFeature (updateFirstFeature id new fs)))])] |}
  /\ (Forall (fun f => Feature_ID f <> id) fs -> updateFirstFeature id new fs = fs).
Proof.
  intros Hid Hdec Hl. split.
  - by rewrite (handle_getLocations_listable _ _ _
                  (listable_after_update _ _ _ _ _ Hid Hdec Hl)).
  - clear. induction 1 as [|f fs' Hf _ IH]; simpl; [done|].
    apply N.eqb_neq in Hf. by rewrite Hf, IH.
Qed.

(** On the collection of two documents, a PUT for the second one's id
    with other properties and coordinates: the listing before shows the
    sample feature, the listing after shows the new name, description
    and coordinates under the same id and type, and the first feature
    as before. *)
Lemma update_then_list_witness :
  primitive.ObjectIDFromHex (idParam putMoved) = inr sampleID
  /\ Decode (Body putMoved) zeroFeature = inr (movedFeature primitive.NilObjectID)
  /\ listable (docs twoDocuments)
       [otherFeature; set_Type "Feature" (sampleFeature sampleID)]
  /\ ResponseBody (handle api.getLocations getAll twoDocuments).1
     = [Encoded (listBody [otherFeature;
                           set_Type "Feature" (sampleFeature sampleID)])]
  /\ ResponseBody
       (handle api.getLocations getAll
          (handle api.updateLocation putMoved twoDocuments).2).1
     = [Encoded (listBody [otherFeature;
                           set_Type "Feature" (movedFeature sampleID)])]
  /\ ResponseBody
       (handle api.getLocations getAll
          (handle api.updateLocation putMoved twoDocuments).2).1
     <> ResponseBody (handle api.getLocations getAll twoDocuments).1.
Proof.
  assert (H : listable (docs twoDocuments)
                [otherFeature; set_Type "Feature" (sampleFeature sampleID)]).
  { repeat constructor. }
  assert (Hbefore :
    ResponseBody (handle api.getLocations getAll twoDocuments).1
    = [Encoded (listBody [otherFeature;
                          set_Type "Feature" (sampleFeature sampleID)])]).
  { reflexivity. }
  split; [reflexivity|]. split; [reflexivity|]. split; [exact H|].
  split; [exact Hbefore|].
  rewrite Hbefore.
  rewrite (proj1 (update_then_list putMoved getAll sampleID
                    (movedFeature primitive.NilObjectID) twoDocuments _
                    eq_refl eq_refl H)).
  split; [reflexivity|]. discriminate.
Defined.

(** X12: after a Delete with a valid id, List shows the same features
    in the same order without the first one that has the id. *)
Theorem delete_then_list
    (r r' : Request) (id : primitive.ObjectID)
    (c : Collection) (fs : list LocationFeature) :
  primitive.ObjectIDFromHex (idParam r) = inr id ->
  listable (docs c) fs ->
  (handle api.getLocations r' (handle api.deleteLocation r c).2).1
  = {| StatusCode := 200;
       ResponseHeader := {[ "Content-Type" := "application/json" ]};
       ResponseBody :=
         [Encoded
            (json.Object
               [("type", json.Str "FeatureCollection");
                ("features",
                 json.Array (map jsonFeature (removeFirstFeature id fs)))])] |}.
Proof.
  intros Hid Hl.
  by rewrite (handle_getLocations_listable _ _ _ (listable_after_delete _ _ _ _ Hid Hl)).
Qed.

Lemma delete_then_list_witness :
  primitive.ObjectIDFromHex (idParam deleteSample) = inr sampleID
  /\ listable (docs oneDocument) [set_Type "Feature" (sampleFeature sampleID)]
  /\ ResponseBody
       (handle api.getLocations getAll
          (handle api.deleteLocation deleteSample oneDocument).2).1
     = [Encoded (listBody [])].
Proof.
  assert (H : listable (docs oneDocument) [set_Type "Feature" (sampleFeature sampleID)]).
  { repeat constructor. }
  split; [reflexivity|]. split; [exact H|].
  rewrite (delete_then_list deleteSample getAll sampleID oneDocument _ eq_refl H).
  reflexivity.
Defined.

(** ** Listability is kept *)

Section Listable.

Implicit Types (w : ResponseWriter) (r : Request) (c : Collection).

(** What a handler does to the collection does not depend on the
    writer it is given. *)
Lemma createLocation_any_writer w r c :
  (run (api.createLocation w r) c).2 = (handle api.createLocation r c).2.
Proof.
  rewrite handle_snd. destruct (Decode (Body r) zeroFeature) as [e|f] eqn:Hdec.
  - by rewrite !(createLocation_undecodable _ _ _ Hdec).
  - rewrite !(createLocation_decoded _ _ _ Hdec). cbn [run exec].
    by destruct (insertOne _ c) as [[e|res] c'].
Qed.

Lemma updateLocation_any_writer w r c :
  (run (api.updateLocation w r) c).2 = (handle api.updateLocation r c).2.
Proof.
  rewrite handle_snd.
  destruct (primitive.ObjectIDFromHex (idParam r)) as [e|id] eqn:Hid.
  { by rewrite !(updateLocation_invalid_id _ _ _ Hid). }
  destruct (Decode (Body r) zeroFeature) as [e|f] eqn:Hdec.
  - by rewrite !(updateLocation_undecodable _ _ _ _ Hid Hdec).
  - rewrite !(updateLocation_decoded _ _ _ _ Hid Hdec). cbn [run exec].
    by destruct (updateOne _ _ c) as [[e|res] c'].
Qed.

Lemma deleteLocation_any_writer w r c :
  (run (api.deleteLocation w r) c).2 = (handle api.deleteLocation r c).2.
Proof.
  rewrite handle_snd.
  destruct (primitive.ObjectIDFromHex (idParam r)) as [e|id] eqn:Hid.
  { by rewrite !(deleteLocation_invalid_id _ _ _ Hid). }
  rewrite !(deleteLocation_valid_id _ _ _ Hid). cbn [run exec].
  destruct (deleteOne _ c) as [[e|res] c']; [done|].
  by destruct (Z.eqb (DeletedCount res) 0).
Qed.

Lemma createLocation_listable r c fs :
  listable (docs c) fs ->
  exists fs', listable (docs (handle api.createLocation r c).2) fs'.
Proof.
  intros Hl. destruct (Decode (Body r) zeroFeature) as [e|f] eqn:Hdec.
  - exists fs. unfold handle. by rewrite (createLocation_undecodable _ _ _ Hdec).
  - destruct (Nat.eq_dec (StatusCode (handle api.createLocation r c).1) 200%nat) as [Hok|Hno].
    + eexists. exact (listable_after_create _ _ _ _ Hdec Hl Hok).
    + exists fs. rewrite (handle_create_decoded _ _ _ Hdec) in Hno |- *.
      by destruct (existsb _ (docs c)).
Qed.

Lemma updateLocation_listable r c fs :
  listable (docs c) fs ->
  exists fs', listable (docs (handle api.updateLocation r c).2) fs'.
Proof.
  intros Hl. destruct (primitive.ObjectIDFromHex (idParam r)) as [e|id] eqn:Hid.
  { exists fs. unfold handle. by rewrite (updateLocation_invalid_id _ _ _ Hid). }
  destruct (Decode (Body r) zeroFeature) as [e|f] eqn:Hdec.
  - exists fs. unfold handle. by rewrite (updateLocation_undecodable _ _ _ _ Hid Hdec).
  - eexists. exact (listable_after_update _ _ _ _ _ Hid Hdec Hl).
Qed.

Lemma deleteLocation_listable r c fs :
  listable (docs c) fs ->
  exists fs', listable (docs (handle api.deleteLocation r c).2) fs'.
Proof.
  intros Hl. destruct (primitive.ObjectIDFromHex (idParam r)) as [e|id] eqn:Hid.
  { exists fs. unfold handle. by rewrite (deleteLocation_invalid_id _ _ _ Hid). }
  eexists. exact (listable_after_delete _ _ _ _ Hid Hl).
Qed.

Lemma serve_collection (route : api.Route) r c :
  (forall w, (run (api.Handler route w r) c).2 = (handle (api.Handler route) r c).2) ->
  (handle (api.serve api.SetupRouter route) r c).2 = c
  \/ (handle (api.serve api.SetupRouter route) r c).2
     = (handle (api.Handler route) r c).2.
Proof.
  intros Hw. rewrite handle_snd.
  destruct (String.eqb (Method r) "OPTIONS") eqn:Hm.
  - left. unfold api.serve. cbn [foldr api.middlewares api.SetupRouter].
    unfold api.corsMiddleware. by rewrite Hm.
  - right. destruct (serve_not_OPTIONS route r Hm) as (w & -> & _). apply Hw.
Qed.

Lemma serve_listable (route : api.Route) :
  (forall w r c,
      (run (api.Handler route w r) c).2 = (handle (api.Handler route) r c).2) ->
  (forall r c fs,
      listable (docs c) fs ->
      exists fs', listable (docs (handle (api.Handler route) r c).2) fs') ->
  forall (r r' : Request) c (fs : list LocationFeature),
    listable (docs c) fs ->
    exists fs',
      listable (docs (handle (api.serve api.SetupRouter route) r c).2) fs'
      /\ (handle api.getLocations r'
            (handle (api.serve api.SetupRouter route) r c).2).1
         = {| StatusCode := 200;
              ResponseHeader := {[ "Content-Type" := "application/json" ]};
              ResponseBody := [Encoded (listBody fs')] |}.
Proof.
  intros Hw Hkeep r r' c fs Hl.
  assert (Hc : exists fs',
             listable (docs (handle (api.serve api.SetupRouter route) r c).2) fs').
  { destruct (serve_collection route r c (fun w => Hw w r c)) as [Heq|Heq];
      rewrite Heq; [by exists fs | by apply (Hkeep r c fs)]. }
  destruct Hc as [fs' Hl']. exists fs'. split; [done|].
  by rewrite (handle_getLocations_listable _ _ _ Hl').
Qed.

End Listable.

(** X13: whatever request is served on whatever route, if the stored
    documents could be listed before, they can be listed afterwards:
    every document the handlers write decodes back into a feature
    without NaN or infinity.  So List answers 200 after any sequence of
    requests that starts from a listable collection, the empty one for
    instance. *)
Theorem routes_keep_listable :
  Forall (fun route =>
            forall (r r' : Request) (c : Collection) (fs : list LocationFeature),
              listable (docs c) fs ->
              exists fs',
                listable (docs (handle (api.serve api.SetupRouter route) r c).2) fs'
                /\ (handle api.getLocations r'
                      (handle (api.serve api.SetupRouter route) r c).2).1
                   = {| StatusCode := 200;
                        ResponseHeader := {[ "Content-Type" := "application/json" ]};
                        ResponseBody := [Encoded (listBody fs')] |})
    (api.routes api.SetupRouter).
Proof.
  change (api.routes api.SetupRouter)
    with [listRoute; createRoute; updateRoute; deleteRoute].
  repeat constructor; apply serve_listable.
  - intros w r c. cbn [api.Handler listRoute].
    by rewrite handle_snd, !getLocations_unchanged.
  - intros r c fs Hl. exists fs. cbn [api.Handler listRoute].
    by rewrite handle_snd, getLocations_unchanged.
  - apply createLocation_any_writer.
  - apply createLocation_listable.
  - apply updateLocation_any_writer.
  - apply updateLocation_listable.
  - apply deleteLocation_any_writer.
  - apply deleteLocation_listable.
Qed.

(** X14: on a collection that holds at least one document, the
    stand-alone program's getLocations and package api's answer the
    same, status, headers and body; the two differ only on the empty
    collection, where the stand-alone one sends "features":null. *)
Theorem standalone_getLocations_agrees_when_nonempty (r : Request) (c : Collection) :
  docs c <> [] ->
  handle standalone.getLocations r c = handle api.getLocations r c.
Proof.
  intros Hne. unfold handle.
  rewrite run_standalone_getLocations, run_api_getLocations.
  destruct (docs c) as [|d ds]; [done|]. simpl unmarshalAll.
  destruct (unmarshalFeature d) as [e|f]; [done|]. simpl.
  by destruct (unmarshalAll ds).
Qed.

Lemma standalone_getLocations_agrees_when_nonempty_witness :
  docs oneDocument <> []
  /\ handle standalone.getLocations getAll oneDocument
     = handle api.getLocations getAll oneDocument.
Proof.
  assert (H : docs oneDocument <> []) by discriminate.
  split; [exact H|].
  apply (standalone_getLocations_agrees_when_nonempty getAll oneDocument H).
Defined.

(** ** Updating twice *)

Section UpdateTwice.

Implicit Types (d : bson.D) (ds : list bson.D) (sets : bson.M).
Implicit Types (id : primitive.ObjectID) (r : Request) (c : Collection).

Lemma replaceFields_app sets (d1 d2 : bson.D) :
  replaceFields sets (d1 ++ d2) = replaceFields sets d1 ++ replaceFields sets d2.
Proof.
  induction d1 as [|[k v] d1 IH]; simpl; [done|]. by rewrite IH.
Qed.

Lemma replaceFields_twice sets d :
  replaceFields sets (replaceFields sets d) = replaceFields sets d.
Proof.
  induction d as [|[k v] d IH]; simpl; [done|].
  rewrite IH. by destruct (sets !! k).
Qed.

Lemma replaceFields_own sets (l : bson.D) :
  Forall (fun kv => sets !! kv.1 = Some kv.2) l -> replaceFields sets l = l.
Proof.
  induction 1 as [|[k v] l Hkv _ IH]; simpl in *; [done|]. by rewrite Hkv, IH.
Qed.

Lemma absent_fields_own sets d :
  Forall (fun kv => sets !! kv.1 = Some kv.2)
    (map_to_list (filter (fun kv => hasField d kv.1 = false) sets)).
Proof.
  apply Forall_forall. intros [k v] Hin.
  apply elem_of_map_to_list, map_lookup_filter_Some in Hin as [Hin _]. done.
Qed.

Lemma no_absent_fields_after sets d :
  filter (fun kv => hasField (applySet sets d) kv.1 = false) sets = ∅.
Proof.
  apply map_eq. intros k. rewrite lookup_empty.
  apply map_lookup_filter_None. right. intros v Hv. simpl.
  unfold hasField. by rewrite lookup_applySet, Hv.
Qed.

(** Setting the same fields again changes nothing. *)
Lemma applySet_twice sets d : applySet sets (applySet sets d) = applySet sets d.
Proof.
  unfold applySet at 1. rewrite no_absent_fields_after, map_to_list_empty, app_nil_r.
  unfold applySet. rewrite replaceFields_app, replaceFields_twice.
  by rewrite (replaceFields_own _ _ (absent_fields_own sets d)).
Qed.

Lemma updateFirst_twice id sets ds ds' changed :
  sets !! "_id" = None ->
  updateFirst {[ "_id" := bson.OID id ]} sets ds = Some (ds', changed) ->
  exists changed',
    updateFirst {[ "_id" := bson.OID id ]} sets ds' = Some (ds', changed').
Proof.
  intros Hsets. revert ds' changed.
  induction ds as [|d ds IH]; simpl; intros ds' changed H; [done|].
  destruct (matches _ d) eqn:Hm.
  - injection H as <- <-. simpl.
    assert (Hm' : matches {[ "_id" := bson.OID id ]} (applySet sets d) = true).
    { apply matches_id. unfold idOf. rewrite lookup_applySet, Hsets.
      by apply matches_id. }
    rewrite Hm', applySet_twice. by eexists.
  - destruct (updateFirst _ sets ds) as [[ds'' ch]|]; [|done].
    injection H as <- <-. simpl. rewrite Hm.
    destruct (IH _ _ eq_refl) as [ch' ->]. by eexists.
Qed.

Lemma updateLocation_twice_collection r c :
  (handle api.updateLocation r (handle api.updateLocation r c).2).2
  = (handle api.updateLocation r c).2.
Proof.
  rewrite !handle_snd.
  destruct (primitive.ObjectIDFromHex (idParam r)) as [e|id] eqn:Hid.
  { by rewrite !(updateLocation_invalid_id _ _ _ Hid). }
  destruct (Decode (Body r) zeroFeature) as [e|f] eqn:Hdec.
  { by rewrite !(updateLocation_undecodable _ _ _ _ Hid Hdec). }
  rewrite !(updateLocation_decoded _ _ _ _ Hid Hdec).
  cbn [run exec]. unfold updateOne. rewrite lookup_singleton_eq.
  destruct (updateFirst _ _ (docs c)) as [[ds ch]|] eqn:E; cbn [run snd docs nextID].
  - destruct (updateFirst_twice _ _ _ _ _ (setOf_other f "_id" ltac:(done) ltac:(done)) E)
      as [ch' ->]. reflexivity.
  - by rewrite E.
Qed.

Lemma updateLocation_response_any_collection r c c' :
  (handle api.updateLocation r c).1 = (handle api.updateLocation r c').1.
Proof.
  destruct (primitive.ObjectIDFromHex (idParam r)) as [e|id] eqn:Hid.
  { unfold handle. by rewrite !(updateLocation_invalid_id _ _ _ Hid). }
  destruct (Decode (Body r) zeroFeature) as [e|f] eqn:Hdec.
  { unfold handle. by rewrite !(updateLocation_undecodable _ _ _ _ Hid Hdec). }
  by rewrite !(handle_update_response _ _ _ _ Hid Hdec).
Qed.

End UpdateTwice.

(** X15: Update is idempotent: sending the same PUT a second time gets
    the same response and leaves the collection exactly as the first one
    left it. *)
Theorem updateLocation_idempotent (r : Request) (c : Collection) :
  handle api.updateLocation r (handle api.updateLocation r c).2
  = handle api.updateLocation r c.
Proof.
  rewrite (surjective_pairing (handle api.updateLocation r _)).
  rewrite (surjective_pairing (handle api.updateLocation r c)) at 3.
  f_equal.
  - apply updateLocation_response_any_collection.
  - apply updateLocation_twice_collection.
Qed.

(** ** Sending back what the service wrote *)

Section SendingBack.

Implicit Types (f : LocationFeature).

Lemma storeElems_numbers (l : list float64) :
  Forall finite l -> storeElems (map json.Number l) [] = inr (l, []).
Proof.
  induction 1 as [|x l Hx _ IH]; simpl; [done|].
  unfold storeFloat64, finite in *. simpl. rewrite Hx. simpl. by rewrite IH.
Qed.

Lemma storeGeometry_json (g : Geometry) (cur : Geometry) :
  finiteCoordinates g ->
  Geometry_Coordinates cur = None ->
  storeGeometry
    (json.Object [("type", json.Str (Geometry_Type g));
                  ("coordinates", jsonCoordinates (Geometry_Coordinates g))]) cur []
  = inr (g, []).
Proof.
  destruct g as [t [l|]]; unfold finiteCoordinates; simpl; intros Hg Hcur; [|done].
  unfold storeGeometry, storeFloat64s. simpl. rewrite Hcur.
  destruct l as [|x l]; [done|].
  unfold storeFloat64s. cbn [json.strip map]. cbv iota.
  change (json.Number x :: map json.Number l) with (map json.Number (x :: l)).
  cbn [default app]. by rewrite (storeElems_numbers _ Hg).
Qed.

Lemma fromJSONString_Hex (id : primitive.ObjectID) :
  inRange id -> primitive.fromJSONString (primitive.Hex id) = inr id.
Proof.
  intros Hid. unfold primitive.fromJSONString, primitive.Hex.
  rewrite length_hexEncode. simpl Nat.eqb. cbv iota.
  by apply ObjectIDFromHex_Hex.
Qed.

Lemma Decode_jsonFeature f :
  inRange (Feature_ID f) -> finiteCoordinates (Feature_Geometry f) ->
  Decode (FirstValue (jsonFeature f)) zeroFeature = inr f.
Proof.
  intros Hid Hfin. destruct f as [id t [n s] g]. simpl in Hid, Hfin.
  unfold Decode, jsonFeature, storeFeature. cbn [json.strip]. cbv iota.
  cbn [Feature_ID Feature_Type Feature_Properties Feature_Geometry
       Properties_Name Properties_Description].
  cbn [storeFeatureMembers]. change (json.foldName "id") with "id".
  change (json.foldName "type") with "type".
  change (json.foldName "properties") with "properties".
  change (json.foldName "geometry") with "geometry".
  cbv [String.eqb Ascii.eqb Bool.eqb]. cbv iota beta.
  rewrite (UnmarshalJSON_hex _ _ _ (ObjectIDFromHex_Hex _ Hid)).
  unfold storeString, storeProperties.
  cbn [json.strip]. cbv iota.
  cbn [mbind result_bind storeString set_Type storeProperties].
  cbn [Feature_ID Feature_Type Feature_Properties Feature_Geometry zeroFeature].
  simpl storePropertiesMembers. cbn [mbind result_bind].
  cbn [set_Type Feature_ID Feature_Type Feature_Properties Feature_Geometry].
  rewrite (storeGeometry_json g {| Geometry_Type := ""; Geometry_Coordinates := None |}
             Hfin eq_refl).
  reflexivity.
Qed.

End SendingBack.

(** X16: the JSON the service writes for a feature (in Update's echo and
    in List) decodes, as a request body, to that same feature, for every
    feature whose identifier fits twelve bytes and whose coordinates are
    finite; what Update echoes for a decodable body is such a feature. *)
Theorem written_feature_decodes_back (f : LocationFeature) :
  inRange (Feature_ID f) ->
  finiteCoordinates (Feature_Geometry f) ->
  encodeFeature f = inr (jsonFeature f)
  /\ Decode (FirstValue (jsonFeature f)) zeroFeature = inr f
  /\ (forall body f', Decode body zeroFeature = inr f' ->
        Decode (FirstValue (jsonFeature f')) zeroFeature = inr f').
Proof.
  intros Hid Hfin. split_and!.
  - by apply encodeFeature_finite.
  - by apply Decode_jsonFeature.
  - intros body f' Hdec. apply Decode_jsonFeature.
    + by apply (Decode_inRange body).
    + by apply (Decode_finite body).
Qed.

Lemma written_feature_decodes_back_witness :
  inRange (Feature_ID (sampleFeature sampleID))
  /\ Decode (FirstValue (jsonFeature (sampleFeature sampleID))) zeroFeature
     = inr (sampleFeature sampleID).
Proof.
  assert (H1 : inRange (Feature_ID (sampleFeature sampleID))) by reflexivity.
  split; [exact H1|].
  apply (written_feature_decodes_back (sampleFeature sampleID) H1).
  repeat constructor.
Defined.

(** ** Posting a listed feature back *)

Section Reposting.

Lemma existsb_matches_elem (filter : bson.M) (ds : list bson.D) (d : bson.D) :
  d ∈ ds -> matches filter d = true -> existsb (matches filter) ds = true.
Proof.
  induction 1 as [d ds|d d' ds _ IH]; simpl; intros Hm.
  - by rewrite Hm.
  - rewrite (IH Hm). apply orb_true_r.
Qed.

Lemma listable_elem (ds : list bson.D) (fs : list LocationFeature) (f : LocationFeature) :
  listable ds fs -> f ∈ fs -> exists d, d ∈ ds /\ holds d f.
Proof.
  induction 1 as [|d f' ds fs Hd _ IH]; intros Hin; [by apply elem_of_nil in Hin|].
  apply elem_of_cons in Hin as [->|Hin].
  - exists d. split; [apply list_elem_of_here|done].
  - destruct (IH Hin) as (d0 & Hd0 & Hh). exists d0.
    split; [by apply list_elem_of_further|done].
Qed.

End Reposting.

(** X17: a feature that List shows cannot be created again from its own
    JSON: the body carries the feature's id, Create hands it to the
    store as _id, and since a document with that _id is stored the
    answer is 500 and nothing is added.  (For identifiers other than the
    zero one, which Create would replace by a generated one.) *)
Theorem posting_a_listed_feature_is_refused
    (r : Request) (c : Collection) (fs : list LocationFeature) (f : LocationFeature) :
  listable (docs c) fs ->
  f ∈ fs ->
  inRange (Feature_ID f) ->
  Feature_ID f <> primitive.NilObjectID ->
  Body r = FirstValue (jsonFeature f) ->
  StatusCode (handle api.createLocation r c).1 = 500%nat
  /\ docs (handle api.createLocation r c).2 = docs c.
Proof.
  intros Hl Hin Hrange Hnz Hbody.
  destruct (listable_elem _ _ _ Hl Hin) as (d & Hd & Hdec & Hid & Hfin).
  assert (Hf : Decode (Body r) zeroFeature = inr f).
  { rewrite Hbody. by apply Decode_jsonFeature. }
  rewrite (handle_create_decoded _ _ _ Hf).
  assert (Ha : assignedID f c = Feature_ID f).
  { unfold assignedID, primitive.IsZero.
    by destruct (N.eqb_spec (Feature_ID f) primitive.NilObjectID). }
  rewrite Ha, (existsb_matches_elem _ _ d Hd); [done|]. by apply matches_id.
Qed.

Lemma posting_a_listed_feature_is_refused_witness :
  listable (docs oneDocument) [set_Type "Feature" (sampleFeature sampleID)]
  /\ StatusCode
       (handle api.createLocation
          {| Method := "POST"; Vars := ∅;
             Body := FirstValue (jsonFeature (set_Type "Feature" (sampleFeature sampleID))) |}
          oneDocument).1 = 500%nat.
Proof.
  assert (H : listable (docs oneDocument) [set_Type "Feature" (sampleFeature sampleID)]).
  { repeat constructor. }
  split; [exact H|].
  apply (posting_a_listed_feature_is_refused _ oneDocument _
           (set_Type "Feature" (sampleFeature sampleID)) H).
  - apply list_elem_of_here.
  - reflexivity.
  - discriminate.
  - reflexivity.
Defined.
